(** * Notendashboard: the progress evaluation of [main.py]

    A shallow embedding of [calculate_weighted_average] and of the
    evaluation part of the Flask view [dashboard]: the averages, the
    goal of every semester, the overall goal and the completion check.

    - Grades are Python [float]s.  Their arithmetic is taken through the
      interface [PyNumber].  The instance [binary64] is IEEE 754 double
      precision as [SpecFloat] specifies it, which is what CPython
      computes; the instance [exact] is unrounded rational arithmetic,
      the arithmetic a reader of the formulas has in mind.
    - Exceptions are explicit: a computation yields [Ok v] or [Raise e].
    - A [datetime] is a number of microseconds since
      0001-01-01T00:00:00, the resolution and the range of Python's
      naive [datetime].
    - A [str] is the byte string of its UTF-8 encoding; [strptime]
      reads the decimal digits of every script.
    - The Flask session and the flashed messages are an explicit state.
    - A semester is modelled twice: [Semester] has a target grade that
      is a number, [Zeile.Semester] is the row as the database returns
      it, with a target grade that may be missing.

    Part I is the model.  Part II holds the lemmas on the rounding of
    binary64 and on the dates that [strptime] returns.  Part III holds
    the properties of the average, of the goals and of the completion
    check.  Part IV holds further properties of the evaluation, the
    template filter [date_format] and the reading of the semester index
    of a request. *)

From Stdlib Require Import ZArith QArith Qround Lia Lqa List Ascii String.
From Stdlib Require Import Floats.SpecFloat.
From Stdlib Require DecimalString.
From stdpp Require Import base option list gmap strings.

Local Open Scope Z_scope.

(** * Part I: the model *)

(** ** Exceptions *)

Inductive exn : Set :=
| ValueError
| TypeError
| OverflowError
| ZeroDivisionError.

Inductive result (A : Type) : Type :=
| Ok (a : A)
| Raise (e : exn).
Arguments Ok {A} a.
Arguments Raise {A} e.

Definition rbind {A B : Type} (r : result A) (k : A -> result B) : result B :=
  match r with
  | Ok a => k a
  | Raise e => Raise e
  end.

Notation "'do' x <- r ; k" := (rbind r (fun x => k))
  (at level 10, x name, r at level 100, k at level 200).

(** ** Decimal rendering *)

Definition str_of_Z (z : Z) : string :=
  DecimalString.NilZero.string_of_int (Z.to_int z).

Definition two_digits (z : Z) : string :=
  (if z <? 10 then "0" else "") +:+ str_of_Z z.

(** [format(x, '.2f')] for the magnitude [n / d] ([0 <= n], [0 < d]) of
    a number of sign [neg]: the nearest hundredth, ties to even. *)
Definition format_2f_frac (neg : bool) (n d : Z) : string :=
  let q := (100 * n) / d in
  let r := (100 * n) mod d in
  let h := if (d <? 2 * r) || ((d =? 2 * r) && Z.odd q) then q + 1 else q in
  (if neg then "-" else "") +:+ str_of_Z (h / 100) +:+ "." +:+ two_digits (h mod 100).

(** ** The arithmetic of grades *)

(** What the evaluation does with a grade: the conversion of an [int]
    in a mixed operation, [x + y], [x * y], [x == 0], the quotient by a
    divisor that is not zero, [x <= y], [x < y], [int(x)] and
    [format(x, '.2f')].  A non-zero [int] converts to a non-zero number,
    and a number above zero is not zero. *)
Class PyNumber : Type := {
  num : Type;
  of_int : Z -> num;
  num_add : num -> num -> num;
  num_mul : num -> num -> num;
  num_is_zero : num -> bool;
  num_quot : num -> num -> num;
  num_leb : num -> num -> bool;
  num_ltb : num -> num -> bool;
  num_to_int : num -> result Z;
  num_format_2f : num -> string;
  of_int_nonzero : forall n : Z, n <> 0 -> num_is_zero (of_int n) = false;
  positive_nonzero :
    forall x : num, num_ltb (of_int 0) x = true -> num_is_zero x = false
}.

(** [x / y]: a zero divisor raises [ZeroDivisionError]. *)
Definition truediv `{PyNumber} (x y : num) : result num :=
  if num_is_zero y then Raise ZeroDivisionError else Ok (num_quot x y).

(** ** IEEE 754 binary64 *)

Module F64.

Definition prec : Z := 53.
Definition emax : Z := 1024.

Definition float : Set := spec_float.

(** [float(n)] for an [int]: the nearest double, ties to even.  (Python
    raises [OverflowError] from 2^1024 on; a sum of 64-bit credit
    columns does not get there.) *)
Definition of_Z (n : Z) : float := binary_normalize prec emax n 0 false.
Definition add : float -> float -> float := SFadd prec emax.
Definition mul : float -> float -> float := SFmul prec emax.
Definition div : float -> float -> float := SFdiv prec emax.
Definition leb : float -> float -> bool := SFleb.
Definition ltb : float -> float -> bool := SFltb.

Definition is_zero (x : float) : bool :=
  match x with
  | S754_zero _ => true
  | _ => false
  end.

(** [int(x)]: truncation toward zero; [nan] and the infinities raise. *)
Definition to_int (x : float) : result Z :=
  match x with
  | S754_zero _ => Ok 0
  | S754_nan => Raise ValueError
  | S754_infinity _ => Raise OverflowError
  | S754_finite s m e => Ok (cond_Zopp s (Z.shiftl (Z.pos m) e))
  end.

Definition format_2f (x : float) : string :=
  match x with
  | S754_zero s => format_2f_frac s 0 1
  | S754_nan => "nan"
  | S754_infinity s => (if s then "-" else "") +:+ "inf"
  | S754_finite s m e =>
      if 0 <=? e then format_2f_frac s (Z.pos m * 2 ^ e) 1
      else format_2f_frac s (Z.pos m) (2 ^ (- e))
  end.

(** The rational number a finite double stands for. *)
Definition value (x : float) : Q :=
  match x with
  | S754_finite s m e =>
      if 0 <=? e then inject_Z (cond_Zopp s (Z.pos m * 2 ^ e))
      else Qmake (cond_Zopp s (Z.pos m)) (Z.to_pos (2 ^ (- e)))
  | _ => 0
  end.

(** The rational number [n / 2^k]. *)
Definition dyadic (n k : Z) : Q := n # Z.to_pos (2 ^ k).

(** The decimal literal [n / 10^k] ([|n| < 2^53], [k <= 22]) as Python
    reads it: both operands are exact doubles and the quotient is
    rounded once. *)
Definition lit (n : Z) (k : Z) : float := div (of_Z n) (of_Z (10 ^ k)).

(** [a / b] for two [int]s, [0 < b]: the exact quotient rounded once.
    The quotient is taken with 64 extra bits and a sticky bit.  (Python
    raises [OverflowError] for a quotient beyond the doubles; the
    quotient of two [timedelta]s stays far below.) *)
Definition int_truediv (a b : Z) : float :=
  let s := Z.log2 b + 64 in
  let q := Z.shiftl (Z.abs a) s / b in
  let r := Z.shiftl (Z.abs a) s mod b in
  let m := 2 * q + (if r =? 0 then 0 else 1) in
  binary_normalize prec emax (if a <? 0 then - m else m) (- s - 1) false.

(** *** A non-zero [int] converts to a non-zero [float] *)

Lemma digits2_pos_lower (m : positive) :
  2 ^ (Z.pos (digits2_pos m) - 1) <= Z.pos m.
Proof.
  induction m as [m IH | m IH | ]; simpl digits2_pos.
  - rewrite Pos2Z.inj_succ.
    replace (Z.succ (Z.pos (digits2_pos m)) - 1)
      with (Z.succ (Z.pos (digits2_pos m) - 1)) by lia.
    rewrite Z.pow_succ_r by lia. lia.
  - rewrite Pos2Z.inj_succ.
    replace (Z.succ (Z.pos (digits2_pos m)) - 1)
      with (Z.succ (Z.pos (digits2_pos m) - 1)) by lia.
    rewrite Z.pow_succ_r by lia. lia.
  - simpl. lia.
Qed.

Lemma shr_1_m (r : shr_record) :
  0 <= shr_m r -> shr_m (shr_1 r) = Z.shiftr (shr_m r) 1.
Proof.
  destruct r as [m b c]. simpl. intros Hm.
  destruct m as [ | [p | p | ] | p ]; try reflexivity; lia.
Qed.

Lemma iter_shr_1_m (p : positive) (r : shr_record) :
  0 <= shr_m r -> shr_m (SpecFloat.iter_pos shr_1 p r) = Z.shiftr (shr_m r) (Z.pos p).
Proof.
  revert r. induction p as [p IH | p IH | ]; intros r Hr; simpl SpecFloat.iter_pos.
  - assert (H1 : 0 <= shr_m (shr_1 r))
      by (rewrite shr_1_m by lia; apply Z.shiftr_nonneg; lia).
    assert (H2 : 0 <= shr_m (SpecFloat.iter_pos shr_1 p (shr_1 r)))
      by (rewrite IH by lia; apply Z.shiftr_nonneg; lia).
    rewrite IH by lia. rewrite IH by lia. rewrite shr_1_m by lia.
    rewrite !Z.shiftr_shiftr by lia. f_equal. lia.
  - assert (H2 : 0 <= shr_m (SpecFloat.iter_pos shr_1 p r))
      by (rewrite IH by lia; apply Z.shiftr_nonneg; lia).
    rewrite IH by lia. rewrite IH by lia.
    rewrite !Z.shiftr_shiftr by lia. f_equal. lia.
  - apply shr_1_m; lia.
Qed.

Lemma shr_fexp_pos (m : positive) (e : Z) (l : location) :
  SpecFloat.emin prec emax <= e ->
  0 < shr_m (fst (shr_fexp prec emax (Z.pos m) e l)) /\
  SpecFloat.emin prec emax <= snd (shr_fexp prec emax (Z.pos m) e l).
Proof.
  intros He. unfold shr_fexp, shr.
  assert (Hm : shr_m (shr_record_of_loc (Z.pos m) l) = Z.pos m)
    by (destruct l as [ | [ | | ]]; reflexivity).
  simpl Zdigits2.
  set (d := Z.pos (digits2_pos m)).
  destruct (fexp prec emax (d + e) - e) as [ | p | p ] eqn:Hn; simpl fst; simpl snd.
  - rewrite Hm. lia.
  - rewrite iter_shr_1_m by (rewrite Hm; lia). rewrite Hm.
    split; [ | lia ].
    assert (Hp : Z.pos p <= d - 1)
      by (unfold fexp, SpecFloat.emin, prec, emax in *; lia).
    rewrite Z.shiftr_div_pow2 by lia.
    apply Z.div_str_pos. split; [ apply Z.pow_pos_nonneg; lia | ].
    pose proof (digits2_pos_lower m) as Hd. fold d in Hd.
    assert (2 ^ Z.pos p <= 2 ^ (d - 1)) by (apply Z.pow_le_mono_r; lia).
    lia.
  - rewrite Hm. lia.
Qed.

Lemma round_nearest_even_pos (m : Z) (l : location) :
  0 < m -> 0 < round_nearest_even m l.
Proof.
  intros Hm. unfold round_nearest_even.
  destruct l as [ | [ | | ]]; try lia. destruct (Z.even m); lia.
Qed.

Lemma binary_round_aux_nonzero (s : bool) (m : positive) (e : Z) (l : location) :
  SpecFloat.emin prec emax <= e ->
  is_zero (binary_round_aux prec emax s (Z.pos m) e l) = false.
Proof.
  intros He. unfold binary_round_aux.
  destruct (shr_fexp_pos m e l He) as [H1 H2].
  destruct (shr_fexp prec emax (Z.pos m) e l) as [mrs' e'].
  simpl fst in H1; simpl snd in H2.
  pose proof (round_nearest_even_pos _ (loc_of_shr_record mrs') H1) as H3.
  destruct (round_nearest_even (shr_m mrs') (loc_of_shr_record mrs'))
    as [ | m1 | m1 ]; try lia.
  destruct (shr_fexp_pos m1 e' loc_Exact H2) as [H4 _].
  destruct (shr_fexp prec emax (Z.pos m1) e' loc_Exact) as [mrs'' e''].
  simpl fst in H4.
  destruct (shr_m mrs'') as [ | m2 | m2 ]; try lia.
  destruct (e'' <=? emax - prec); reflexivity.
Qed.

Lemma binary_round_nonzero (s : bool) (m : positive) (e : Z) :
  SpecFloat.emin prec emax <= e ->
  is_zero (binary_round prec emax s m e) = false.
Proof.
  intros He. unfold binary_round, shl_align.
  set (f := fexp prec emax (Z.pos (digits2_pos m) + e)).
  destruct (f - e) as [ | d | d ] eqn:Hd;
    apply binary_round_aux_nonzero; try lia.
  unfold f, fexp. lia.
Qed.

Lemma of_Z_nonzero (n : Z) : n <> 0 -> is_zero (of_Z n) = false.
Proof.
  intros Hn. unfold of_Z, binary_normalize.
  destruct n as [ | p | p ]; [ lia | | ];
    apply binary_round_nonzero; unfold SpecFloat.emin, prec, emax; lia.
Qed.

Lemma positive_is_nonzero (x : float) :
  ltb (of_Z 0) x = true -> is_zero x = false.
Proof.
  unfold ltb, of_Z, SFltb. destruct x as [ s | s | | s m e ]; simpl;
    intros H; congruence.
Qed.

End F64.

(** The arithmetic the code runs on. *)
#[export] Instance binary64 : PyNumber := {|
  num := F64.float;
  of_int := F64.of_Z;
  num_add := F64.add;
  num_mul := F64.mul;
  num_is_zero := F64.is_zero;
  num_quot := F64.div;
  num_leb := F64.leb;
  num_ltb := F64.ltb;
  num_to_int := F64.to_int;
  num_format_2f := F64.format_2f;
  of_int_nonzero := F64.of_Z_nonzero;
  positive_nonzero := F64.positive_is_nonzero
|}.

(** ** Unrounded rational arithmetic

    The same operations on [Q], none of them rounded.  The code does not
    run on this arithmetic; it is the yardstick for what rounding
    changes. *)

Module Exact.

Definition is_zero (x : Q) : bool := Qnum x =? 0.
Definition ltb (x y : Q) : bool := negb (Qle_bool y x).

(** [int(x)] truncates toward zero. *)
Definition to_int (x : Q) : result Z := Ok (Z.quot (Qnum x) (Z.pos (Qden x))).

Definition format_2f (x : Q) : string :=
  format_2f_frac (Qnum x <? 0) (Z.abs (Qnum x)) (Z.pos (Qden x)).

Lemma inject_Z_nonzero (n : Z) : n <> 0 -> is_zero (inject_Z n) = false.
Proof. intros Hn. unfold is_zero. simpl. lia. Qed.

Lemma positive_rational_nonzero (x : Q) :
  ltb (inject_Z 0) x = true -> is_zero x = false.
Proof.
  unfold ltb, is_zero, Qle_bool. simpl. intros H.
  destruct (Z.eqb_spec (Qnum x) 0) as [ Hx | ]; [ | reflexivity ].
  rewrite Hx in H. discriminate.
Qed.

End Exact.

Definition exact : PyNumber := {|
  num := Q;
  of_int := inject_Z;
  num_add := Qplus;
  num_mul := Qmult;
  num_is_zero := Exact.is_zero;
  num_quot := Qdiv;
  num_leb := Qle_bool;
  num_ltb := Exact.ltb;
  num_to_int := Exact.to_int;
  num_format_2f := Exact.format_2f;
  of_int_nonzero := Exact.inject_Z_nonzero;
  positive_nonzero := Exact.positive_rational_nonzero
|}.

(** ** [datetime] and [timedelta] *)

Module Datetime.

(** Microseconds since 0001-01-01T00:00:00, and microseconds. *)
Definition datetime : Set := Z.
Definition timedelta : Set := Z.

Definition us_per_day : Z := 86400000000.
Definition days (n : Z) : timedelta := n * us_per_day.

Definition is_leap (y : Z) : bool :=
  (y mod 4 =? 0) && (negb (y mod 100 =? 0) || (y mod 400 =? 0)).

Definition days_in_month (y m : Z) : Z :=
  match m with
  | 1 | 3 | 5 | 7 | 8 | 10 | 12 => 31
  | 4 | 6 | 9 | 11 => 30
  | 2 => if is_leap y then 29 else 28
  | _ => 0
  end.

Definition days_before_year (y : Z) : Z :=
  (y - 1) * 365 + (y - 1) / 4 - (y - 1) / 100 + (y - 1) / 400.

Definition days_before_month (y m : Z) : Z :=
  fold_left Z.add (map (days_in_month y) (map Z.of_nat (seq 1 (Z.to_nat (m - 1))))) 0.

(** The proleptic Gregorian ordinal: 0001-01-01 is day 1. *)
Definition ymd2ord (y m d : Z) : Z :=
  days_before_year y + days_before_month y m + d.

Definition of_ymd (y m d : Z) : datetime := (ymd2ord y m d - 1) * us_per_day.

(** 9999-12-31T23:59:59.999999 *)
Definition max : datetime := ymd2ord 9999 12 31 * us_per_day - 1.

Definition in_range (t : Z) : bool := (0 <=? t) && (t <=? max).

(** [t + d] and [t - d] raise [OverflowError] outside years 1..9999. *)
Definition add (t : datetime) (d : timedelta) : result datetime :=
  if in_range (t + d) then Ok (t + d) else Raise OverflowError.
Definition sub (t : datetime) (d : timedelta) : result datetime :=
  if in_range (t - d) then Ok (t - d) else Raise OverflowError.

(** *** Characters

    A [str] is held as the bytes of its UTF-8 encoding, so that the
    literals of the source are the strings of the model.  The regular
    expressions of [strptime] are compiled for [str]: [\d] matches
    every character with the Unicode property Decimal, and [int] reads
    such a character as its decimal value. *)

Definition code (c : ascii) : Z := Z.of_N (N_of_ascii c).
Definition between (lo hi c : ascii) : bool :=
  (code lo <=? code c) && (code c <=? code hi).
Definition is_char (a c : ascii) : bool := code a =? code c.
Definition digit (c : ascii) : Z := code c - 48.

(** [n] bytes [10xxxxxx] that continue a character, six bits each. *)
Fixpoint continued (n : nat) (bits : Z) (s : string) : option (Z * string) :=
  match n with
  | O => Some (bits, s)
  | S n' =>
      match s with
      | String b rest =>
          if (128 <=? code b) && (code b <? 192)
          then continued n' (64 * bits + (code b - 128)) rest
          else None
      | EmptyString => None
      end
  end.

(** A code point of at least [least]: the encoding is the shortest. *)
Definition at_least (least : Z) (r : option (Z * string))
  : option (Z * string) :=
  match r with
  | Some (cp, rest) => if least <=? cp then Some (cp, rest) else None
  | None => None
  end.

(** The first character of a string as a code point, and the rest. *)
Definition code_point (s : string) : option (Z * string) :=
  match s with
  | EmptyString => None
  | String a rest =>
      let c := code a in
      if c <? 128 then Some (c, rest)
      else if c <? 192 then None
      else if c <? 224 then at_least 128 (continued 1 (c - 192) rest)
      else if c <? 240 then at_least 2048 (continued 2 (c - 224) rest)
      else if c <? 248 then at_least 65536 (continued 3 (c - 240) rest)
      else None
  end.

(** The digit zero of every script with decimal digits (general
    category Nd) in Unicode 14.0, the table of CPython 3.11; the digits
    one to nine follow each zero. *)
Definition decimal_zeros : list Z :=
  [ 48; 1632; 1776; 1984; 2406; 2534; 2662; 2790; 2918; 3046; 3174;
    3302; 3430; 3558; 3664; 3792; 3872; 4160; 4240; 6112; 6160; 6470;
    6608; 6784; 6800; 6992; 7088; 7232; 7248; 42528; 43216; 43264;
    43472; 43504; 43600; 44016; 65296; 66720; 68912; 69734; 69872;
    69942; 70096; 70384; 70736; 70864; 71248; 71360; 71472; 71904;
    72016; 72784; 73040; 73120; 92768; 92864; 93008; 120782; 120792;
    120802; 120812; 120822; 123200; 123632; 125264; 130032 ].

(** [unicodedata.decimal] of a code point. *)
Definition decimal (cp : Z) : option Z :=
  match List.find (fun zero => (zero <=? cp) && (cp <? zero + 10))
          decimal_zeros with
  | Some zero => Some (cp - zero)
  | None => None
  end.

(** The number of characters of a string: the bytes that do not
    continue a character. *)
Fixpoint len (s : string) : nat :=
  match s with
  | EmptyString => O
  | String b rest =>
      if (128 <=? code b) && (code b <? 192) then len rest
      else S (len rest)
  end.

(** *** [datetime.strptime(s, '%Y-%m-%d')]

    The format compiles to the regular expression
    [(\d\d\d\d)-(1[0-2]|0[1-9]|[1-9])-(3[01]|[12]\d|0[1-9]|[1-9]| [1-9])],
    matched at the start of the string; text left over, year 0 and a
    day beyond the end of the month are a [ValueError]. *)

(** One alternative of a group: the value read and the rest. *)
Definition alternative : Type := string -> option (Z * string).

Definition alt2 (p1 p2 : ascii -> bool) : alternative := fun s =>
  match s with
  | String a (String b rest) =>
      if p1 a && p2 b then Some (10 * digit a + digit b, rest) else None
  | _ => None
  end.

Definition alt1 (p : ascii -> bool) : alternative := fun s =>
  match s with
  | String a rest => if p a then Some (digit a, rest) else None
  | _ => None
  end.

(** [\d]: one character that is a decimal digit. *)
Definition alt_d : alternative := fun s =>
  match code_point s with
  | Some (cp, rest) =>
      match decimal cp with
      | Some v => Some (v, rest)
      | None => None
      end
  | None => None
  end.

(** A character of a class, then [\d]. *)
Definition alt1_d (p : ascii -> bool) : alternative := fun s =>
  match s with
  | String a rest =>
      if p a then
        match alt_d rest with
        | Some (v, rest') => Some (10 * digit a + v, rest')
        | None => None
        end
      else None
  | EmptyString => None
  end.

Definition alt_blank (p : ascii -> bool) : alternative := fun s =>
  match s with
  | String a (String b rest) =>
      if is_char " " a && p b then Some (digit b, rest) else None
  | _ => None
  end.

Definition month_group : list alternative :=
  [ alt2 (is_char "1") (between "0" "2");
    alt2 (is_char "0") (between "1" "9");
    alt1 (between "1" "9") ].

Definition day_group : list alternative :=
  [ alt2 (is_char "3") (between "0" "1");
    alt1_d (between "1" "2");
    alt2 (is_char "0") (between "1" "9");
    alt1 (between "1" "9");
    alt_blank (between "1" "9") ].

(** The alternatives in order, backtracking into the next one when the
    continuation [k] fails. *)
Fixpoint group {A : Type} (alts : list alternative)
    (k : Z -> string -> option A) (s : string) : option A :=
  match alts with
  | [] => None
  | alt :: alts' =>
      match alt s with
      | Some (v, rest) =>
          match k v rest with
          | Some r => Some r
          | None => group alts' k s
          end
      | None => group alts' k s
      end
  end.

Definition dash {A : Type} (k : string -> option A) (s : string) : option A :=
  match s with
  | String a rest => if is_char "-" a then k rest else None
  | EmptyString => None
  end.

(** [\d\d\d\d], read as [int] reads the four characters. *)
Definition year_group {A : Type} (k : Z -> string -> option A) (s : string)
  : option A :=
  match alt_d s with
  | Some (a, s1) =>
      match alt_d s1 with
      | Some (b, s2) =>
          match alt_d s2 with
          | Some (c, s3) =>
              match alt_d s3 with
              | Some (d, s4) => k (1000 * a + 100 * b + 10 * c + d) s4
              | None => None
              end
          | None => None
          end
      | None => None
      end
  | None => None
  end.

Definition regex_Ymd (s : string) : option (Z * Z * Z * string) :=
  year_group (fun y =>
    dash (group month_group (fun m =>
      dash (group day_group (fun d rest' => Some (y, m, d, rest')))))) s.

Definition strptime (data_string : option string) : result datetime :=
  match data_string with
  | None => Raise TypeError
  | Some s =>
      match regex_Ymd s with
      | None => Raise ValueError
      | Some (y, m, d, rest) =>
          match rest with
          | String _ _ => Raise ValueError
          | EmptyString =>
              if (y <? 1) || (days_in_month y m <? d) then Raise ValueError
              else Ok (of_ymd y m d)
          end
      end
  end.

End Datetime.

Abbreviation datetime := Datetime.datetime.

(** ** The records read by the evaluation

    Only the columns the evaluation reads are kept: [ects] and [grade]
    of the class [Module], and [id], [name], [target_date],
    [target_grade] and [modules] of the class [Semester].  [grade] is
    [None] until a grade is entered, and [target_date] is a nullable
    string column.  [Semester] is a semester whose target grade is a
    number; the column is nullable as well, and the rows as the
    database returns them are the records of [Zeile] below. *)

Section Dashboard.

Context {N : PyNumber}.

Record Module_ : Type := {
  ects : Z;
  grade : option num
}.

Record Semester : Type := {
  id : Z;
  name : string;
  target_date : option string;
  target_grade : num;
  modules : list Module_
}.

(** ** [calculate_weighted_average] *)

(** One iteration of [for module in modules], on the pair
    [(weighted_sum, total_ects)]. *)
Definition average_step (acc : num * Z) (module : Module_) : num * Z :=
  match grade module with
  | Some g => (num_add (fst acc) (num_mul g (of_int (ects module))),
               snd acc + ects module)
  | None => acc
  end.

Definition calculate_weighted_average (modules : list Module_)
  : result (option num) :=
  let '(weighted_sum, total_ects) :=
    fold_left average_step modules (of_int 0, 0) in
  if 0 <? total_ects then
    do average <- truediv weighted_sum (of_int total_ects);
    Ok (Some average)
  else Ok None.

(** *** The aggregation as the specification words it *)

(** The units with a grade, as pairs (grade, credit weight). *)
Fixpoint graded (modules : list Module_) : list (num * Z) :=
  match modules with
  | [] => []
  | module :: rest =>
      match grade module with
      | Some g => (g, ects module) :: graded rest
      | None => graded rest
      end
  end.

Definition sum_num (l : list num) : num := fold_left num_add l (of_int 0).
Definition sum_Z (l : list Z) : Z := fold_left Z.add l 0.

Definition weighted_grades (modules : list Module_) : list num :=
  map (fun gw => num_mul (fst gw) (of_int (snd gw))) (graded modules).
Definition weights (modules : list Module_) : list Z :=
  map snd (graded modules).

(** The least and the greatest grade of a non-empty list, by [<=]. *)
Definition num_min (x y : num) : num := if num_leb x y then x else y.
Definition num_max (x y : num) : num := if num_leb x y then y else x.

Definition least (l : list num) : option num :=
  match l with
  | [] => None
  | x :: l' => Some (fold_left num_min l' x)
  end.
Definition greatest (l : list num) : option num :=
  match l with
  | [] => None
  | x :: l' => Some (fold_left num_max l' x)
  end.

(** [avg] lies between the least and the greatest grade of the graded
    units of [modules]. *)
Definition between_grades (modules : list Module_) (avg : num) : Prop :=
  exists lo hi : num,
    least (map fst (graded modules)) = Some lo /\
    greatest (map fst (graded modules)) = Some hi /\
    num_leb lo avg = true /\ num_leb avg hi = true.

(** ** The goals: messages, classes and colours *)

(** [now - (target_date - timedelta(days=tage))] over
    [timedelta(days=tage)], times 100.  The quotient of two
    [timedelta]s is a [float]. *)
Definition zeit_prozent (now target_date : datetime) (tage : Z)
  : result F64.float :=
  do start <- Datetime.sub target_date (Datetime.days tage);
  let vergangene_zeit := now - start in
  let gesamte_zeit := Datetime.days tage in
  Ok (F64.mul (F64.int_truediv vergangene_zeit gesamte_zeit) (F64.of_Z 100)).

(** The [try ... except ValueError] around the time check: [nachricht]
    and [klasse] are the values set before it. *)
Definition zeitfortschritt (now : datetime) (target_date : option string)
    (tage : Z) (achtung : string) (nachricht klasse : string)
  : result (string * string) :=
  match (do target <- Datetime.strptime target_date;
         zeit_prozent now target tage) with
  | Ok prozent =>
      if F64.ltb (F64.of_Z 100) prozent
      then Ok (nachricht +:+ achtung, "ziel-verfehlt")
      else Ok (nachricht, klasse)
  | Raise ValueError =>
      Ok (nachricht +:+ " Fehler beim Berechnen des Zeitfortschritts.",
          "ziel-verfehlt")
  | Raise e => Raise e
  end.

Definition fortschritt_farbe_von (klasse : string) : string :=
  if String.eqb klasse "ziel-erreicht" then "#4CAF50"
  else if String.eqb klasse "ziel-gefaehrdet" then "#ff9800"
  else "#f44336".

Record Ziel : Type := {
  ziel_nachricht : string;
  ziel_klasse : string;
  fortschritt_farbe : string
}.

(** The body of the loop that sets [semester.ziel_nachricht],
    [semester.ziel_klasse] and [semester.fortschritt_farbe];
    [average] is [semester.average]. *)
Definition semester_ziel (now : datetime) (semester : Semester)
    (average : option num) : result Ziel :=
  do nk <-
    match average with
    | Some avg =>
        let nk :=
          if num_leb avg (target_grade semester)
          then ("Du bist auf einem guten Weg, dein Ziel zu erreichen!",
                "ziel-erreicht")
          else ("Du musst dich noch etwas anstrengen, um deine Zielnote zu erreichen.",
                "ziel-gefaehrdet") in
        zeitfortschritt now (target_date semester) 180
          " Achtung: Die Zeit für dieses Semester läuft ab!" (fst nk) (snd nk)
    | None =>
        Ok ("Es gibt noch keine Noten in diesem Semester.", "ziel-gefaehrdet")
    end;
  Ok {| ziel_nachricht := fst nk;
        ziel_klasse := snd nk;
        fortschritt_farbe := fortschritt_farbe_von (snd nk) |}.

(** [int(overall_target_grade / total_average * 100) if total_average > 0 else 0] *)
Definition fortschritt_prozent (overall_target_grade total_average : num)
  : result Z :=
  if num_ltb (of_int 0) total_average then
    do ratio <- truediv overall_target_grade total_average;
    num_to_int (num_mul ratio (of_int 100))
  else Ok 0.

Record OverallZiel : Type := {
  overall_ziel_nachricht : string;
  overall_ziel_klasse : string;
  overall_fortschritt_prozent : Z;
  overall_fortschritt_farbe : string
}.

Definition overall_ziel (now : datetime) (overall_target_date_str : option string)
    (overall_target_grade : num) (total_average : option num)
  : result OverallZiel :=
  do nkp <-
    match total_average with
    | Some avg =>
        do np <-
          (if num_leb avg overall_target_grade
           then Ok ("Du bist auf einem guten Weg, dein Gesamtziel zu erreichen!",
                    "ziel-erreicht", 100)
           else
             do prozent <- fortschritt_prozent overall_target_grade avg;
             Ok ("Du musst dich noch etwas anstrengen, um deine Gesamtzielnote zu erreichen.",
                 "ziel-gefaehrdet", prozent));
        do nk <- zeitfortschritt now overall_target_date_str (3 * 365)
                   " Achtung: Die Zeit für dein Studium läuft ab!"
                   (fst (fst np)) (snd (fst np));
        Ok (nk, snd np)
    | None =>
        Ok ("Es gibt noch keine Noten, um den Fortschritt zu berechnen.",
            "ziel-gefaehrdet", 0)
    end;
  Ok {| overall_ziel_nachricht := fst (fst nkp);
        overall_ziel_klasse := snd (fst nkp);
        overall_fortschritt_prozent := snd nkp;
        overall_fortschritt_farbe := fortschritt_farbe_von (snd (fst nkp)) |}.

(** ** The completion check: session flags and flashed messages *)

(** The flag [session['semester_<id>_abgeschlossen']] is keyed by the
    id; [flashes] holds (message, category) in the order of the calls. *)
Record State : Type := {
  session : gmap Z bool;
  flashes : list (string * string)
}.

(** A step reads and writes the state and may raise; the state
    written before an exception stays. *)
Definition M (A : Type) : Type := State -> result A * State.

Definition ret {A : Type} (a : A) : M A := fun st => (Ok a, st).
Definition raise {A : Type} (e : exn) : M A := fun st => (Raise e, st).
Definition bind {A B : Type} (m : M A) (k : A -> M B) : M B := fun st =>
  match m st with
  | (Ok a, st') => k a st'
  | (Raise e, st') => (Raise e, st')
  end.
Definition lift {A : Type} (r : result A) : M A := fun st => (r, st).

Notation "'doM' x <- m ; k" := (bind m (fun x => k))
  (at level 10, x name, m at level 100, k at level 200).

Definition flash (message category : string) : M unit := fun st =>
  (Ok tt, {| session := session st;
             flashes := flashes st ++ [(message, category)] |}).

(** [session.get(key)] as a truth value: a missing key is falsy. *)
Definition session_get (key : Z) : M bool := fun st =>
  (Ok (default false (session st !! key)), st).

Definition session_set (key : Z) (value : bool) : M unit := fun st =>
  (Ok tt, {| session := <[key := value]> (session st);
             flashes := flashes st |}).

Definition abgeschlossen_nachricht (semester : Semester) (avg : num) : string :=
  "Das Semester '" +:+ name semester
    +:+ "' ist abgeschlossen! Durchschnittsnote: " +:+ num_format_2f avg.

Definition zieldatum_nachricht (semester : Semester) : string :=
  "Ungültiges Zieldatum Format für Semester " +:+ name semester
    +:+ ". Bitte verwenden Sie das Format JJJJ-MM-TT.".

(** [if not session.get(key): flash(...); session[key] = True] *)
Definition abschluss_melden (semester : Semester) (avg : num) : M unit :=
  doM abgeschlossen <- session_get (id semester);
  if negb abgeschlossen then
    doM _ <- flash (abgeschlossen_nachricht semester avg) "success";
    session_set (id semester) true
  else ret tt.

Definition toleranz_tage : Z := 30.

(** [module.grade is not None] *)
Definition has_grade (module : Module_) : bool :=
  match grade module with
  | Some _ => true
  | None => false
  end.

(** [all(module.grade is not None for module in semester.modules)] *)
Definition alle_benotet (semester : Semester) : bool :=
  forallb has_grade (modules semester).

(** The body of the loop that checks whether a semester is completed;
    [average] is [semester.average]. *)
Definition semester_abschluss (now : datetime) (semester : Semester)
    (average : option num) : M unit :=
  match average with
  | Some avg =>
      match Datetime.strptime (target_date semester) with
      | Ok semester_ziel_datum =>
          doM grenze <- lift (Datetime.add semester_ziel_datum
                                (Datetime.days toleranz_tage));
          if grenze <? now then abschluss_melden semester avg
          else if alle_benotet semester then abschluss_melden semester avg
          else session_set (id semester) false
      | Raise ValueError => flash (zieldatum_nachricht semester) "danger"
      | Raise e => raise e
      end
  | None => ret tt
  end.

(** [for semester in semesters] over the semesters with their
    [average] attribute. *)
Fixpoint abschluss_schleife (now : datetime)
    (semesters : list (Semester * option num)) : M unit :=
  match semesters with
  | [] => ret tt
  | (semester, average) :: rest =>
      doM _ <- semester_abschluss now semester average;
      abschluss_schleife now rest
  end.

(** ** The evaluation pass of the view *)

Fixpoint for_each {A B : Type} (f : A -> result B) (l : list A)
  : result (list B) :=
  match l with
  | [] => Ok []
  | a :: l' => do b <- f a; do bs <- for_each f l'; Ok (b :: bs)
  end.

Record Auswertung : Type := {
  averages : list (Semester * option num);
  total_average : option num;
  ziele : list Ziel;
  overall : OverallZiel
}.

(** The part of [dashboard] after the form handling: the averages, the
    goal of every semester, the overall goal and the completion check,
    in this order; the result holds what is passed to the template.
    [overall_target_date_str] and [overall_target_grade] are the values
    read from the session.  The clock is taken at one instant [now] for
    the whole pass. *)
Definition dashboard (now : datetime) (semesters : list Semester)
    (overall_target_date_str : option string) (overall_target_grade : num)
  : M Auswertung :=
  doM avgs <- lift (for_each (fun semester =>
                 do average <- calculate_weighted_average (modules semester);
                 Ok (semester, average)) semesters);
  doM total <- lift (calculate_weighted_average
                       (concat (map modules semesters)));
  doM zs <- lift (for_each (fun sa => semester_ziel now (fst sa) (snd sa)) avgs);
  doM ov <- lift (overall_ziel now overall_target_date_str
                    overall_target_grade total);
  doM _ <- abschluss_schleife now avgs;
  ret {| averages := avgs; total_average := total; ziele := zs; overall := ov |}.

(** ** Vocabulary of the properties *)

(** The message and the class that the grade test of a semester sets. *)
Definition noten_nachricht (semester : Semester) (avg : num) : string :=
  if num_leb avg (target_grade semester)
  then "Du bist auf einem guten Weg, dein Ziel zu erreichen!"
  else "Du musst dich noch etwas anstrengen, um deine Zielnote zu erreichen.".

Definition noten_klasse (semester : Semester) (avg : num) : string :=
  if num_leb avg (target_grade semester)
  then "ziel-erreicht" else "ziel-gefaehrdet".

(** The elapsed percentage of the 180 days before the target date, as
    the time check of a semester computes it. *)
Definition semester_zeit_prozent (now : datetime) (semester : Semester)
  : result F64.float :=
  do target <- Datetime.strptime (target_date semester);
  zeit_prozent now target 180.

(** The transition condition as the completion check evaluates it: the
    target date is parsed, 30 days are added, and the semester counts as
    completed when the clock is past that date or every unit has a
    grade. *)
Definition uebergang (now : datetime) (semester : Semester) : result bool :=
  do semester_ziel_datum <- Datetime.strptime (target_date semester);
  do grenze <- Datetime.add semester_ziel_datum (Datetime.days toleranz_tage);
  Ok ((grenze <? now) || alle_benotet semester).

(** The stored flag of an id, as a truth value. *)
Definition flagge (st : State) (key : Z) : bool :=
  default false (session st !! key).

(** The state after the completion of [semester] was flashed and
    stored. *)
Definition gemeldet (semester : Semester) (avg : num) (st : State) : State :=
  {| session := <[id semester := true]> (session st);
     flashes := flashes st ++ [(abgeschlossen_nachricht semester avg, "success")] |}.

(** The completion check stores [False] over the flag: the average is
    present, the transition condition is evaluated and does not hold. *)
Definition zurueckgesetzt (now : datetime) (semester : Semester)
    (average : option num) : bool :=
  match average, uebergang now semester with
  | Some _, Ok false => true
  | _, _ => false
  end.

Definition ids (semesters : list (Semester * option num)) : list Z :=
  map (fun sa => id (fst sa)) semesters.

(** The step of the average on a graded unit given as a pair. *)
Definition pair_step (acc : num * Z) (gw : num * Z) : num * Z :=
  (num_add (fst acc) (num_mul (fst gw) (of_int (snd gw))), snd acc + snd gw).

End Dashboard.

Arguments Module_ : clear implicits.
Arguments Semester : clear implicits.

Notation "'doM' x <- m ; k" := (bind m (fun x => k))
  (at level 10, x name, m at level 100, k at level 200).

(** ** The rows of the table [semester]

    [target_grade] is a column [db.Column(db.Float)]: SQLite stores a
    target grade that is not a number as NULL, and the row then comes
    back with [None].  [Zeile.Semester] is a row with the columns as
    they are read; the loops of the view are written out on it once
    more, under their names, with the comparison of line 471 on a
    target grade that may be missing. *)

Module Zeile.

Section Columns.

Context {N : PyNumber}.

Record Semester : Type := {
  id : Z;
  name : string;
  target_date : option string;
  target_grade : option num;
  modules : list (Module_ N)
}.

(** [x <= y] for a [float] [x]: [None] is not ordered with it. *)
Definition le (x : num) (y : option num) : result bool :=
  match y with
  | Some y' => Ok (num_leb x y')
  | None => Raise TypeError
  end.

(** The body of the loop that sets [semester.ziel_nachricht],
    [semester.ziel_klasse] and [semester.fortschritt_farbe];
    [average] is [semester.average]. *)
Definition semester_ziel (now : datetime) (semester : Semester)
    (average : option num) : result Ziel :=
  do nk <-
    match average with
    | Some avg =>
        do erreicht <- le avg (target_grade semester);
        let nk :=
          if (erreicht : bool)
          then ("Du bist auf einem guten Weg, dein Ziel zu erreichen!",
                "ziel-erreicht")
          else ("Du musst dich noch etwas anstrengen, um deine Zielnote zu erreichen.",
                "ziel-gefaehrdet") in
        zeitfortschritt now (target_date semester) 180
          " Achtung: Die Zeit für dieses Semester läuft ab!" (fst nk) (snd nk)
    | None =>
        Ok ("Es gibt noch keine Noten in diesem Semester.", "ziel-gefaehrdet")
    end;
  Ok {| ziel_nachricht := fst nk;
        ziel_klasse := snd nk;
        fortschritt_farbe := fortschritt_farbe_von (snd nk) |}.

Definition abgeschlossen_nachricht (semester : Semester) (avg : num) : string :=
  "Das Semester '" +:+ name semester
    +:+ "' ist abgeschlossen! Durchschnittsnote: " +:+ num_format_2f avg.

Definition zieldatum_nachricht (semester : Semester) : string :=
  "Ungültiges Zieldatum Format für Semester " +:+ name semester
    +:+ ". Bitte verwenden Sie das Format JJJJ-MM-TT.".

Definition abschluss_melden (semester : Semester) (avg : num) : M unit :=
  doM abgeschlossen <- session_get (id semester);
  if negb abgeschlossen then
    doM _ <- flash (abgeschlossen_nachricht semester avg) "success";
    session_set (id semester) true
  else ret tt.

Definition alle_benotet (semester : Semester) : bool :=
  forallb has_grade (modules semester).

(** The body of the loop that checks whether a semester is completed:
    it does not read the target grade. *)
Definition semester_abschluss (now : datetime) (semester : Semester)
    (average : option num) : M unit :=
  match average with
  | Some avg =>
      match Datetime.strptime (target_date semester) with
      | Ok semester_ziel_datum =>
          doM grenze <- lift (Datetime.add semester_ziel_datum
                                (Datetime.days toleranz_tage));
          if grenze <? now then abschluss_melden semester avg
          else if alle_benotet semester then abschluss_melden semester avg
          else session_set (id semester) false
      | Raise ValueError => flash (zieldatum_nachricht semester) "danger"
      | Raise e => raise e
      end
  | None => ret tt
  end.

Fixpoint abschluss_schleife (now : datetime)
    (semesters : list (Semester * option num)) : M unit :=
  match semesters with
  | [] => ret tt
  | (semester, average) :: rest =>
      doM _ <- semester_abschluss now semester average;
      abschluss_schleife now rest
  end.

Record Auswertung : Type := {
  averages : list (Semester * option num);
  total_average : option num;
  ziele : list Ziel;
  overall : OverallZiel
}.

(** The part of [dashboard] after the form handling, on the rows. *)
Definition dashboard (now : datetime) (semesters : list Semester)
    (overall_target_date_str : option string) (overall_target_grade : num)
  : M Auswertung :=
  doM avgs <- lift (for_each (fun semester =>
                 do average <- calculate_weighted_average (modules semester);
                 Ok (semester, average)) semesters);
  doM total <- lift (calculate_weighted_average
                       (concat (map modules semesters)));
  doM zs <- lift (for_each (fun sa => semester_ziel now (fst sa) (snd sa)) avgs);
  doM ov <- lift (overall_ziel now overall_target_date_str
                    overall_target_grade total);
  doM _ <- abschluss_schleife now avgs;
  ret {| averages := avgs; total_average := total; ziele := zs; overall := ov |}.

(** [semester.average] as a value. *)
Definition average_of (semester : Semester) : option num :=
  match calculate_weighted_average (modules semester) with
  | Ok average => average
  | Raise _ => None
  end.

End Columns.

Arguments Semester : clear implicits.
Arguments Auswertung : clear implicits.

End Zeile.

(** The row of a semester with the target grade [target]. *)
Definition with_target_grade {N : PyNumber} (row : Zeile.Semester N)
    (target : num) : Semester N :=
  {| id := Zeile.id row;
     name := Zeile.name row;
     target_date := Zeile.target_date row;
     target_grade := target;
     modules := Zeile.modules row |}.

(** A semester as the row it is read from. *)
Definition row_of {N : PyNumber} (semester : Semester N) : Zeile.Semester N :=
  {| Zeile.id := id semester;
     Zeile.name := name semester;
     Zeile.target_date := target_date semester;
     Zeile.target_grade := Some (target_grade semester);
     Zeile.modules := modules semester |}.

(** Boundedness of the average, for one arithmetic: with a graded unit
    and a positive total weight, the average lies between the least and
    the greatest grade of the graded units. *)
Definition average_between_grades (N : PyNumber) : Prop :=
  forall modules : list (Module_ N),
    graded modules <> [] ->
    0 < sum_Z (weights modules) ->
    exists avg : num,
      calculate_weighted_average modules = Ok (Some avg)
      /\ between_grades modules avg.

(** Least, greatest and weighted grade in unrounded arithmetic. *)
Definition qmin : Q -> Q -> Q := @num_min exact.
Definition qmax : Q -> Q -> Q := @num_max exact.
Definition weighted (gw : Q * Z) : Q := (fst gw * inject_Z (snd gw))%Q.

(** The colours of the progress bar. *)
Definition gruen : string := "#4CAF50".
Definition orange : string := "#ff9800".
Definition rot : string := "#f44336".

(** ** Data of the scenarios *)

(** A graded unit in binary64, its grade the decimal literal
    [n / 10^k], and one in unrounded arithmetic. *)
Definition unit64 (credits : Z) (n k : Z) : Module_ binary64 :=
  {| ects := credits; grade := Some (F64.lit n k) |}.

Definition unitQ (credits : Z) (g : Q) : Module_ exact :=
  @Build_Module_ exact credits (Some g).

Definition ungraded64 (credits : Z) : Module_ binary64 :=
  {| ects := credits; grade := None |}.

Definition neujahr2024 : datetime := Datetime.of_ymd 2024 1 1.
Definition jahr2030 : option string := Some "2030-01-01".

(** Two graded units, target date 2024-09-30. *)
Definition semester_ss2024 : Semester binary64 :=
  {| id := 2; name := "SS 2024"; target_date := Some "2024-09-30";
     target_grade := F64.of_Z 2;
     modules := [unit64 6 17 1; unit64 6 23 1] |}.

(** One graded and one ungraded unit, target date 2025-03-31. *)
Definition semester_offen : Semester binary64 :=
  {| id := 3; name := "WS 2024"; target_date := Some "2025-03-31";
     target_grade := F64.of_Z 2;
     modules := [unit64 6 17 1; ungraded64 6] |}.

(** A target date that is no date. *)
Definition semester_kein_datum (modules : list (Module_ binary64))
  : Semester binary64 :=
  {| id := 1; name := "WS 2023"; target_date := Some "kein Datum";
     target_grade := F64.of_Z 2; modules := modules |}.

Definition leer : State := {| session := ∅; flashes := [] |}.

Definition gesetzt (key : Z) : State :=
  {| session := {[ key := true ]}; flashes := [] |}.

Definition ziel_1_8125 : OverallZiel :=
  {| overall_ziel_nachricht :=
       "Du musst dich noch etwas anstrengen, um deine Gesamtzielnote zu erreichen.";
     overall_ziel_klasse := "ziel-gefaehrdet";
     overall_fortschritt_prozent := 57;
     overall_fortschritt_farbe := "#ff9800" |}.

(** * Part II: rounding and dates *)

(** ** What [strptime] returns *)

Module DatetimeFacts.

Import Datetime.

Lemma between_code (lo hi c : ascii) :
  between lo hi c = true -> code lo <= code c <= code hi.
Proof.
  unfold between. intros H. apply andb_prop in H. destruct H as [H1 H2].
  apply Z.leb_le in H1. apply Z.leb_le in H2. lia.
Qed.

Lemma is_char_code (a c : ascii) : is_char a c = true -> code c = code a.
Proof. unfold is_char. intros H. apply Z.eqb_eq in H. lia. Qed.

Lemma decimal_value (cp v : Z) : decimal cp = Some v -> 0 <= v <= 9.
Proof.
  unfold decimal.
  destruct (List.find (fun zero => (zero <=? cp) && (cp <? zero + 10))
              decimal_zeros) as [ zero | ] eqn:Hfind; [ | discriminate ].
  apply List.find_some in Hfind. destruct Hfind as [_ Hzero].
  apply andb_prop in Hzero. destruct Hzero as [H1 H2].
  apply Z.leb_le in H1. apply Z.ltb_lt in H2. intros [= <-]. lia.
Qed.

Lemma alt_d_value (s rest : string) (v : Z) :
  alt_d s = Some (v, rest) -> 0 <= v <= 9.
Proof.
  unfold alt_d. destruct (code_point s) as [ [cp rest'] | ]; [ | discriminate ].
  destruct (decimal cp) as [ v' | ] eqn:Hv; [ | discriminate ].
  intros [= <- _]. exact (decimal_value cp v' Hv).
Qed.

(** Every value an alternative reads lies between [lo] and [hi]. *)
Definition reads_within (lo hi : Z) (alt : alternative) : Prop :=
  forall (s rest : string) (v : Z), alt s = Some (v, rest) -> lo <= v <= hi.

Lemma month_group_within : Forall (reads_within 1 12) month_group.
Proof.
  unfold month_group, reads_within.
  apply List.Forall_cons; [ | apply List.Forall_cons; [ | apply List.Forall_cons; [ | apply List.Forall_nil ] ] ];
    intros s rest v.
  - unfold alt2. destruct s as [ | a [ | b s ] ]; try discriminate.
    destruct (is_char "1" a) eqn:Ha; [ | discriminate ].
    destruct (between "0" "2" b) eqn:Hb; [ | discriminate ].
    intros [= <- _]. apply is_char_code in Ha. apply between_code in Hb.
    unfold digit. change (code "1") with 49 in Ha.
    change (code "0") with 48 in Hb. change (code "2") with 50 in Hb. lia.
  - unfold alt2. destruct s as [ | a [ | b s ] ]; try discriminate.
    destruct (is_char "0" a) eqn:Ha; [ | discriminate ].
    destruct (between "1" "9" b) eqn:Hb; [ | discriminate ].
    intros [= <- _]. apply is_char_code in Ha. apply between_code in Hb.
    unfold digit. change (code "0") with 48 in Ha.
    change (code "1") with 49 in Hb. change (code "9") with 57 in Hb. lia.
  - unfold alt1. destruct s as [ | a s ]; try discriminate.
    destruct (between "1" "9" a) eqn:Ha; [ | discriminate ].
    intros [= <- _]. apply between_code in Ha.
    unfold digit. change (code "1") with 49 in Ha.
    change (code "9") with 57 in Ha. lia.
Qed.

Lemma day_group_within : Forall (reads_within 1 31) day_group.
Proof.
  unfold day_group, reads_within.
  apply List.Forall_cons; [ | apply List.Forall_cons; [ | apply List.Forall_cons; [ | apply List.Forall_cons;
    [ | apply List.Forall_cons; [ | apply List.Forall_nil ] ] ] ] ]; intros s rest v.
  - unfold alt2. destruct s as [ | a [ | b s ] ]; try discriminate.
    destruct (is_char "3" a) eqn:Ha; [ | discriminate ].
    destruct (between "0" "1" b) eqn:Hb; [ | discriminate ].
    intros [= <- _]. apply is_char_code in Ha. apply between_code in Hb.
    unfold digit. change (code "3") with 51 in Ha.
    change (code "0") with 48 in Hb. change (code "1") with 49 in Hb. lia.
  - unfold alt1_d. destruct s as [ | a s ]; try discriminate.
    destruct (between "1" "2" a) eqn:Ha; [ | discriminate ].
    destruct (alt_d s) as [ [b s'] | ] eqn:Hb; [ | discriminate ].
    intros [= <- _]. apply between_code in Ha. apply alt_d_value in Hb.
    unfold digit. change (code "1") with 49 in Ha.
    change (code "2") with 50 in Ha. lia.
  - unfold alt2. destruct s as [ | a [ | b s ] ]; try discriminate.
    destruct (is_char "0" a) eqn:Ha; [ | discriminate ].
    destruct (between "1" "9" b) eqn:Hb; [ | discriminate ].
    intros [= <- _]. apply is_char_code in Ha. apply between_code in Hb.
    unfold digit. change (code "0") with 48 in Ha.
    change (code "1") with 49 in Hb. change (code "9") with 57 in Hb. lia.
  - unfold alt1. destruct s as [ | a s ]; try discriminate.
    destruct (between "1" "9" a) eqn:Ha; [ | discriminate ].
    intros [= <- _]. apply between_code in Ha.
    unfold digit. change (code "1") with 49 in Ha.
    change (code "9") with 57 in Ha. lia.
  - unfold alt_blank. destruct s as [ | a [ | b s ] ]; try discriminate.
    destruct (is_char " " a); [ | discriminate ].
    destruct (between "1" "9" b) eqn:Hb; [ | discriminate ].
    intros [= <- _]. apply between_code in Hb.
    unfold digit. change (code "1") with 49 in Hb.
    change (code "9") with 57 in Hb. lia.
Qed.

Lemma group_within {A : Type} (lo hi : Z) (alts : list alternative)
    (k : Z -> string -> option A) (s : string) (r : A) :
  Forall (reads_within lo hi) alts ->
  group alts k s = Some r ->
  exists (v : Z) (rest : string), lo <= v <= hi /\ k v rest = Some r.
Proof.
  induction 1 as [ | alt alts Halt _ IH ]; simpl; [ discriminate | ].
  destruct (alt s) as [ [v rest] | ] eqn:Hs; [ | exact IH ].
  destruct (k v rest) as [ r' | ] eqn:Hk; [ | exact IH ].
  intros [= <-]. exists v, rest. split; [ | exact Hk ].
  apply (Halt s rest v Hs).
Qed.

(** What the regular expression reads: a year of four digits, a month
    from 1 to 12 and a day from 1 to 31. *)
Lemma regex_Ymd_within (s rest : string) (y m d : Z) :
  regex_Ymd s = Some (y, m, d, rest) ->
  0 <= y <= 9999 /\ 1 <= m <= 12 /\ 1 <= d <= 31.
Proof.
  unfold regex_Ymd, year_group.
  destruct (alt_d s) as [ [a s1] | ] eqn:Ha; [ | discriminate ].
  destruct (alt_d s1) as [ [b s2] | ] eqn:Hb; [ | discriminate ].
  destruct (alt_d s2) as [ [c s3] | ] eqn:Hc; [ | discriminate ].
  destruct (alt_d s3) as [ [e s4] | ] eqn:He; [ | discriminate ].
  unfold dash at 1. destruct s4 as [ | x s4 ]; [ discriminate | ].
  destruct (is_char "-" x); [ | discriminate ].
  intros Hm. apply (group_within 1 12 _ _ _ _ month_group_within) in Hm.
  destruct Hm as (m' & rest1 & Hm' & Hm).
  unfold dash in Hm. destruct rest1 as [ | x1 rest1 ]; [ discriminate | ].
  destruct (is_char "-" x1); [ | discriminate ].
  apply (group_within 1 31 _ _ _ _ day_group_within) in Hm.
  destruct Hm as (d' & rest2 & Hd' & [= <- <- <- <-]).
  apply alt_d_value in Ha, Hb, Hc, He. lia.
Qed.

(** A parsed string is the midnight of a date of the calendar. *)
Lemma strptime_ymd (s : string) (t : datetime) :
  strptime (Some s) = Ok t ->
  exists y m d : Z,
    1 <= y <= 9999 /\ 1 <= m <= 12 /\ 1 <= d <= days_in_month y m
    /\ t = of_ymd y m d.
Proof.
  unfold strptime.
  destruct (regex_Ymd s) as [ [[[y m] d] rest] | ] eqn:Hre; [ | discriminate ].
  destruct rest; [ | discriminate ].
  destruct (Z.ltb_spec y 1) as [ | Hy ]; simpl; [ discriminate | ].
  destruct (Z.ltb_spec (days_in_month y m) d) as [ | Hd ]; simpl;
    [ discriminate | ].
  intros [= <-]. apply regex_Ymd_within in Hre.
  exists y, m, d. repeat split; lia.
Qed.

Lemma days_before_month_bounds (y m : Z) :
  1 <= m <= 12 ->
  0 <= days_before_month y m
  /\ days_before_month y m + days_in_month y m
     <= (if is_leap y then 366 else 365).
Proof.
  intros Hm.
  assert (Hcases : m = 1 \/ m = 2 \/ m = 3 \/ m = 4 \/ m = 5 \/ m = 6 \/ m = 7
                   \/ m = 8 \/ m = 9 \/ m = 10 \/ m = 11 \/ m = 12) by lia.
  unfold days_before_month.
  repeat (destruct Hcases as [ -> | Hcases ]; [ simpl; destruct (is_leap y); lia | ]).
  subst m. simpl. destruct (is_leap y); lia.
Qed.

Lemma of_ymd_bounds (y m d : Z) :
  1 <= y <= 9999 -> 1 <= m <= 12 -> 1 <= d <= days_in_month y m ->
  0 <= of_ymd y m d <= of_ymd 9999 12 31
  /\ of_ymd y m d mod us_per_day = 0.
Proof.
  intros Hy Hm Hd.
  destruct (days_before_month_bounds y m Hm) as [H0 H1].
  split; [ | apply Z_mod_mult ].
  assert (Hord : 1 <= ymd2ord y m d <= 3652059).
  { unfold ymd2ord, days_before_year.
    destruct (Z.eq_dec y 9999) as [ -> | Hne ].
    - change (is_leap 9999) with false in H1. cbv iota in H1.
      change ((9999 - 1) * 365 + (9999 - 1) / 4 - (9999 - 1) / 100
              + (9999 - 1) / 400) with 3651694.
      lia.
    - assert (days_before_month y m + d <= 366)
        by (destruct (is_leap y); lia).
      Z.div_mod_to_equations. lia. }
  change (of_ymd 9999 12 31) with ((3652059 - 1) * us_per_day).
  unfold of_ymd, us_per_day. lia.
Qed.

End DatetimeFacts.

(** ** Rounding to 53 bits

    What [binary_round_aux] does to a mantissa of 53 bits or more in
    the normal range, and from it the order between the rounded
    percentage of the time check and 100. *)

Module F64Rounding.
Import F64.

Lemma digits2_pos_size (m : positive) : digits2_pos m = Pos.size m.
Proof. induction m as [m IH | m IH | ]; simpl; congruence. Qed.

Lemma digits2_pos_log2 (m : positive) :
  Z.pos (digits2_pos m) = Z.log2 (Z.pos m) + 1.
Proof.
  destruct m as [m | m | ]; simpl; rewrite ?digits2_pos_size; lia.
Qed.

(** [r] holds [N] shifted right by [k] bits, and its two flags are
    clear exactly when no bit was lost. *)
Definition shifted (N : Z) (r : shr_record) (k : Z) : Prop :=
  shr_m r = N / 2 ^ k
  /\ (shr_r r || shr_s r = false <-> N mod 2 ^ k = 0).

Lemma shr_1_shifted (N : Z) (r : shr_record) (k : Z) :
  0 <= N -> 0 <= k -> shifted N r k -> shifted N (shr_1 r) (k + 1).
Proof.
  intros HN Hk [Hm Hflags].
  assert (Hpow : 0 < 2 ^ k) by (apply Z.pow_pos_nonneg; lia).
  assert (Hm0 : 0 <= shr_m r) by (rewrite Hm; apply Z.div_pos; lia).
  assert (H1 : shr_m (shr_1 r) = shr_m r / 2
               /\ shr_r (shr_1 r) = Z.odd (shr_m r)
               /\ shr_s (shr_1 r) = shr_r r || shr_s r).
  { split.
    - rewrite shr_1_m by exact Hm0. rewrite Z.shiftr_div_pow2 by lia.
      reflexivity.
    - destruct r as [m rr ss]. simpl in Hm0.
      destruct m as [ | [p | p | ] | p ]; try lia; split; reflexivity. }
  destruct H1 as (H1 & H2 & H3).
  unfold shifted. rewrite Z.pow_add_r, Z.pow_1_r by lia.
  split.
  - rewrite H1, Hm, Z.div_div by lia. reflexivity.
  - rewrite H2, H3, Z.rem_mul_r by lia.
    pose proof (Z.mod_pos_bound N (2 ^ k) Hpow) as Hb.
    rewrite <- Hm, <- Z.bit0_mod, Z.bit0_odd.
    destruct (Z.odd (shr_m r)); simpl Z.b2z; simpl orb.
    + split; [ discriminate | lia ].
    + rewrite Hflags. lia.
Qed.

Lemma iter_shr_1_shifted (N : Z) (p : positive) (r : shr_record) (k : Z) :
  0 <= N -> 0 <= k -> shifted N r k ->
  shifted N (SpecFloat.iter_pos shr_1 p r) (k + Z.pos p).
Proof.
  intros HN. revert r k.
  induction p as [p IH | p IH | ]; intros r k Hk Hr; simpl SpecFloat.iter_pos.
  - replace (k + Z.pos p~1) with (k + 1 + Z.pos p + Z.pos p) by lia.
    apply IH; [ lia | ]. apply IH; [ lia | ].
    apply shr_1_shifted; assumption.
  - replace (k + Z.pos p~0) with (k + Z.pos p + Z.pos p) by lia.
    apply IH; [ lia | ]. apply IH; assumption.
  - apply shr_1_shifted; assumption.
Qed.

(** The number of bits that rounding to 53 bits drops from [m]. *)
Definition excess (m : Z) : Z := Z.log2 m - 52.

Lemma shr_fexp_normal (m : positive) (e : Z) :
  0 <= excess (Z.pos m) -> -1074 <= e + excess (Z.pos m) ->
  snd (shr_fexp prec emax (Z.pos m) e loc_Exact) = e + excess (Z.pos m)
  /\ shifted (Z.pos m) (fst (shr_fexp prec emax (Z.pos m) e loc_Exact))
             (excess (Z.pos m)).
Proof.
  unfold excess. intros Hn He. unfold shr_fexp. simpl Zdigits2.
  rewrite digits2_pos_log2.
  replace (fexp prec emax (Z.log2 (Z.pos m) + 1 + e) - e)
    with (Z.log2 (Z.pos m) - 52)
    by (unfold fexp, SpecFloat.emin, prec, emax; lia).
  assert (H0 : shifted (Z.pos m) (shr_record_of_loc (Z.pos m) loc_Exact) 0).
  { split; simpl.
    - rewrite Z.div_1_r. reflexivity.
    - rewrite Z.mod_1_r. tauto. }
  unfold shr. destruct (Z.log2 (Z.pos m) - 52) as [ | p | p ] eqn:Hp.
  - simpl fst. simpl snd. split; [ lia | exact H0 ].
  - simpl fst. simpl snd. split; [ lia | ].
    apply (iter_shr_1_shifted (Z.pos m) p _ 0); [ lia | lia | exact H0 ].
  - lia.
Qed.

Lemma round_nearest_even_cases (r : shr_record) :
  round_nearest_even (shr_m r) (loc_of_shr_record r) = shr_m r
  \/ (round_nearest_even (shr_m r) (loc_of_shr_record r) = shr_m r + 1
      /\ shr_r r || shr_s r = true).
Proof.
  destruct r as [m [ | ] [ | ] ]; simpl; try (left; reflexivity);
    try (right; split; reflexivity).
  destruct (Z.even m); [ left | right ]; auto.
Qed.

Lemma log2_excess (m : Z) :
  0 < m -> 0 <= excess m ->
  2 ^ 52 * 2 ^ excess m <= m < 2 ^ 53 * 2 ^ excess m.
Proof.
  unfold excess. intros Hm Hn.
  pose proof (Z.log2_spec m Hm) as Hs.
  rewrite <- !Z.pow_add_r by lia.
  replace (52 + (Z.log2 m - 52)) with (Z.log2 m) by lia.
  replace (53 + (Z.log2 m - 52)) with (Z.succ (Z.log2 m)) by lia.
  exact Hs.
Qed.

(** Rounding a mantissa of 53 bits or more, in the normal range: the
    mantissa is cut to 53 bits and at most one is added; when that makes
    54 bits the exponent goes up by one. *)
Lemma binary_round_aux_normal (sx : bool) (m : positive) (e : Z) :
  let n := excess (Z.pos m) in
  0 <= n -> -1074 <= e + n -> e + n < 971 ->
  exists (m' : positive) (e' : Z),
    binary_round_aux prec emax sx (Z.pos m) e loc_Exact = S754_finite sx m' e'
    /\ 2 ^ 52 <= Z.pos m' < 2 ^ 53
    /\ ((e' = e + n /\ Z.pos m' = Z.pos m / 2 ^ n)
        \/ (e' = e + n /\ Z.pos m' = Z.pos m / 2 ^ n + 1
            /\ Z.pos m mod 2 ^ n <> 0)
        \/ (e' = e + n + 1 /\ Z.pos m' = 2 ^ 52
            /\ Z.pos m / 2 ^ n + 1 = 2 ^ 53 /\ Z.pos m mod 2 ^ n <> 0)).
Proof.
  intros n Hn Hlo Hhi. unfold binary_round_aux.
  destruct (shr_fexp_normal m e Hn Hlo) as [He1 [Hm1 Hf1] ].
  destruct (shr_fexp prec emax (Z.pos m) e loc_Exact) as [r1 e1].
  simpl fst in *. simpl snd in *. fold n in He1, Hm1, Hf1.
  pose proof (log2_excess (Z.pos m) ltac:(lia) Hn) as Hlog. fold n in Hlog.
  assert (Hpow : 0 < 2 ^ n) by (apply Z.pow_pos_nonneg; lia).
  assert (Hmm : 2 ^ 52 <= Z.pos m / 2 ^ n < 2 ^ 53).
  { split.
    - apply Z.div_le_lower_bound; lia.
    - apply Z.div_lt_upper_bound; lia. }
  set (mm := Z.pos m / 2 ^ n) in *.
  set (m1 := round_nearest_even (shr_m r1) (loc_of_shr_record r1)).
  assert (Hm1' : m1 = mm \/ (m1 = mm + 1 /\ Z.pos m mod 2 ^ n <> 0)).
  { unfold m1. destruct (round_nearest_even_cases r1) as [ -> | [-> Hinex] ].
    - left. exact Hm1.
    - right. split; [ lia | ]. intros H0. apply Hf1 in H0. congruence. }
  clearbody m1.
  assert (Hpos : 2 ^ 52 <= m1 <= 2 ^ 53) by lia.
  destruct m1 as [ | p1 | p1 ]; try lia.
  assert (Hex : (excess (Z.pos p1) = 0 /\ Z.pos p1 < 2 ^ 53)
                \/ (excess (Z.pos p1) = 1 /\ Z.pos p1 = 2 ^ 53)).
  { unfold excess. destruct (Z.eq_dec (Z.pos p1) (2 ^ 53)) as [ Heq | Hne ].
    - right. rewrite Heq. split; reflexivity.
    - left. rewrite (Z.log2_unique (Z.pos p1) 52); lia. }
  destruct (shr_fexp_normal p1 e1) as [He2 [Hm2 _] ]; [ lia | lia | ].
  destruct (shr_fexp prec emax (Z.pos p1) e1 loc_Exact) as [r2 e2].
  simpl fst in *. simpl snd in *.
  destruct Hex as [ [Hex Hlt] | [Hex Hcarry] ]; rewrite Hex in *.
  - rewrite Z.pow_0_r, Z.div_1_r in Hm2. rewrite Hm2.
    replace (e2 <=? emax - prec) with true
      by (symmetry; apply Z.leb_le; unfold emax, prec; lia).
    exists p1, e2. split; [ reflexivity | ]. split; [ lia | ].
    destruct Hm1' as [ H | [H Hne] ]; [ left | right; left ]; repeat split;
      try lia; assumption.
  - rewrite Hcarry in Hm2. change (2 ^ 53 / 2 ^ 1) with (Z.pos (2 ^ 52)) in Hm2.
    rewrite Hm2.
    replace (e2 <=? emax - prec) with true
      by (symmetry; apply Z.leb_le; unfold emax, prec; lia).
    exists (2 ^ 52)%positive, e2. split; [ reflexivity | ].
    split; [ lia | ]. right; right.
    destruct Hm1' as [ H | [H Hne] ]; [ lia | ].
    repeat split; try lia; assumption.
Qed.

(** The order of two positive doubles with 53-bit mantissas. *)
Definition below (m1 e1 m2 e2 : Z) : Prop := e1 < e2 \/ (e1 = e2 /\ m1 <= m2).

(** Rounding does not cross a double: a number at most the double
    [mF * 2 ^ eF] rounds to at most that double. *)
Lemma round_below (sx : bool) (m : positive) (e mF eF : Z) :
  let n := excess (Z.pos m) in
  0 <= n -> -1074 <= e + n -> e + n < 971 ->
  2 ^ 52 <= mF < 2 ^ 53 -> e <= eF -> Z.pos m <= mF * 2 ^ (eF - e) ->
  exists (m' : positive) (e' : Z),
    binary_round_aux prec emax sx (Z.pos m) e loc_Exact = S754_finite sx m' e'
    /\ 2 ^ 52 <= Z.pos m' < 2 ^ 53 /\ e + n <= e' <= e + n + 1
    /\ below (Z.pos m') e' mF eF.
Proof.
  intros n Hn Hlo Hhi HmF He Hle.
  destruct (binary_round_aux_normal sx m e Hn Hlo Hhi)
    as (m' & e' & Hround & Hm' & Hcases).
  fold n in Hcases.
  exists m', e'. split; [ exact Hround | ]. split; [ exact Hm' | ].
  split; [ lia | ].
  pose proof (log2_excess (Z.pos m) ltac:(lia) Hn) as Hlog. fold n in Hlog.
  assert (Hpow : 0 < 2 ^ n) by (apply Z.pow_pos_nonneg; lia).
  pose proof (Z.div_mod (Z.pos m) (2 ^ n) ltac:(lia)) as Hdiv.
  pose proof (Z.mod_pos_bound (Z.pos m) (2 ^ n) Hpow) as Hmod.
  set (mm := Z.pos m / 2 ^ n) in *. set (rest := Z.pos m mod 2 ^ n) in *.
  assert (HeF : e + n <= eF).
  { destruct (Z.le_gt_cases (e + n) eF) as [ H | H ]; [ exact H | exfalso ].
    assert (H1 : 2 ^ (eF - e) * 2 <= 2 ^ n).
    { replace n with (eF - e + (n - (eF - e))) at 1 by lia.
      rewrite Z.pow_add_r by lia.
      assert (2 ^ 1 <= 2 ^ (n - (eF - e))) by (apply Z.pow_le_mono_r; lia).
      assert (0 < 2 ^ (eF - e)) by (apply Z.pow_pos_nonneg; lia).
      nia. }
    nia. }
  unfold below.
  destruct (Z.eq_dec (e + n) eF) as [ Heq | Hne ].
  - replace (eF - e) with n in Hle by lia.
    assert (Hexact : rest <> 0 -> mm + 1 <= mF) by (intros H; nia).
    destruct Hcases as [ [-> ->] | [ (-> & -> & Hr) | (-> & -> & Hc & Hr) ] ].
    + right. split; [ lia | nia ].
    + right. split; [ lia | auto ].
    + specialize (Hexact Hr). lia.
  - destruct Hcases as [ [-> ->] | [ (-> & -> & Hr) | (-> & -> & Hc & Hr) ] ].
    + left. lia.
    + left. lia.
    + destruct (Z.eq_dec (e + n + 1) eF) as [ Heq | Hne' ].
      * right. split; [ exact Heq | lia ].
      * left. lia.
Qed.

(** A number at least the double [mF * 2 ^ eF] rounds to at least
    that double. *)
Lemma round_above (sx : bool) (m : positive) (e mF eF : Z) :
  let n := excess (Z.pos m) in
  0 <= n -> -1074 <= e + n -> e + n < 971 ->
  2 ^ 52 <= mF < 2 ^ 53 -> (e <= eF -> mF * 2 ^ (eF - e) <= Z.pos m) ->
  exists (m' : positive) (e' : Z),
    binary_round_aux prec emax sx (Z.pos m) e loc_Exact = S754_finite sx m' e'
    /\ 2 ^ 52 <= Z.pos m' < 2 ^ 53 /\ e + n <= e' <= e + n + 1
    /\ below mF eF (Z.pos m') e'.
Proof.
  intros n Hn Hlo Hhi HmF Hle.
  destruct (binary_round_aux_normal sx m e Hn Hlo Hhi)
    as (m' & e' & Hround & Hm' & Hcases).
  fold n in Hcases.
  exists m', e'. split; [ exact Hround | ]. split; [ exact Hm' | ].
  split; [ lia | ].
  pose proof (log2_excess (Z.pos m) ltac:(lia) Hn) as Hlog. fold n in Hlog.
  assert (Hpow : 0 < 2 ^ n) by (apply Z.pow_pos_nonneg; lia).
  pose proof (Z.div_mod (Z.pos m) (2 ^ n) ltac:(lia)) as Hdiv.
  pose proof (Z.mod_pos_bound (Z.pos m) (2 ^ n) Hpow) as Hmod.
  set (mm := Z.pos m / 2 ^ n) in *. set (rest := Z.pos m mod 2 ^ n) in *.
  unfold below.
  destruct (Z.lt_ge_cases eF (e + n)) as [ Hlt | Hge ]; [ left; lia | ].
  specialize (Hle ltac:(lia)).
  assert (HeF : eF = e + n).
  { destruct (Z.eq_dec eF (e + n)) as [ H | H ]; [ exact H | exfalso ].
    assert (H1 : 2 ^ n * 2 <= 2 ^ (eF - e)).
    { replace (eF - e) with (n + (eF - e - n)) by lia.
      rewrite Z.pow_add_r by lia.
      assert (2 ^ 1 <= 2 ^ (eF - e - n)) by (apply Z.pow_le_mono_r; lia).
      nia. }
    nia. }
  replace (eF - e) with n in Hle by lia.
  assert (Hmm : mF <= mm) by nia.
  destruct Hcases as [ [-> ->] | [ (-> & -> & Hr) | (-> & -> & Hc & Hr) ] ].
  - right. split; [ lia | lia ].
  - right. split; [ lia | lia ].
  - left. lia.
Qed.

(** The mantissa that [int_truediv] hands to the rounding, for a
    dividend [A] that is not zero. *)
Lemma truediv_mantissa (A b : Z) :
  0 < A <= 2 ^ 62 -> 0 < b <= 2 ^ 52 ->
  let s := Z.log2 b + 64 in
  let m := 2 * (Z.shiftl A s / b)
           + (if Z.shiftl A s mod b =? 0 then 0 else 1) in
  2 ^ 64 <= m < 2 ^ 128
  /\ (A <= b -> m <= 2 ^ 52 * 2 ^ (s - 51))
  /\ (b < A -> (2 ^ 52 + 1) * 2 ^ (s - 51) <= m).
Proof.
  intros HA Hb s m.
  assert (HL : 0 <= Z.log2 b) by apply Z.log2_nonneg.
  pose proof (Z.log2_spec b ltac:(lia)) as Hspec.
  rewrite Z.pow_succ_r in Hspec by exact HL.
  assert (HP : 0 < 2 ^ Z.log2 b) by (apply Z.pow_pos_nonneg; lia).
  assert (Hs : 2 ^ (s - 51) = 2 ^ Z.log2 b * 2 ^ 13).
  { unfold s. replace (Z.log2 b + 64 - 51) with (Z.log2 b + 13) by lia.
    apply Z.pow_add_r; lia. }
  assert (HN : Z.shiftl A s = A * (2 ^ Z.log2 b * 2 ^ 64)).
  { unfold s. rewrite Z.shiftl_mul_pow2 by lia.
    rewrite Z.pow_add_r by lia. reflexivity. }
  unfold m. rewrite Hs, HN. clear m Hs HN. clearbody s.
  set (P := 2 ^ Z.log2 b) in *. clearbody P.
  pose proof (Z.div_mod (A * (P * 2 ^ 64)) b ltac:(lia)) as Hdiv.
  pose proof (Z.mod_pos_bound (A * (P * 2 ^ 64)) b ltac:(lia)) as Hmod.
  set (q := A * (P * 2 ^ 64) / b) in *.
  set (r := A * (P * 2 ^ 64) mod b) in *. clearbody q r.
  assert (Ht : exists t, (if r =? 0 then 0 else 1) = t
                         /\ 0 <= t <= 1 /\ (r = 0 -> t = 0)).
  { destruct (Z.eqb_spec r 0); eexists; split; try reflexivity; lia. }
  destruct Ht as (t & -> & Ht & Hr).
  change (2 ^ 64) with 18446744073709551616 in *.
  change (2 ^ 62) with 4611686018427387904 in *.
  change (2 ^ 52) with 4503599627370496 in *.
  change (2 ^ 13) with 8192 in *.
  change (2 ^ 128) with 340282366920938463463374607431768211456.
  split; [ split | split ].
  - assert (9223372036854775808 <= q); [ | lia ].
    destruct (Z.le_gt_cases 9223372036854775808 q) as [ H | H ];
      [ exact H | exfalso ].
    assert (b * (q + 1) <= b * 9223372036854775808)
      by (apply Z.mul_le_mono_nonneg_l; lia).
    assert (P * 18446744073709551616 <= A * (P * 18446744073709551616)) by nia.
    lia.
  - assert (q <= 85070591730234615865843651857942052864); [ | lia ].
    destruct (Z.le_gt_cases q 85070591730234615865843651857942052864)
      as [ H | H ]; [ exact H | exfalso ].
    assert (b * 85070591730234615865843651857942052865 <= b * q)
      by (apply Z.mul_le_mono_nonneg_l; lia).
    assert (A * (P * 18446744073709551616)
            <= 4611686018427387904 * (P * 18446744073709551616))
      by (apply Z.mul_le_mono_nonneg_r; lia).
    nia.
  - intros Hle.
    assert (Hq : q <= P * 18446744073709551616).
    { destruct (Z.le_gt_cases q (P * 18446744073709551616)) as [ H | H ];
        [ exact H | exfalso ].
      assert (b * (P * 18446744073709551616 + 1) <= b * q)
        by (apply Z.mul_le_mono_nonneg_l; lia).
      assert (A * (P * 18446744073709551616) <= b * (P * 18446744073709551616))
        by (apply Z.mul_le_mono_nonneg_r; lia).
      lia. }
    destruct (Z.eq_dec q (P * 18446744073709551616)) as [ Heq | Hne ];
      [ | lia ].
    assert (A * (P * 18446744073709551616) <= b * (P * 18446744073709551616))
      by (apply Z.mul_le_mono_nonneg_r; lia).
    assert (r = 0) by (subst q; lia).
    specialize (Hr ltac:(assumption)). lia.
  - intros Hlt.
    assert (Hq : P * 18446744073709551616 + P * 4096 <= q); [ | lia ].
    destruct (Z.le_gt_cases (P * 18446744073709551616 + P * 4096) q)
      as [ H | H ]; [ exact H | exfalso ].
    assert (b * (q + 1) <= b * (P * 18446744073709551616 + P * 4096))
      by (apply Z.mul_le_mono_nonneg_l; lia).
    assert ((b + 1) * (P * 18446744073709551616)
            <= A * (P * 18446744073709551616))
      by (apply Z.mul_le_mono_nonneg_r; lia).
    assert (b * (P * 4096) <= 4503599627370496 * (P * 4096))
      by (apply Z.mul_le_mono_nonneg_r; lia).
    lia.
Qed.

Lemma binary_round_long (sx : bool) (m : positive) (e : Z) :
  0 <= excess (Z.pos m) ->
  binary_round prec emax sx m e
  = binary_round_aux prec emax sx (Z.pos m) e loc_Exact.
Proof.
  unfold excess. intros Hn. unfold binary_round, shl_align.
  rewrite digits2_pos_log2.
  destruct (fexp prec emax (Z.log2 (Z.pos m) + 1 + e) - e) as [ | d | d ] eqn:Hd;
    try reflexivity.
  unfold fexp, prec in Hd. lia.
Qed.

Lemma excess_bounds (m lo hi : Z) :
  0 <= lo -> 2 ^ lo <= m < 2 ^ hi -> lo - 52 <= excess m <= hi - 53.
Proof.
  intros Hlo [H1 H2]. unfold excess.
  assert (Hm : 0 < m) by (pose proof (Z.pow_pos_nonneg 2 lo); lia).
  pose proof (Z.log2_le_mono _ _ H1) as H3. rewrite Z.log2_pow2 in H3 by lia.
  apply Z.log2_lt_pow2 in H2; lia.
Qed.

(** The quotient of two [int]s as a double, for a dividend that is not
    zero: a normal number with the sign of the dividend, not above 1
    when the dividend is not above the divisor, and at least the double
    after 1 when it is. *)
Lemma int_truediv_normal (a b : Z) :
  a <> 0 -> Z.abs a <= 2 ^ 62 -> 0 < b <= 2 ^ 52 ->
  exists (m : positive) (e : Z),
    int_truediv a b = S754_finite (a <? 0) m e
    /\ 2 ^ 52 <= Z.pos m < 2 ^ 53 /\ -105 <= e <= 11
    /\ (Z.abs a <= b -> below (Z.pos m) e (2 ^ 52) (-52))
    /\ (b < Z.abs a -> below (2 ^ 52 + 1) (-52) (Z.pos m) e).
Proof.
  intros Ha Habs Hb. unfold int_truediv.
  destruct (truediv_mantissa (Z.abs a) b ltac:(lia) Hb) as (Hm & Hle & Hgt).
  assert (HL : 0 <= Z.log2 b) by apply Z.log2_nonneg.
  assert (HL' : Z.log2 b < 53)
    by (apply Z.log2_lt_pow2; [ lia | ];
        change (2 ^ 53) with (2 * 2 ^ 52); lia).
  set (s := Z.log2 b + 64) in *.
  set (M := 2 * (Z.shiftl (Z.abs a) s / b)
            + (if Z.shiftl (Z.abs a) s mod b =? 0 then 0 else 1)) in *.
  pose proof (excess_bounds M 64 128 ltac:(lia) Hm) as Hn.
  assert (HM : 0 < M) by (change (2 ^ 64) with 18446744073709551616 in Hm; lia).
  clearbody M. destruct M as [ | pm | pm ]; try lia.
  assert (Hround : binary_normalize prec emax
                     (if a <? 0 then - Z.pos pm else Z.pos pm) (- s - 1) false
                   = binary_round_aux prec emax (a <? 0) (Z.pos pm) (- s - 1)
                       loc_Exact).
  { destruct (a <? 0); simpl; apply binary_round_long; lia. }
  rewrite Hround.
  destruct (Z.le_gt_cases (Z.abs a) b) as [ Hcase | Hcase ].
  - destruct (round_below (a <? 0) pm (- s - 1) (2 ^ 52) (-52))
      as (m' & e' & H1 & H2 & H3 & H4); try lia.
    { replace (-52 - (- s - 1)) with (s - 51) by lia. auto. }
    exists m', e'. split; [ exact H1 | ]. split; [ exact H2 | ].
    split; [ lia | ]. split; [ intros _; exact H4 | lia ].
  - destruct (round_above (a <? 0) pm (- s - 1) (2 ^ 52 + 1) (-52))
      as (m' & e' & H1 & H2 & H3 & H4); try lia.
    { intros _. replace (-52 - (- s - 1)) with (s - 51) by lia. auto. }
    exists m', e'. split; [ exact H1 | ]. split; [ exact H2 | ].
    split; [ lia | ]. split; [ lia | intros _; exact H4 ].
Qed.

(** The double 100 has the mantissa [100 * 2 ^ 46]. *)
Definition hundert : positive := 7036874417766400.

Lemma of_Z_100 : of_Z 100 = S754_finite false hundert (-46).
Proof. reflexivity. Qed.

Lemma mul_100_normal (sx : bool) (m : positive) (e : Z) :
  2 ^ 52 <= Z.pos m < 2 ^ 53 -> -105 <= e <= 11 ->
  mul (S754_finite sx m e) (of_Z 100)
  = binary_round_aux prec emax sx (Z.pos (m * hundert)) (e + -46) loc_Exact
    /\ 52 <= excess (Z.pos (m * hundert)) <= 53.
Proof.
  intros Hm He. rewrite of_Z_100. unfold mul, SFmul.
  rewrite xorb_false_r. split; [ reflexivity | ].
  pose proof (excess_bounds (Z.pos (m * hundert)) 104 106 ltac:(lia)) as H.
  rewrite Pos2Z.inj_mul in *. unfold hundert in *.
  change (2 ^ 52) with 4503599627370496 in *.
  change (2 ^ 53) with 9007199254740992 in *.
  change (2 ^ 104) with 20282409603651670423947251286016 in *.
  change (2 ^ 106) with 81129638414606681695789005144064 in *.
  apply H. nia.
Qed.

(** When the clock time [a] has run since the start of a time span of
    length [b] (both in microseconds), the percentage [a / b * 100] that
    the code computes in floating point is above 100 exactly when [a] is
    longer than [b]. *)
Lemma percent_above_100 (a b : Z) :
  Z.abs a <= 2 ^ 62 -> 0 < b <= 2 ^ 52 ->
  ltb (of_Z 100) (mul (int_truediv a b) (of_Z 100)) = (b <? a).
Proof.
  intros Habs Hb.
  destruct (Z.eq_dec a 0) as [ -> | Ha ].
  { unfold int_truediv. simpl Z.abs. rewrite Z.shiftl_0_l.
    rewrite Z.div_0_l, Z.mod_0_l by lia. simpl.
    symmetry. apply Z.ltb_ge. lia. }
  destruct (int_truediv_normal a b Ha Habs Hb)
    as (m & e & Hq & Hm & He & Hle & Hgt).
  rewrite Hq.
  destruct (mul_100_normal (a <? 0) m e Hm He) as [Hmul Hn]. rewrite Hmul.
  destruct (Z.ltb_spec a 0) as [ Hneg | Hpos ].
  - destruct (binary_round_aux_normal true (m * hundert) (e + -46))
      as (m' & e' & -> & _); try lia.
    rewrite of_Z_100. simpl. symmetry. apply Z.ltb_ge. lia.
  - rewrite Z.abs_eq in Hle, Hgt by lia. rewrite of_Z_100.
    unfold ltb, SFltb, SFcompare.
    destruct (Z.ltb_spec b a) as [ Hlt | Hge ].
    + specialize (Hgt Hlt).
      destruct (round_above false (m * hundert) (e + -46)
                  (Z.pos hundert + 1) (-46))
        as (m' & e' & -> & Hm' & He' & Hord); try lia.
      { unfold hundert. change (2 ^ 52) with 4503599627370496.
        change (2 ^ 53) with 9007199254740992. lia. }
      { intros Hexp. replace (-46 - (e + -46)) with (- e) by lia.
        rewrite Pos2Z.inj_mul. unfold hundert.
        change (2 ^ 52) with 4503599627370496 in *.
        change (2 ^ 53) with 9007199254740992 in *.
        destruct Hgt as [ Hex | [Hex Hman] ].
        - assert (2 ^ (- e) <= 2 ^ 51) by (apply Z.pow_le_mono_r; lia).
          change (2 ^ 51) with 2251799813685248 in *. nia.
        - rewrite <- Hex. change (2 ^ (- -52)) with 4503599627370496. nia. }
      destruct Hord as [ Hex | [Hex Hman] ].
      * rewrite (proj2 (Z.compare_lt_iff _ _) Hex). reflexivity.
      * rewrite <- Hex, Z.compare_refl, Pos.compare_cont_spec. simpl.
        rewrite (proj2 (Pos.compare_lt_iff _ _)); [ reflexivity | lia ].
    + specialize (Hle Hge).
      destruct (round_below false (m * hundert) (e + -46)
                  (Z.pos hundert) (-46))
        as (m' & e' & -> & Hm' & He' & Hord); try lia.
      { unfold hundert. change (2 ^ 52) with 4503599627370496.
        change (2 ^ 53) with 9007199254740992. lia. }
      { destruct Hle as [ Hex | [Hex Hman] ]; lia. }
      { replace (-46 - (e + -46)) with (- e) by lia.
        rewrite Pos2Z.inj_mul.
        assert (Z.pos m <= 2 ^ (- e)); [ | nia ].
        destruct Hle as [ Hex | [Hex Hman] ].
        - assert (2 ^ 53 <= 2 ^ (- e)) by (apply Z.pow_le_mono_r; lia). lia.
        - rewrite Hex. exact Hman. }
      destruct Hord as [ Hex | [Hex Hman] ].
      * rewrite (proj2 (Z.compare_gt_iff _ _) Hex). reflexivity.
      * rewrite Hex, Z.compare_refl, Pos.compare_cont_spec. simpl.
        destruct (Pos.compare_spec hundert m') as [ H | H | H ];
          try reflexivity. lia.
Qed.
End F64Rounding.

(** ** Rounding in every range

    [binary_round_aux] on any mantissa and location, down to the
    subnormal numbers and zero. *)

Module F64General.

Import F64 F64Rounding.

(** 0 for an exact location, 1 for the others. *)
Definition inexact (l : location) : Z :=
  match l with
  | loc_Exact => 0
  | loc_Inexact _ => 1
  end.

Lemma inexact_bounds (l : location) : 0 <= inexact l <= 1.
Proof. destruct l; simpl; lia. Qed.

(** The number of bits [binary_round_aux] drops from [m] at exponent [e]. *)
Definition drop (m e : Z) : Z := fexp prec emax (Zdigits2 m + e) - e.

Lemma shifted_of_loc (m : Z) (l : location) :
  shifted (2 * m + inexact l) (shr_record_of_loc m l) 1.
Proof.
  pose proof (inexact_bounds l) as Ht. split.
  - rewrite Z.pow_1_r.
    replace (shr_m (shr_record_of_loc m l)) with m
      by (destruct l as [ | [ | | ] ]; reflexivity).
    apply (Z.div_unique _ _ _ (inexact l)); lia.
  - rewrite Z.pow_1_r.
    replace ((2 * m + inexact l) mod 2) with (inexact l)
      by (apply (Z.mod_unique _ _ m); lia).
    destruct l as [ | [ | | ] ]; simpl; split; congruence.
Qed.

Lemma half_shift (m t n : Z) :
  0 <= t <= 1 -> 0 <= n ->
  (2 * m + t) / 2 ^ (1 + n) = m / 2 ^ n
  /\ ((2 * m + t) mod 2 ^ (1 + n) = 0 <-> t = 0 /\ m mod 2 ^ n = 0).
Proof.
  intros Ht Hn.
  assert (Hpow : 0 < 2 ^ n) by (apply Z.pow_pos_nonneg; lia).
  rewrite Z.pow_add_r, Z.pow_1_r by lia.
  assert (Hhalf : (2 * m + t) / 2 = m)
    by (symmetry; apply (Z.div_unique _ _ _ t); lia).
  assert (Hrest : (2 * m + t) mod 2 = t)
    by (symmetry; apply (Z.mod_unique _ _ m); lia).
  split.
  - rewrite <- Z.div_div, Hhalf by lia. reflexivity.
  - rewrite Z.rem_mul_r, Hhalf, Hrest by lia.
    pose proof (Z.mod_pos_bound m (2 ^ n) Hpow). lia.
Qed.

Lemma shr_fexp_general (m e : Z) (l : location) :
  0 <= m -> 0 <= drop m e ->
  snd (shr_fexp prec emax m e l) = e + drop m e
  /\ shr_m (fst (shr_fexp prec emax m e l)) = m / 2 ^ drop m e
  /\ (shr_r (fst (shr_fexp prec emax m e l))
      || shr_s (fst (shr_fexp prec emax m e l)) = false
      <-> inexact l = 0 /\ m mod 2 ^ drop m e = 0).
Proof.
  intros Hm Hn. unfold shr_fexp. fold (drop m e).
  pose proof (inexact_bounds l) as Ht.
  pose proof (shifted_of_loc m l) as H0.
  assert (Hshift : shifted (2 * m + inexact l)
                     (fst (shr (shr_record_of_loc m l) e (drop m e)))
                     (1 + drop m e)
                   /\ snd (shr (shr_record_of_loc m l) e (drop m e))
                      = e + drop m e).
  { unfold shr. destruct (drop m e) as [ | p | p ]; simpl fst; simpl snd.
    - split; [ exact H0 | lia ].
    - split; [ | reflexivity ].
      apply iter_shr_1_shifted; [ lia | lia | exact H0 ].
    - lia. }
  destruct Hshift as [ [H1 H2] H3 ].
  destruct (half_shift m (inexact l) (drop m e) Ht Hn) as [H4 H5].
  split; [ exact H3 | ]. split.
  - rewrite H1. exact H4.
  - rewrite H2. exact H5.
Qed.

(** What a rounded mantissa [m1] at exponent [e1] becomes. *)
Definition packed (sx : bool) (m1 e1 : Z) : float :=
  if m1 =? 0 then S754_zero sx
  else if m1 <? 2 ^ 53 then S754_finite sx (Z.to_pos m1) e1
       else S754_finite sx (2 ^ 52)%positive (e1 + 1).

Lemma drop_lower (m e : Z) : Z.log2 m - 52 <= drop m e \/ m <= 0.
Proof.
  destruct m as [ | p | p ]; [ right; lia | left | right; lia ].
  unfold drop, fexp, prec. simpl Zdigits2. rewrite digits2_pos_log2. lia.
Qed.

Lemma drop_exponent (m e : Z) :
  0 < m ->
  (e + drop m e = -1074 /\ Z.log2 m - 52 <= drop m e)
  \/ (-1074 < e + drop m e /\ drop m e = Z.log2 m - 52).
Proof.
  destruct m as [ | p | p ]; try lia. intros _.
  unfold drop, fexp, SpecFloat.emin, prec, emax. simpl Zdigits2.
  rewrite digits2_pos_log2. lia.
Qed.

Lemma div_pow2_upper (m n : Z) :
  0 <= m -> 0 <= n -> (Z.log2 m - 52 <= n \/ m <= 0) -> m / 2 ^ n < 2 ^ 53.
Proof.
  intros Hm Hn Hlog.
  assert (Hpow : 0 < 2 ^ n) by (apply Z.pow_pos_nonneg; lia).
  apply Z.div_lt_upper_bound; [ exact Hpow | ].
  destruct (Z.eq_dec m 0) as [ -> | Hne ].
  - pose proof (Z.pow_pos_nonneg 2 53). lia.
  - pose proof (Z.log2_spec m ltac:(lia)) as Hs.
    assert (2 ^ Z.succ (Z.log2 m) <= 2 ^ (n + 53))
      by (apply Z.pow_le_mono_r; lia).
    rewrite Z.pow_add_r in * by lia. lia.
Qed.

(** Beyond the greatest exponent a number becomes an infinity. *)
Definition clipped (x : float) : float :=
  match x with
  | S754_finite s m e => if e <=? emax - prec then x else S754_infinity s
  | _ => x
  end.

(** Rounding, in every range: at most 53 bits are kept and at most one
    is added. *)
Lemma binary_round_aux_clipped (sx : bool) (m e : Z) (l : location) :
  0 <= m -> 0 <= drop m e ->
  exists m1 : Z,
    (m1 = m / 2 ^ drop m e
     \/ (m1 = m / 2 ^ drop m e + 1
         /\ (inexact l <> 0 \/ m mod 2 ^ drop m e <> 0)))
    /\ binary_round_aux prec emax sx m e l
       = clipped (packed sx m1 (e + drop m e)).
Proof.
  intros Hm Hn. unfold binary_round_aux.
  destruct (shr_fexp_general m e l Hm Hn) as (He1 & Hm1 & Hf1).
  destruct (shr_fexp prec emax m e l) as [r1 e1].
  simpl fst in *. simpl snd in *. subst e1.
  set (n := drop m e) in *.
  assert (Hlow : -1074 <= e + n).
  { unfold n, drop, fexp, SpecFloat.emin, prec, emax. lia. }
  pose proof (div_pow2_upper m n Hm Hn (drop_lower m e)) as Hmm.
  assert (Hmm0 : 0 <= m / 2 ^ n)
    by (apply Z.div_pos; [ lia | apply Z.pow_pos_nonneg; lia ]).
  set (mm := m / 2 ^ n) in *.
  set (m1 := round_nearest_even (shr_m r1) (loc_of_shr_record r1)).
  assert (Hm1' : m1 = mm \/ (m1 = mm + 1
                             /\ (inexact l <> 0 \/ m mod 2 ^ n <> 0))).
  { unfold m1. destruct (round_nearest_even_cases r1) as [ -> | [-> Hinex] ].
    - left. exact Hm1.
    - right. split; [ lia | ].
      destruct (Z.eq_dec (inexact l) 0) as [ H0 | H0 ]; [ | left; exact H0 ].
      right. intros Hrest.
      assert (shr_r r1 || shr_s r1 = false) by (apply Hf1; split; assumption).
      congruence. }
  clearbody m1. exists m1. split; [ exact Hm1' | ].
  assert (Hrange : 0 <= m1 <= 2 ^ 53) by lia.
  unfold packed, shr_fexp.
  destruct m1 as [ | p1 | p1 ]; try lia.
  - simpl Zdigits2. unfold shr.
    destruct (fexp prec emax (0 + (e + n)) - (e + n)) as [ | p | p ] eqn:Hshift;
      try reflexivity.
    unfold fexp, SpecFloat.emin, prec, emax in Hshift. lia.
  - change (Z.pos p1 =? 0) with false. cbv iota.
    simpl Zdigits2. rewrite digits2_pos_log2.
    destruct (Z.ltb_spec (Z.pos p1) (2 ^ 53)) as [ Hlt | Hge ].
    + assert (Hlog : Z.log2 (Z.pos p1) < 53)
        by (apply Z.log2_lt_pow2; lia).
      unfold shr.
      destruct (fexp prec emax (Z.log2 (Z.pos p1) + 1 + (e + n)) - (e + n))
        as [ | p | p ] eqn:Hshift.
      * reflexivity.
      * unfold fexp, SpecFloat.emin, prec, emax in Hshift. lia.
      * reflexivity.
    + assert (Heq : Z.pos p1 = 2 ^ 53) by lia.
      rewrite Heq. change (Z.log2 (2 ^ 53)) with 53.
      replace (fexp prec emax (53 + 1 + (e + n)) - (e + n)) with 1
        by (unfold fexp, SpecFloat.emin, prec, emax; lia).
      reflexivity.
Qed.

(** Rounding, in every range below the overflow. *)
Lemma binary_round_aux_general (sx : bool) (m e : Z) (l : location) :
  0 <= m -> 0 <= drop m e -> e + drop m e < 971 ->
  exists m1 : Z,
    (m1 = m / 2 ^ drop m e
     \/ (m1 = m / 2 ^ drop m e + 1
         /\ (inexact l <> 0 \/ m mod 2 ^ drop m e <> 0)))
    /\ binary_round_aux prec emax sx m e l = packed sx m1 (e + drop m e).
Proof.
  intros Hm Hn Hhi.
  destruct (binary_round_aux_clipped sx m e l Hm Hn) as (m1 & Hm1 & ->).
  exists m1. split; [ exact Hm1 | ]. unfold packed, clipped.
  destruct (m1 =? 0); [ reflexivity | ].
  destruct (m1 <? 2 ^ 53).
  - replace (e + drop m e <=? emax - prec) with true
      by (symmetry; apply Z.leb_le; unfold emax, prec; lia).
    reflexivity.
  - replace (e + drop m e + 1 <=? emax - prec) with true
      by (symmetry; apply Z.leb_le; unfold emax, prec; lia).
    reflexivity.
Qed.

(** A number at most the normal double [mF * 2 ^ eF] rounds to zero or
    to a double that is at most that one. *)
Lemma round_below_general (sx : bool) (m e : Z) (l : location) (mF eF : Z) :
  0 <= m -> 0 <= drop m e -> e + drop m e < 971 ->
  2 ^ 52 <= mF < 2 ^ 53 -> -1074 <= eF -> e <= eF ->
  2 * m + inexact l <= 2 * mF * 2 ^ (eF - e) ->
  binary_round_aux prec emax sx m e l = S754_zero sx
  \/ exists (m' : positive) (e' : Z),
       binary_round_aux prec emax sx m e l = S754_finite sx m' e'
       /\ Z.pos m' < 2 ^ 53 /\ below (Z.pos m') e' mF eF.
Proof.
  intros Hm Hn Hhi HmF HeF He Hle.
  destruct (binary_round_aux_general sx m e l Hm Hn Hhi)
    as (m1 & Hm1 & ->).
  pose proof (inexact_bounds l) as Ht.
  set (n := drop m e) in *.
  assert (Hpow : 0 < 2 ^ n) by (apply Z.pow_pos_nonneg; lia).
  pose proof (Z.div_mod m (2 ^ n) ltac:(lia)) as Hdiv.
  pose proof (Z.mod_pos_bound m (2 ^ n) Hpow) as Hmod.
  pose proof (div_pow2_upper m n Hm Hn (drop_lower m e)) as Hmm.
  assert (Hmm0 : 0 <= m / 2 ^ n) by (apply Z.div_pos; lia).
  set (mm := m / 2 ^ n) in *. set (rest := m mod 2 ^ n) in *.
  assert (HeF' : e + n <= eF).
  { destruct (Z.eq_dec m 0) as [ H0 | H0 ].
    - unfold n, drop, fexp, SpecFloat.emin, prec, emax in *. rewrite H0 in *.
      simpl Zdigits2 in *. lia.
    - destruct (drop_exponent m e ltac:(lia)) as [ [H1 _] | [_ H1] ];
        fold n in H1; [ lia | ].
      destruct (Z.le_gt_cases (e + n) eF) as [ H | H ]; [ exact H | exfalso ].
      pose proof (Z.log2_spec m ltac:(lia)) as Hs.
      replace (Z.log2 m) with (52 + n) in Hs by lia.
      rewrite Z.pow_add_r in Hs by lia.
      assert (H2 : 2 ^ (eF - e) * 2 <= 2 ^ n).
      { replace n with (eF - e + (n - (eF - e))) at 1 by lia.
        rewrite Z.pow_add_r by lia.
        assert (2 ^ 1 <= 2 ^ (n - (eF - e))) by (apply Z.pow_le_mono_r; lia).
        assert (0 < 2 ^ (eF - e)) by (apply Z.pow_pos_nonneg; lia).
        nia. }
      nia. }
  unfold packed.
  destruct (Z.eqb_spec m1 0) as [ Hzero | Hpos ]; [ left; reflexivity | right ].
  assert (Hm1pos : 0 < m1) by lia.
  destruct (Z.eq_dec (e + n) eF) as [ Heq | Hne ].
  - replace (eF - e) with n in Hle by lia.
    assert (Hbound : m1 <= mF).
    { destruct Hm1 as [ -> | [-> Hinex] ]; [ nia | ].
      assert (mm < mF); [ | lia ].
      destruct (Z.lt_ge_cases mm mF) as [ H | H ]; [ exact H | exfalso ].
      assert (2 * rest + inexact l <= 0) by nia. lia. }
    replace (m1 <? 2 ^ 53) with true by (symmetry; apply Z.ltb_lt; lia).
    exists (Z.to_pos m1), (e + n). rewrite Z2Pos.id by exact Hm1pos.
    split; [ reflexivity | ]. split; [ lia | ]. right. lia.
  - destruct (Z.ltb_spec m1 (2 ^ 53)) as [ Hlt | Hge ].
    + exists (Z.to_pos m1), (e + n). rewrite Z2Pos.id by exact Hm1pos.
      split; [ reflexivity | ]. split; [ lia | ]. left. lia.
    + exists (2 ^ 52)%positive, (e + n + 1).
      split; [ reflexivity | ]. split; [ reflexivity | ].
      destruct (Z.eq_dec (e + n + 1) eF) as [ Heq | Hne' ].
      * right. split; [ exact Heq | ]. change (Z.pos (2 ^ 52)) with (2 ^ 52). lia.
      * left. lia.
Qed.

(** A double with a valid mantissa: at most 53 bits, and 53 bits above
    the least exponent. *)
Lemma valid_mantissa (s : bool) (m : positive) (e : Z) :
  valid_binary prec emax (S754_finite s m e) = true ->
  Z.pos m < 2 ^ 53 /\ -1074 <= e /\ (-1074 < e -> 2 ^ 52 <= Z.pos m).
Proof.
  unfold valid_binary, bounded, canonical_mantissa. intros H.
  apply andb_true_iff in H. destruct H as [H _]. apply Z.eqb_eq in H.
  rewrite digits2_pos_log2 in H.
  unfold fexp, SpecFloat.emin, prec, emax in H.
  pose proof (Z.log2_spec (Z.pos m) ltac:(lia)) as Hs.
  split; [ | split ].
  - assert (2 ^ Z.succ (Z.log2 (Z.pos m)) <= 2 ^ 53)
      by (apply Z.pow_le_mono_r; lia).
    lia.
  - lia.
  - intros He. replace (Z.log2 (Z.pos m)) with 52 in Hs by lia. lia.
Qed.


Lemma Zdigits2_log2 (q : Z) : 0 < q -> Zdigits2 q = Z.log2 q + 1.
Proof.
  destruct q as [ | p | p ]; try lia. intros _. simpl Zdigits2.
  apply digits2_pos_log2.
Qed.

(** The quotient that [SFdiv] rounds has 53 bits or more, or lies at
    the least exponent. *)
Lemma div_core_drop (mt ma : positive) (et ea : Z) :
  Z.pos mt < 2 ^ 53 ->
  0 <= fst (fst (SFdiv_core_binary prec emax (Z.pos mt) et (Z.pos ma) ea))
  /\ 0 <= drop (fst (fst (SFdiv_core_binary prec emax
                            (Z.pos mt) et (Z.pos ma) ea)))
               (snd (fst (SFdiv_core_binary prec emax
                            (Z.pos mt) et (Z.pos ma) ea))).
Proof.
  intros Hmt.
  assert (Hlog1 : Z.log2 (Z.pos mt) < 53) by (apply Z.log2_lt_pow2; lia).
  pose proof (Z.log2_nonneg (Z.pos mt)) as Hl1.
  pose proof (Z.log2_nonneg (Z.pos ma)) as Hl2.
  unfold SFdiv_core_binary. simpl Zdigits2. rewrite !digits2_pos_log2.
  set (e' := Z.min (fexp prec emax (Z.log2 (Z.pos mt) + 1 + et
                                     - (Z.log2 (Z.pos ma) + 1 + ea)))
                   (et - ea)).
  assert (He' : e' <= et - ea
                /\ (-1074 < e' ->
                    e' = Z.log2 (Z.pos mt) - Z.log2 (Z.pos ma) + et - ea - 53)).
  { unfold e', fexp, SpecFloat.emin, prec, emax. lia. }
  destruct He' as (Hes & Henormal).
  set (s := et - ea - e').
  assert (Hs : 0 <= s) by (unfold s; lia).
  assert (HpowS : 0 < 2 ^ s) by (apply Z.pow_pos_nonneg; lia).
  assert (Hm' : match s with
                | 0 => Z.pos mt
                | Z.pos _ => Z.shiftl (Z.pos mt) s
                | Z.neg _ => 0
                end = Z.pos mt * 2 ^ s).
  { destruct s as [ | p | p ] eqn:Hseq; [ simpl; lia | | lia ].
    rewrite Z.shiftl_mul_pow2 by lia. reflexivity. }
  rewrite Hm'. clear Hm'.
  pose proof (Z_div_mod (Z.pos mt * 2 ^ s) (Z.pos ma) ltac:(lia)) as Hdiv.
  destruct (Z.div_eucl (Z.pos mt * 2 ^ s) (Z.pos ma)) as [q r].
  destruct Hdiv as [Hdiv Hr]. simpl fst. simpl snd.
  assert (Hq0 : 0 <= q) by nia.
  split; [ exact Hq0 | ].
  unfold drop, fexp, SpecFloat.emin, prec, emax.
  destruct (Z.le_gt_cases e' (-1074)) as [ Hsub | Hnorm ]; [ lia | ].
  specialize (Henormal Hnorm).
  assert (Hs' : s = 53 - Z.log2 (Z.pos mt) + Z.log2 (Z.pos ma))
    by (unfold s; lia).
  pose proof (Z.log2_spec (Z.pos mt) ltac:(lia)) as Hst.
  pose proof (Z.log2_spec (Z.pos ma) ltac:(lia)) as Hsa.
  assert (Hbig : 2 ^ 52 * 2 ^ Z.succ (Z.log2 (Z.pos ma))
                 <= Z.pos mt * 2 ^ s).
  { rewrite Hs'.
    replace (53 - Z.log2 (Z.pos mt) + Z.log2 (Z.pos ma))
      with (52 - Z.log2 (Z.pos mt) + Z.succ (Z.log2 (Z.pos ma))) by lia.
    rewrite (Z.pow_add_r 2 (52 - Z.log2 (Z.pos mt))) by lia.
    assert (H52 : 2 ^ 52
                  = 2 ^ Z.log2 (Z.pos mt) * 2 ^ (52 - Z.log2 (Z.pos mt))).
    { rewrite <- Z.pow_add_r by lia. f_equal. lia. }
    assert (0 < 2 ^ (52 - Z.log2 (Z.pos mt)))
      by (apply Z.pow_pos_nonneg; lia).
    assert (0 < 2 ^ Z.succ (Z.log2 (Z.pos ma)))
      by (apply Z.pow_pos_nonneg; lia).
    rewrite H52, <- Z.mul_assoc.
    apply Z.mul_le_mono_nonneg_r; [ | lia ].
    apply Z.mul_nonneg_nonneg; lia. }
  assert (Hq52 : 2 ^ 52 <= q).
  { destruct (Z.le_gt_cases (2 ^ 52) q) as [ H' | H' ];
      [ exact H' | exfalso ].
    assert (Z.pos ma * (q + 1) <= Z.pos ma * 2 ^ 52)
      by (apply Z.mul_le_mono_nonneg_l; lia).
    nia. }
  assert (52 <= Z.log2 q)
    by (change 52 with (Z.log2 (2 ^ 52)); apply Z.log2_le_mono; exact Hq52).
  rewrite Zdigits2_log2 by lia. lia.
Qed.

(** The quotient of a positive double by a greater one is zero or a
    double that is at most 1. *)
Lemma div_below_one (mt ma : positive) (et ea : Z) :
  valid_binary prec emax (S754_finite false mt et) = true ->
  valid_binary prec emax (S754_finite false ma ea) = true ->
  et < ea \/ (et = ea /\ Z.pos mt < Z.pos ma) ->
  div (S754_finite false mt et) (S754_finite false ma ea) = S754_zero false
  \/ exists (m : positive) (e : Z),
       div (S754_finite false mt et) (S754_finite false ma ea)
       = S754_finite false m e
       /\ Z.pos m < 2 ^ 53 /\ below (Z.pos m) e (2 ^ 52) (-52).
Proof.
  intros Hvt Hva Horder.
  destruct (valid_mantissa false mt et Hvt) as (Hmt & Het & _).
  destruct (valid_mantissa false ma ea Hva) as (Hma & Hea & Hnormal).
  assert (Hlog1 : Z.log2 (Z.pos mt) < 53) by (apply Z.log2_lt_pow2; lia).
  pose proof (div_core_drop mt ma et ea Hmt) as Hdrop.
  unfold div, SFdiv. unfold SFdiv_core_binary in *. simpl xorb.
  simpl Zdigits2 in *. rewrite !digits2_pos_log2 in *.
  set (K := ea - et).
  assert (HK : 0 <= K) by (unfold K; lia).
  assert (HpowK : 0 < 2 ^ K) by (apply Z.pow_pos_nonneg; lia).
  assert (Hless : Z.pos mt < Z.pos ma * 2 ^ K).
  { destruct Horder as [ Hlt | [Heq Hlt] ].
    - specialize (Hnormal ltac:(lia)).
      assert (2 ^ 1 <= 2 ^ K) by (apply Z.pow_le_mono_r; unfold K; lia).
      change (2 ^ 53) with (2 ^ 52 * 2 ^ 1) in Hmt. nia.
    - replace K with 0 by (unfold K; lia). simpl. lia. }
  assert (Hdigits : Z.log2 (Z.pos mt) <= Z.log2 (Z.pos ma) + K).
  { rewrite Z.add_comm, <- Z.log2_mul_pow2 by lia.
    apply Z.log2_le_mono. lia. }
  set (e' := Z.min (fexp prec emax (Z.log2 (Z.pos mt) + 1 + et
                                     - (Z.log2 (Z.pos ma) + 1 + ea)))
                   (et - ea)) in *.
  assert (He' : e' <= -53 /\ e' <= - K).
  { pose proof (Z.log2_nonneg (Z.pos ma)).
    unfold e', fexp, SpecFloat.emin, prec, emax, K in *. lia. }
  destruct He' as (He53 & HeK).
  set (s := et - ea - e') in *.
  assert (Hs : 0 <= s) by (unfold s, K in *; lia).
  assert (HpowS : 0 < 2 ^ s) by (apply Z.pow_pos_nonneg; lia).
  assert (Hm' : match s with
                | 0 => Z.pos mt
                | Z.pos _ => Z.shiftl (Z.pos mt) s
                | Z.neg _ => 0
                end = Z.pos mt * 2 ^ s).
  { destruct s as [ | p | p ] eqn:Hseq; [ simpl; lia | | lia ].
    rewrite Z.shiftl_mul_pow2 by lia. reflexivity. }
  rewrite Hm' in *. clear Hm'.
  pose proof (Z_div_mod (Z.pos mt * 2 ^ s) (Z.pos ma) ltac:(lia)) as Hdiv.
  destruct (Z.div_eucl (Z.pos mt * 2 ^ s) (Z.pos ma)) as [q r].
  destruct Hdiv as [Hdiv Hr]. simpl fst in Hdrop. simpl snd in Hdrop.
  destruct Hdrop as [Hq0 Hdrop].
  assert (Hpow' : 2 ^ (- e') = 2 ^ s * 2 ^ K).
  { replace (- e') with (s + K) by (unfold s, K; lia).
    apply Z.pow_add_r; lia. }
  assert (Hq : q < 2 ^ (- e')).
  { rewrite Hpow'.
    assert (Z.pos mt * 2 ^ s < Z.pos ma * 2 ^ K * 2 ^ s)
      by (apply Z.mul_lt_mono_pos_r; lia).
    nia. }
  assert (Hqlog : 0 < q -> Z.log2 q < - e')
    by (intros H; apply Z.log2_lt_pow2; lia).
  assert (Hhi : e' + drop q e' < 971).
  { unfold drop, fexp, SpecFloat.emin, prec, emax.
    destruct (Z.eq_dec q 0) as [ -> | Hne ]; [ simpl Zdigits2; lia | ].
    rewrite Zdigits2_log2 by lia. specialize (Hqlog ltac:(lia)). lia. }
  apply (round_below_general false q e' (new_location (Z.pos ma) r)
           (2 ^ 52) (-52) Hq0 Hdrop Hhi); try lia.
  pose proof (inexact_bounds (new_location (Z.pos ma) r)).
  replace (2 * 2 ^ 52 * 2 ^ (-52 - e')) with (2 * 2 ^ (- e')); [ lia | ].
  replace (- e') with (52 + (-52 - e')) at 1 by lia.
  rewrite Z.pow_add_r by lia. lia.
Qed.

(** A double that is at most 1, times 100, is zero or at most 100. *)
Lemma mul_100_below (m : positive) (e : Z) :
  Z.pos m < 2 ^ 53 -> below (Z.pos m) e (2 ^ 52) (-52) ->
  mul (S754_finite false m e) (of_Z 100) = S754_zero false
  \/ exists (m' : positive) (e' : Z),
       mul (S754_finite false m e) (of_Z 100) = S754_finite false m' e'
       /\ Z.pos m' < 2 ^ 53 /\ below (Z.pos m') e' (Z.pos hundert) (-46).
Proof.
  intros Hm Hone. rewrite of_Z_100. unfold mul, SFmul. simpl xorb.
  assert (He : e <= -52) by (destruct Hone as [ H | [H _] ]; lia).
  assert (Hprod : 2 ^ 52 <= Z.pos (m * hundert) < 2 ^ 106).
  { rewrite Pos2Z.inj_mul. unfold hundert.
    change (2 ^ 52) with 4503599627370496.
    change (2 ^ 53) with 9007199254740992 in Hm.
    change (2 ^ 106) with 81129638414606681695789005144064. nia. }
  assert (Hlog : 52 <= Z.log2 (Z.pos (m * hundert)) < 106).
  { split.
    - change 52 with (Z.log2 (2 ^ 52)). apply Z.log2_le_mono. lia.
    - apply Z.log2_lt_pow2; lia. }
  apply round_below_general.
  - lia.
  - unfold drop, fexp, SpecFloat.emin, prec, emax. simpl Zdigits2.
    rewrite digits2_pos_log2. lia.
  - unfold drop, fexp, SpecFloat.emin, prec, emax. simpl Zdigits2.
    rewrite digits2_pos_log2. lia.
  - unfold hundert. change (2 ^ 52) with 4503599627370496.
    change (2 ^ 53) with 9007199254740992. lia.
  - lia.
  - lia.
  - replace (-46 - (e + -46)) with (- e) by lia. simpl inexact.
    rewrite Pos2Z.inj_mul.
    assert (Z.pos m <= 2 ^ (- e)); [ | nia ].
    destruct Hone as [ Hex | [Hex Hman] ].
    + assert (2 ^ 53 <= 2 ^ (- e)) by (apply Z.pow_le_mono_r; lia). lia.
    + rewrite Hex. exact Hman.
Qed.

(** [int(x)] of a double between zero and 100. *)
Lemma to_int_below_100 (m : positive) (e : Z) :
  Z.pos m < 2 ^ 53 -> below (Z.pos m) e (Z.pos hundert) (-46) ->
  exists p : Z, to_int (S754_finite false m e) = Ok p /\ 0 <= p <= 100.
Proof.
  intros Hm Hbelow. unfold to_int. simpl cond_Zopp.
  assert (He : e <= -46) by (destruct Hbelow as [ H | [H _] ]; lia).
  eexists. split; [ reflexivity | ].
  rewrite Z.shiftl_div_pow2 by lia.
  assert (Hpow : 0 < 2 ^ (- e)) by (apply Z.pow_pos_nonneg; lia).
  split; [ apply Z.div_pos; lia | ].
  apply Z.div_le_upper_bound; [ exact Hpow | ].
  destruct Hbelow as [ Hex | [Hex Hman] ].
  - assert (2 ^ 47 <= 2 ^ (- e)) by (apply Z.pow_le_mono_r; lia).
    change (2 ^ 53) with 9007199254740992 in Hm.
    change (2 ^ 47) with 140737488355328 in *. lia.
  - rewrite Hex. change (2 ^ (- -46)) with 70368744177664.
    unfold hundert in Hman. lia.
Qed.

(** *** Every operation returns a valid double *)

Lemma packed_valid (sx : bool) (m1 e1 : Z) :
  0 <= m1 <= 2 ^ 53 -> -1074 <= e1 -> (-1074 < e1 -> 2 ^ 52 <= m1) ->
  valid_binary prec emax (clipped (packed sx m1 e1)) = true.
Proof.
  intros Hm1 He1 Hnormal. unfold packed.
  destruct (Z.eqb_spec m1 0) as [ Hzero | Hpos ]; [ reflexivity | ].
  destruct (Z.ltb_spec m1 (2 ^ 53)) as [ Hlt | Hge ]; unfold clipped.
  - destruct (e1 <=? emax - prec) eqn:Hfit; [ | reflexivity ].
    unfold valid_binary, bounded, canonical_mantissa. rewrite Hfit.
    rewrite andb_true_r. apply Z.eqb_eq. rewrite digits2_pos_log2.
    rewrite Z2Pos.id by lia.
    assert (Hlog : Z.log2 m1 < 53) by (apply Z.log2_lt_pow2; lia).
    pose proof (Z.log2_nonneg m1).
    unfold fexp, SpecFloat.emin, prec, emax.
    destruct (Z.eq_dec e1 (-1074)) as [ -> | Hne ]; [ lia | ].
    assert (52 <= Z.log2 m1)
      by (change 52 with (Z.log2 (2 ^ 52)); apply Z.log2_le_mono; lia).
    lia.
  - destruct (e1 + 1 <=? emax - prec) eqn:Hfit; [ | reflexivity ].
    unfold valid_binary, bounded, canonical_mantissa. rewrite Hfit.
    rewrite andb_true_r. apply Z.eqb_eq.
    change (Z.pos (digits2_pos (2 ^ 52))) with 53.
    unfold fexp, SpecFloat.emin, prec, emax. lia.
Qed.

Lemma binary_round_aux_valid (sx : bool) (m e : Z) (l : location) :
  0 <= m -> 0 <= drop m e ->
  valid_binary prec emax (binary_round_aux prec emax sx m e l) = true.
Proof.
  intros Hm Hn.
  destruct (binary_round_aux_clipped sx m e l Hm Hn) as (m1 & Hm1 & ->).
  pose proof (div_pow2_upper m _ Hm Hn (drop_lower m e)) as Hmm.
  assert (Hpow : 0 < 2 ^ drop m e) by (apply Z.pow_pos_nonneg; lia).
  assert (Hmm0 : 0 <= m / 2 ^ drop m e) by (apply Z.div_pos; lia).
  apply packed_valid.
  - lia.
  - unfold drop, fexp, SpecFloat.emin, prec, emax. lia.
  - intros Hnormal.
    assert (2 ^ 52 <= m / 2 ^ drop m e); [ | lia ].
    destruct (Z.eq_dec m 0) as [ H0 | H0 ].
    + exfalso. rewrite H0 in Hn, Hnormal.
      unfold drop, fexp, SpecFloat.emin, prec, emax in Hn, Hnormal.
      simpl Zdigits2 in Hn, Hnormal. lia.
    + destruct (drop_exponent m e ltac:(lia)) as [ [H1 _] | [_ H1] ];
        [ lia | ].
      apply Z.div_le_lower_bound; [ exact Hpow | ].
      pose proof (Z.log2_spec m ltac:(lia)) as Hs.
      rewrite <- Z.pow_add_r by lia.
      replace (drop m e + 52) with (Z.log2 m) by lia. lia.
Qed.

Lemma digits2_pos_iter (m d : positive) :
  Z.pos (digits2_pos (Pos.iter xO m d)) = Z.pos (digits2_pos m) + Z.pos d.
Proof.
  induction d as [ | d IH ] using Pos.peano_ind.
  - simpl. lia.
  - rewrite Pos.iter_succ. simpl digits2_pos. lia.
Qed.

Lemma binary_round_valid (sx : bool) (m : positive) (e : Z) :
  valid_binary prec emax (binary_round prec emax sx m e) = true.
Proof.
  unfold binary_round, shl_align.
  destruct (fexp prec emax (Z.pos (digits2_pos m) + e) - e)
    as [ | d | d ] eqn:Hd;
    apply binary_round_aux_valid; try lia; unfold drop; simpl Zdigits2.
  - lia.
  - lia.
  - rewrite digits2_pos_iter.
    replace (Z.pos (digits2_pos m) + Z.pos d
             + fexp prec emax (Z.pos (digits2_pos m) + e))
      with (Z.pos (digits2_pos m) + e) by lia.
    lia.
Qed.

Lemma binary_normalize_valid (m e : Z) :
  valid_binary prec emax (binary_normalize prec emax m e false) = true.
Proof. destruct m; [ reflexivity | | ]; apply binary_round_valid. Qed.

Lemma of_Z_valid (n : Z) : valid_binary prec emax (of_Z n) = true.
Proof. apply binary_normalize_valid. Qed.

Lemma add_valid (x y : float) :
  valid_binary prec emax x = true -> valid_binary prec emax y = true ->
  valid_binary prec emax (add x y) = true.
Proof.
  intros Hx Hy. unfold add, SFadd.
  destruct x as [ [ | ] | [ | ] | | sx mx ex ];
    destruct y as [ [ | ] | [ | ] | | sy my ey ];
    try reflexivity; try assumption.
  apply binary_normalize_valid.
Qed.

Lemma mul_valid (x y : float) :
  valid_binary prec emax x = true -> valid_binary prec emax y = true ->
  valid_binary prec emax (mul x y) = true.
Proof.
  intros Hx Hy. unfold mul, SFmul.
  destruct x as [ sx | sx | | sx mx ex ];
    destruct y as [ sy | sy | | sy my ey ]; try reflexivity.
  destruct (valid_mantissa sx mx ex Hx) as (_ & Hex & Hnx).
  destruct (valid_mantissa sy my ey Hy) as (_ & Hey & Hny).
  apply binary_round_aux_valid; [ lia | ].
  unfold drop, fexp, SpecFloat.emin, prec, emax. simpl Zdigits2.
  rewrite digits2_pos_log2, Pos2Z.inj_mul.
  destruct (Z.eq_dec ex (-1074)) as [ Hsx | Hsx ];
    destruct (Z.eq_dec ey (-1074)) as [ Hsy | Hsy ]; try lia;
    assert (52 <= Z.log2 (Z.pos mx * Z.pos my))
      by (change 52 with (Z.log2 (2 ^ 52)); apply Z.log2_le_mono; nia);
    lia.
Qed.

Lemma div_valid (x y : float) :
  valid_binary prec emax x = true -> valid_binary prec emax y = true ->
  valid_binary prec emax (div x y) = true.
Proof.
  intros Hx Hy. unfold div, SFdiv.
  destruct x as [ sx | sx | | sx mx ex ];
    destruct y as [ sy | sy | | sy my ey ]; try reflexivity.
  destruct (valid_mantissa sx mx ex Hx) as (Hmx & _ & _).
  pose proof (div_core_drop mx my ex ey Hmx) as [Hq Hdrop].
  destruct (SFdiv_core_binary prec emax (Z.pos mx) ex (Z.pos my) ey)
    as [ [q e'] l ].
  simpl fst in *. simpl snd in *.
  apply binary_round_aux_valid; assumption.
Qed.

End F64General.

(** ** Rounding between two bounds

    A bound [B / 2^k] with [B < 2^53] is a double, and rounding to
    nearest does not cross a double: what lies between two such bounds
    before it is rounded lies between them afterwards. *)

Module F64Bounds.

Import F64 F64Rounding F64General.

(** [x] is a positive double whose value lies between [A / 2^k] and
    [B / 2^k]: its exponent is at most [- k], and its mantissa lies
    between the two bounds written at that exponent. *)
Definition within (A B k : Z) (x : float) : Prop :=
  exists (m : positive) (e : Z),
    x = S754_finite false m e
    /\ valid_binary prec emax x = true
    /\ e <= - k
    /\ A * 2 ^ (- k - e) <= Z.pos m <= B * 2 ^ (- k - e).

Lemma pow_split (a b : Z) : 0 <= a -> 0 <= b -> 2 ^ (a + b) = 2 ^ a * 2 ^ b.
Proof. intros. apply Z.pow_add_r; assumption. Qed.

Lemma pow_pos (a : Z) : 0 <= a -> 1 <= 2 ^ a.
Proof. intros H. pose proof (Z.pow_pos_nonneg 2 a). lia. Qed.

(** Rounding stays between two bounds that are doubles themselves. *)
Lemma round_within (m e : Z) (l : location) (A B k : Z) :
  0 <= k <= 1074 -> 1 <= A -> B < 2 ^ 53 ->
  0 <= drop m e -> e <= - k ->
  A * 2 ^ (- k - e) <= m ->
  2 * m + inexact l <= 2 * (B * 2 ^ (- k - e)) ->
  within A B k (binary_round_aux prec emax false m e l).
Proof.
  intros Hk HA HB Hn He Hlo Hhi.
  pose proof (inexact_bounds l) as Ht.
  pose proof (pow_pos (- k - e) ltac:(lia)) as Hp0.
  assert (Hm : 0 < m) by nia.
  pose proof (binary_round_aux_valid false m e l ltac:(lia) Hn) as Hvalid.
  set (n := drop m e) in *.
  assert (Hpow : 0 < 2 ^ n) by (apply Z.pow_pos_nonneg; lia).
  assert (HE : e + n <= - k).
  { destruct (drop_exponent m e Hm) as [ [H1 _] | [_ H1] ]; fold n in H1;
      [ lia | ].
    destruct (Z.le_gt_cases (e + n) (- k)) as [ H | H ]; [ exact H | exfalso ].
    pose proof (Z.log2_spec m Hm) as [Hs _].
    assert (H2 : 2 ^ (53 + (- k - e)) <= 2 ^ Z.log2 m)
      by (apply Z.pow_le_mono_r; lia).
    rewrite pow_split in H2 by lia. nia. }
  destruct (binary_round_aux_general false m e l ltac:(lia) Hn ltac:(lia))
    as (m1 & Hm1 & Hround).
  fold n in Hm1, Hround. rewrite Hround in *. clear Hround.
  pose proof (div_pow2_upper m n ltac:(lia) Hn (drop_lower m e)) as Hmm.
  pose proof (Z.div_mod m (2 ^ n) ltac:(lia)) as Hdiv.
  pose proof (Z.mod_pos_bound m (2 ^ n) Hpow) as Hmod.
  set (mm := m / 2 ^ n) in *. set (rest := m mod 2 ^ n) in *.
  set (P := 2 ^ (- k - (e + n))).
  assert (HP : 1 <= P) by (apply pow_pos; lia).
  assert (Hsplit : 2 ^ (- k - e) = P * 2 ^ n).
  { unfold P. rewrite <- pow_split by lia. f_equal. lia. }
  rewrite Hsplit in Hlo, Hhi.
  assert (HloP : A * P <= mm) by nia.
  assert (HhiP : m1 <= B * P).
  { destruct Hm1 as [ -> | [-> Hinex] ]; [ nia | ].
    assert (mm < B * P); [ | lia ].
    destruct (Z.lt_ge_cases mm (B * P)) as [ H | H ]; [ exact H | exfalso ].
    assert (2 * rest + inexact l <= 0) by nia. lia. }
  assert (Hm1lo : mm <= m1) by (destruct Hm1 as [ -> | [-> _] ]; lia).
  assert (Hm1hi : m1 <= 2 ^ 53) by (destruct Hm1 as [ -> | [-> _] ]; lia).
  unfold packed in *.
  destruct (Z.eqb_spec m1 0) as [ Hzero | Hpos ]; [ nia | ].
  destruct (Z.ltb_spec m1 (2 ^ 53)) as [ Hlt | Hge ].
  - exists (Z.to_pos m1), (e + n). rewrite Z2Pos.id by nia.
    split; [ reflexivity | ]. split; [ exact Hvalid | ].
    split; [ exact HE | ]. fold P. lia.
  - assert (HP2 : 2 <= P) by nia.
    assert (HE1 : e + n + 1 <= - k).
    { destruct (Z.eq_dec (e + n) (- k)) as [ Heq | Hne ]; [ | lia ].
      unfold P in HP2. replace (- k - (e + n)) with 0 in HP2 by lia.
      simpl in HP2. lia. }
    exists (2 ^ 52)%positive, (e + n + 1).
    split; [ reflexivity | ]. split; [ exact Hvalid | ].
    split; [ exact HE1 | ].
    assert (HPh : P = 2 * 2 ^ (- k - (e + n + 1))).
    { unfold P. replace (- k - (e + n)) with (1 + (- k - (e + n + 1))) by lia.
      rewrite pow_split by lia. reflexivity. }
    change (Z.pos (2 ^ 52)) with (2 ^ 52).
    change (2 ^ 53) with (2 * 2 ^ 52) in *. nia.
Qed.

Lemma iter_xO (m d : positive) : Z.pos (Pos.iter xO m d) = Z.pos m * 2 ^ Z.pos d.
Proof.
  induction d as [ | d IH ] using Pos.peano_ind.
  - simpl. lia.
  - rewrite Pos.iter_succ, Pos2Z.inj_succ, Z.pow_succ_r by lia.
    rewrite Pos2Z.inj_xO, IH. lia.
Qed.

(** [shl_align] lowers the exponent to the least of the two and keeps
    the value. *)
Lemma shl_align_spec (m : positive) (e e' : Z) :
  snd (shl_align m e e') = Z.min e e'
  /\ Z.pos (fst (shl_align m e e')) = Z.pos m * 2 ^ (e - Z.min e e').
Proof.
  unfold shl_align. destruct (e' - e) as [ | d | d ] eqn:Hd; simpl fst; simpl snd.
  - replace (Z.min e e') with e by lia. rewrite Z.sub_diag. simpl. lia.
  - replace (Z.min e e') with e by lia. rewrite Z.sub_diag. simpl. lia.
  - replace (Z.min e e') with e' by lia. rewrite iter_xO.
    replace (e - e') with (Z.pos d) by lia. lia.
Qed.

Lemma binary_round_within (M : positive) (e A B k : Z) :
  0 <= k <= 1074 -> 1 <= A -> B < 2 ^ 53 -> e <= - k ->
  A * 2 ^ (- k - e) <= Z.pos M <= B * 2 ^ (- k - e) ->
  within A B k (binary_round prec emax false M e).
Proof.
  intros Hk HA HB He [Hlo Hhi]. unfold binary_round.
  set (f := fexp prec emax (Z.pos (digits2_pos M) + e)).
  destruct (shl_align_spec M e f) as [Hsnd Hfst].
  destruct (shl_align M e f) as [mz ez]. simpl fst in Hfst. simpl snd in Hsnd.
  subst ez.
  assert (Hd : 0 <= e - Z.min e f) by lia.
  pose proof (pow_pos (e - Z.min e f) Hd) as Hp.
  assert (Hsplit : 2 ^ (- k - Z.min e f) = 2 ^ (- k - e) * 2 ^ (e - Z.min e f)).
  { rewrite <- pow_split by lia. f_equal. lia. }
  apply round_within; try assumption; try lia.
  - unfold drop. simpl Zdigits2.
    destruct (Z.le_gt_cases e f) as [ Hle | Hgt ].
    + replace (Z.min e f) with e in * by lia.
      rewrite Z.sub_diag in Hfst. simpl in Hfst.
      replace mz with M by lia. fold f. lia.
    + replace (Z.min e f) with f in * by lia.
      rewrite digits2_pos_log2, Hfst, Z.log2_mul_pow2 by lia.
      assert (Hf : f = fexp prec emax (Z.log2 (Z.pos M) + 1 + e))
        by (unfold f; rewrite digits2_pos_log2; reflexivity).
      replace (e - f + Z.log2 (Z.pos M) + 1 + f)
        with (Z.log2 (Z.pos M) + 1 + e) by lia.
      lia.
  - rewrite Hsplit, Hfst. nia.
  - rewrite Hsplit, Hfst. simpl inexact. nia.
Qed.

(** A positive [int] below 2^53 converts to the double of its value. *)
Lemma of_Z_within (w : Z) : 1 <= w < 2 ^ 53 -> within w w 0 (of_Z w).
Proof.
  intros Hw. unfold of_Z, binary_normalize.
  destruct w as [ | p | p ]; try lia.
  apply binary_round_within; lia.
Qed.

Lemma within_order (A B k : Z) (x : float) : within A B k x -> A <= B.
Proof.
  intros (m & e & _ & _ & He & Hlo & Hhi).
  pose proof (pow_pos (- k - e) ltac:(lia)). nia.
Qed.

(** The product of a grade and its credits. *)
Lemma mul_within (g : float) (w L H k : Z) :
  0 <= k <= 1074 -> 1 <= L -> 1 <= w -> H * w < 2 ^ 53 ->
  within L H k g -> within (L * w) (H * w) k (mul g (of_Z w)).
Proof.
  intros Hk HL Hw HHw Hg.
  pose proof (within_order L H k g Hg) as HLH.
  assert (Hw53 : w < 2 ^ 53) by nia.
  destruct Hg as (mg & eg & -> & Hvg & Heg & Hglo & Hghi).
  destruct (of_Z_within w ltac:(lia)) as (mw & ew & -> & Hvw & Hew & Hwlo & Hwhi).
  replace (- 0 - ew) with (- ew) in * by lia.
  destruct (valid_mantissa false mg eg Hvg) as (_ & Hexg & Hng).
  destruct (valid_mantissa false mw ew Hvw) as (_ & Hexw & Hnw).
  pose proof (pow_pos (- k - eg) ltac:(lia)) as Hp1.
  pose proof (pow_pos (- ew) ltac:(lia)) as Hp2.
  unfold mul, SFmul. simpl xorb.
  assert (Hsplit : 2 ^ (- k - (eg + ew)) = 2 ^ (- k - eg) * 2 ^ (- ew)).
  { rewrite <- pow_split by lia. f_equal. lia. }
  apply round_within; try lia.
  - unfold drop, fexp, SpecFloat.emin, prec, emax. simpl Zdigits2.
    rewrite digits2_pos_log2, Pos2Z.inj_mul.
    destruct (Z.eq_dec eg (-1074)) as [ Hsx | Hsx ];
      destruct (Z.eq_dec ew (-1074)) as [ Hsy | Hsy ]; try lia;
      assert (52 <= Z.log2 (Z.pos mg * Z.pos mw))
        by (change 52 with (Z.log2 (2 ^ 52)); apply Z.log2_le_mono; nia);
      lia.
  - rewrite Hsplit, Pos2Z.inj_mul. nia.
  - rewrite Hsplit, Pos2Z.inj_mul. simpl inexact. nia.
Qed.

(** The sum of two doubles between bounds. *)
Lemma add_within (x y : float) (A1 B1 A2 B2 k : Z) :
  0 <= k <= 1074 -> 1 <= A1 -> 1 <= A2 -> B1 + B2 < 2 ^ 53 ->
  within A1 B1 k x -> within A2 B2 k y ->
  within (A1 + A2) (B1 + B2) k (add x y).
Proof.
  intros Hk HA1 HA2 HB Hx Hy.
  destruct Hx as (m1 & e1 & -> & _ & He1 & Hlo1 & Hhi1).
  destruct Hy as (m2 & e2 & -> & _ & He2 & Hlo2 & Hhi2).
  unfold add, SFadd. simpl cond_Zopp.
  destruct (shl_align_spec m1 e1 (Z.min e1 e2)) as [_ H1].
  destruct (shl_align_spec m2 e2 (Z.min e1 e2)) as [_ H2].
  replace (Z.min e1 (Z.min e1 e2)) with (Z.min e1 e2) in H1 by lia.
  replace (Z.min e2 (Z.min e1 e2)) with (Z.min e1 e2) in H2 by lia.
  set (ez := Z.min e1 e2) in *.
  set (a := fst (shl_align m1 e1 ez)) in *.
  set (b := fst (shl_align m2 e2 ez)) in *.
  change (Z.pos a + Z.pos b) with (Z.pos (a + b)).
  unfold binary_normalize.
  pose proof (pow_pos (e1 - ez) ltac:(lia)) as Hp1.
  pose proof (pow_pos (e2 - ez) ltac:(lia)) as Hp2.
  pose proof (pow_pos (- k - e1) ltac:(lia)) as Hq1.
  pose proof (pow_pos (- k - e2) ltac:(lia)) as Hq2.
  assert (Hs1 : 2 ^ (- k - ez) = 2 ^ (- k - e1) * 2 ^ (e1 - ez)).
  { rewrite <- pow_split by lia. f_equal. lia. }
  assert (Hs2 : 2 ^ (- k - ez) = 2 ^ (- k - e2) * 2 ^ (e2 - ez)).
  { rewrite <- pow_split by lia. f_equal. lia. }
  apply binary_round_within; try lia.
  rewrite Pos2Z.inj_add, H1, H2.
  split.
  - rewrite Z.mul_add_distr_r. rewrite Hs1 at 1. rewrite Hs2. nia.
  - rewrite Z.mul_add_distr_r. rewrite Hs1 at 1. rewrite Hs2. nia.
Qed.

Lemma new_location_exact (n : Z) : inexact (new_location n 0) = 0.
Proof.
  unfold new_location, new_location_even, new_location_odd.
  destruct (Z.even n); reflexivity.
Qed.

(** The quotient of the weighted sum by the sum of the credits. *)
Lemma div_within (acc : float) (W L H k : Z) :
  0 <= k <= 1074 -> 1 <= L -> 1 <= W -> H * W < 2 ^ 53 ->
  within (L * W) (H * W) k acc -> within L H k (div acc (of_Z W)).
Proof.
  intros Hk HL HW HHW Hacc.
  pose proof (within_order _ _ k acc Hacc) as HLH.
  assert (HLH' : L <= H) by nia.
  assert (HW53 : W < 2 ^ 53) by nia.
  assert (HH53 : H < 2 ^ 53) by nia.
  destruct Hacc as (mt & et & -> & Hvt & Het & Hlo & Hhi).
  destruct (of_Z_within W ltac:(lia)) as (ma & ea & -> & Hva & Hea & Halo & Hahi).
  replace (- 0 - ea) with (- ea) in * by lia.
  assert (Hma : Z.pos ma = W * 2 ^ (- ea)) by lia. clear Halo Hahi.
  destruct (valid_mantissa false mt et Hvt) as (Hmt & Hext & _).
  pose proof (div_core_drop mt ma et ea Hmt) as Hdrop.
  assert (Hlog1 : Z.log2 (Z.pos mt) < 53) by (apply Z.log2_lt_pow2; lia).
  pose proof (Z.log2_nonneg (Z.pos mt)) as Hl1.
  pose proof (Z.log2_nonneg (Z.pos ma)) as Hl2.
  pose proof (pow_pos (- k - et) ltac:(lia)) as Hq.
  pose proof (pow_pos (- ea) ltac:(lia)) as Hqa.
  unfold div, SFdiv. unfold SFdiv_core_binary in *. simpl xorb.
  simpl Zdigits2 in *. rewrite !digits2_pos_log2 in *.
  set (e' := Z.min (fexp prec emax (Z.log2 (Z.pos mt) + 1 + et
                                     - (Z.log2 (Z.pos ma) + 1 + ea)))
                   (et - ea)) in *.
  (* the quotient is below 2^(53 - k) *)
  assert (Hmag : Z.log2 (Z.pos mt) + et - Z.log2 (Z.pos ma) - ea - 53 <= - k).
  { pose proof (Z.log2_spec (Z.pos mt) ltac:(lia)) as [Hst _].
    pose proof (Z.log2_spec (Z.pos ma) ltac:(lia)) as [_ Hsa].
    assert (H1 : 2 ^ Z.log2 (Z.pos mt) * 2 ^ (- ea)
                 < 2 ^ 53 * 2 ^ Z.succ (Z.log2 (Z.pos ma)) * 2 ^ (- k - et)).
    { assert (Z.pos mt * 2 ^ (- ea) <= H * Z.pos ma * 2 ^ (- k - et))
        by (rewrite Hma; nia).
      assert (H * Z.pos ma * 2 ^ (- k - et)
              < 2 ^ 53 * 2 ^ Z.succ (Z.log2 (Z.pos ma)) * 2 ^ (- k - et)).
      { apply Z.mul_lt_mono_pos_r; [ lia | ].
        assert (0 < 2 ^ Z.succ (Z.log2 (Z.pos ma)))
          by (apply Z.pow_pos_nonneg; lia).
        nia. }
      nia. }
    rewrite <- !pow_split in H1 by lia.
    apply Z.pow_lt_mono_r_iff in H1; lia. }
  assert (He' : e' <= - k /\ e' <= et - ea).
  { unfold e', fexp, SpecFloat.emin, prec, emax. lia. }
  destruct He' as (Hek & Hes).
  set (s := et - ea - e') in *.
  assert (Hs : 0 <= s) by (unfold s; lia).
  pose proof (pow_pos s Hs) as HpowS.
  assert (Hm' : match s with
                | 0 => Z.pos mt
                | Z.pos _ => Z.shiftl (Z.pos mt) s
                | Z.neg _ => 0
                end = Z.pos mt * 2 ^ s).
  { destruct s as [ | p | p ] eqn:Hseq; [ simpl; lia | | lia ].
    rewrite Z.shiftl_mul_pow2 by lia. reflexivity. }
  rewrite Hm' in *. clear Hm'.
  pose proof (Z_div_mod (Z.pos mt * 2 ^ s) (Z.pos ma) ltac:(lia)) as Hdiv.
  destruct (Z.div_eucl (Z.pos mt * 2 ^ s) (Z.pos ma)) as [q r].
  destruct Hdiv as [Hdiv Hr]. simpl fst in Hdrop. simpl snd in Hdrop.
  destruct Hdrop as [Hq0 Hdrop].
  pose proof (pow_pos (- k - e') ltac:(lia)) as Hqe.
  (* both bounds at the exponent of the quotient *)
  assert (Hscale : 2 ^ (- k - e') * 2 ^ (- ea) = 2 ^ (- k - et) * 2 ^ s).
  { rewrite <- !pow_split by lia. f_equal. unfold s. lia. }
  assert (Hlow : L * 2 ^ (- k - e') * Z.pos ma <= Z.pos mt * 2 ^ s).
  { rewrite Hma.
    replace (L * 2 ^ (- k - e') * (W * 2 ^ (- ea)))
      with (L * W * (2 ^ (- k - e') * 2 ^ (- ea))) by ring.
    rewrite Hscale. nia. }
  assert (Hupp : Z.pos mt * 2 ^ s <= H * 2 ^ (- k - e') * Z.pos ma).
  { rewrite Hma.
    replace (H * 2 ^ (- k - e') * (W * 2 ^ (- ea)))
      with (H * W * (2 ^ (- k - e') * 2 ^ (- ea))) by ring.
    rewrite Hscale. nia. }
  apply round_within; try lia.
  - assert (L * 2 ^ (- k - e') < q + 1); [ | lia ].
    apply Z.mul_lt_mono_pos_r with (p := Z.pos ma); [ lia | ]. nia.
  - destruct (Z.eq_dec r 0) as [ -> | Hrne ].
    + rewrite new_location_exact.
      assert (q <= H * 2 ^ (- k - e')); [ | lia ].
      apply Z.mul_le_mono_pos_r with (p := Z.pos ma); [ lia | ]. nia.
    + pose proof (inexact_bounds (new_location (Z.pos ma) r)).
      assert (q < H * 2 ^ (- k - e')); [ | lia ].
      apply Z.mul_lt_mono_pos_r with (p := Z.pos ma); [ lia | ]. nia.
Qed.

(** The sum of the weighted grades so far, against the sum [W] of the
    credits so far. *)
Definition partial (L H k W : Z) (acc : float) : Prop :=
  (W = 0 /\ acc = S754_zero false)
  \/ (1 <= W /\ within (L * W) (H * W) k acc).

Lemma fold_add_le (l : list Z) (a : Z) :
  Forall (fun w => 0 <= w) l -> a <= fold_left Z.add l a.
Proof.
  intros Hl. revert a. induction Hl as [ | w l Hw _ IH ]; intros a; simpl.
  - lia.
  - specialize (IH (a + w)). lia.
Qed.

Lemma sum_within (L H k : Z) (l : list (float * Z)) (acc : float) (W : Z) :
  0 <= k <= 1074 -> 1 <= L ->
  Forall (fun gw => 0 <= snd gw /\ within L H k (fst gw)) l ->
  H * fold_left Z.add (map snd l) W < 2 ^ 53 ->
  0 <= W -> partial L H k W acc ->
  partial L H k (fold_left Z.add (map snd l) W)
    (fold_left add (map (fun gw => mul (fst gw) (of_Z (snd gw))) l) acc).
Proof.
  intros Hk HL Hl. revert acc W.
  induction Hl as [ | [g w] l [Hw Hg] Hrest IH ]; intros acc W Hsum HW Hacc;
    cbn [map fold_left fst snd] in *.
  - exact Hacc.
  - pose proof (within_order L H k g Hg) as HLH.
    assert (Hmono : W + w <= fold_left Z.add (map snd l) (W + w)).
    { apply fold_add_le. apply List.Forall_map.
      eapply List.Forall_impl; [ | exact Hrest ]. intros gw [H0 _]. exact H0. }
    assert (Hstep : H * (W + w) < 2 ^ 53) by nia.
    apply IH; [ exact Hsum | lia | ].
    destruct (Z.eq_dec w 0) as [ -> | Hw0 ].
    + replace (W + 0) with W by lia.
      destruct Hg as (mg & eg & -> & _).
      change (mul (S754_finite false mg eg) (of_Z 0)) with (S754_zero false).
      destruct Hacc as [ [HW0 ->] | [HW1 (ma & ea & -> & Hrem)] ].
      * left. split; [ exact HW0 | reflexivity ].
      * right. split; [ exact HW1 | ]. exists ma, ea.
        split; [ reflexivity | exact Hrem ].
    + right. split; [ lia | ].
      pose proof (mul_within g w L H k Hk HL ltac:(lia) ltac:(nia) Hg) as Hp.
      destruct Hacc as [ [-> ->] | [HW1 Hacc] ].
      * replace (0 + w) with w by lia.
        destruct Hp as (mp & ep & Heq & Hv & Hrem). rewrite Heq in *.
        exists mp, ep. split; [ reflexivity | ].
        split; [ exact Hv | exact Hrem ].
      * replace (L * (W + w)) with (L * W + L * w) by ring.
        replace (H * (W + w)) with (H * W + H * w) by ring.
        apply add_within; try assumption; nia.
Qed.

Lemma to_pos_pow (j : Z) : 0 <= j -> Z.pos (Z.to_pos (2 ^ j)) = 2 ^ j.
Proof. intros Hj. apply Z2Pos.id. apply Z.pow_pos_nonneg; lia. Qed.

Lemma within_value (A B k : Z) (x : float) :
  0 <= k -> within A B k x ->
  (dyadic A k <= value x <= dyadic B k)%Q.
Proof.
  intros Hk (m & e & -> & _ & He & Hlo & Hhi).
  pose proof (pow_pos (- k - e) ltac:(lia)) as Hp.
  pose proof (pow_pos k Hk) as Hpk.
  unfold value, dyadic.
  destruct (Z.leb_spec 0 e) as [ H0 | H0 ].
  - assert (e = 0) by lia. assert (k = 0) by lia. subst e k.
    simpl cond_Zopp. unfold Qle. simpl. lia.
  - simpl cond_Zopp. unfold Qle. simpl Qnum. simpl Qden.
    rewrite !to_pos_pow by lia.
    assert (Hsplit : 2 ^ (- e) = 2 ^ (- k - e) * 2 ^ k).
    { rewrite <- pow_split by lia. f_equal. lia. }
    rewrite Hsplit. nia.
Qed.

Lemma value_within (A B k : Z) (x : float) :
  0 <= k <= 1074 -> 1 <= A -> B < 2 ^ 53 ->
  valid_binary prec emax x = true ->
  (dyadic A k <= value x <= dyadic B k)%Q ->
  within A B k x.
Proof.
  intros Hk HA HB Hvalid [Hlo Hhi].
  pose proof (pow_pos k ltac:(lia)) as Hpk.
  unfold dyadic, value, Qle in Hlo, Hhi.
  destruct x as [ s | s | | s m e ]; simpl in Hlo; try lia.
  destruct (valid_mantissa s m e Hvalid) as (Hm & Hemin & Hnormal).
  destruct (Z.leb_spec 0 e) as [ H0 | H0 ].
  - simpl in Hlo, Hhi. rewrite to_pos_pow in Hlo, Hhi by lia.
    pose proof (pow_pos e H0) as Hpe.
    destruct s; simpl cond_Zopp in *; [ nia | ].
    specialize (Hnormal ltac:(lia)).
    assert (He : e = 0).
    { destruct (Z.eq_dec e 0) as [ H | H ]; [ exact H | exfalso ].
      assert (2 ^ 1 <= 2 ^ e) by (apply Z.pow_le_mono_r; lia).
      change (2 ^ 53) with (2 ^ 52 * 2 ^ 1) in *. nia. }
    assert (Hk0 : k = 0).
    { destruct (Z.eq_dec k 0) as [ H | H ]; [ exact H | exfalso ].
      assert (2 ^ 1 <= 2 ^ k) by (apply Z.pow_le_mono_r; lia).
      subst e. change (2 ^ 53) with (2 ^ 52 * 2 ^ 1) in *. nia. }
    subst e k. exists m, 0. split; [ reflexivity | ].
    split; [ exact Hvalid | ]. simpl in *. lia.
  - simpl Qnum in Hlo, Hhi. simpl Qden in Hlo, Hhi.
    rewrite !to_pos_pow in Hlo, Hhi by lia.
    pose proof (pow_pos (- e) ltac:(lia)) as Hpe.
    destruct s; simpl cond_Zopp in *; [ nia | ].
    assert (He : e <= - k).
    { destruct (Z.eq_dec e (-1074)) as [ H | H ]; [ lia | ].
      specialize (Hnormal ltac:(lia)).
      destruct (Z.le_gt_cases e (- k)) as [ H1 | H1 ]; [ exact H1 | exfalso ].
      assert (H2 : 2 ^ (- e) * 2 ^ 1 <= 2 ^ k).
      { rewrite <- pow_split by lia. apply Z.pow_le_mono_r; lia. }
      change (2 ^ 53) with (2 ^ 52 * 2 ^ 1) in *. nia. }
    exists m, e. split; [ reflexivity | ]. split; [ exact Hvalid | ].
    split; [ exact He | ].
    pose proof (pow_pos (- k - e) ltac:(lia)) as Hp.
    assert (Hsplit : 2 ^ (- e) = 2 ^ (- k - e) * 2 ^ k).
    { rewrite <- pow_split by lia. f_equal. lia. }
    rewrite Hsplit in Hlo, Hhi. nia.
Qed.

Lemma dyadic_scaled (n k : Z) :
  0 <= k -> (dyadic n k * inject_Z (2 ^ k) == inject_Z n)%Q.
Proof.
  intros Hk. unfold dyadic. rewrite Qmake_Qdiv.
  rewrite to_pos_pow by exact Hk.
  assert (Hp : ~ (inject_Z (2 ^ k) == 0)%Q).
  { intros H. unfold Qeq in H. simpl in H.
    pose proof (pow_pos k Hk). lia. }
  field. exact Hp.
Qed.

Lemma pow_Q_pos (k : Z) : 0 <= k -> (0 < inject_Z (2 ^ k))%Q.
Proof.
  intros Hk. change 0%Q with (inject_Z 0). rewrite <- Zlt_Qlt.
  pose proof (pow_pos k Hk). lia.
Qed.

(** A rational number lies less than [2^-k] above its floor and below
    its ceiling at the scale [2^k]. *)
Lemma dyadic_floor (x : Q) (k : Z) :
  0 <= k ->
  (dyadic (Qfloor (x * inject_Z (2 ^ k))) k <= x
   /\ x - dyadic 1 k < dyadic (Qfloor (x * inject_Z (2 ^ k))) k)%Q.
Proof.
  intros Hk. pose proof (pow_Q_pos k Hk) as Hp.
  pose proof (Qfloor_le (x * inject_Z (2 ^ k))) as Hle.
  pose proof (Qlt_floor (x * inject_Z (2 ^ k))) as Hlt.
  rewrite inject_Z_plus in Hlt.
  split.
  - apply (Qmult_le_r _ _ _ Hp). rewrite dyadic_scaled by exact Hk. exact Hle.
  - pose proof (dyadic_scaled 1 k Hk) as H1.
    pose proof (dyadic_scaled (Qfloor (x * inject_Z (2 ^ k))) k Hk) as H2.
    apply (Qmult_lt_r _ _ _ Hp).
    change (inject_Z 1) with 1%Q in *. nra.
Qed.

Lemma dyadic_ceiling (x : Q) (k : Z) :
  0 <= k ->
  (x <= dyadic (Qceiling (x * inject_Z (2 ^ k))) k
   /\ dyadic (Qceiling (x * inject_Z (2 ^ k))) k < x + dyadic 1 k)%Q.
Proof.
  intros Hk. pose proof (pow_Q_pos k Hk) as Hp.
  pose proof (Qle_ceiling (x * inject_Z (2 ^ k))) as Hle.
  pose proof (Qceiling_lt (x * inject_Z (2 ^ k))) as Hlt.
  unfold Z.sub in Hlt. rewrite inject_Z_plus in Hlt.
  split.
  - apply (Qmult_le_r _ _ _ Hp). rewrite dyadic_scaled by exact Hk. exact Hle.
  - pose proof (dyadic_scaled 1 k Hk) as H1.
    pose proof (dyadic_scaled (Qceiling (x * inject_Z (2 ^ k))) k Hk) as H2.
    apply (Qmult_lt_r _ _ _ Hp).
    rewrite inject_Z_opp in Hlt. change (inject_Z 1) with 1%Q in *. nra.
Qed.

End F64Bounds.

(** * Part III: the properties *)

(** ** The weighted average *)

Section Average.

Context {N : PyNumber}.
Implicit Types (modules : list (Module_ N)) (module : Module_ N).

Lemma fold_average_graded modules (acc : num * Z) :
  fold_left average_step modules acc = fold_left pair_step (graded modules) acc.
Proof.
  revert acc. induction modules as [ | module rest IH ]; intros acc; simpl.
  - reflexivity.
  - unfold average_step at 2. destruct (grade module) as [ g | ]; simpl.
    + apply IH.
    + apply IH.
Qed.

Lemma fold_pair_step (l : list (num * Z)) (a : num) (b : Z) :
  fold_left pair_step l (a, b)
  = (fold_left num_add (map (fun gw => num_mul (fst gw) (of_int (snd gw))) l) a,
     fold_left Z.add (map snd l) b).
Proof.
  revert a b. induction l as [ | gw l IH ]; intros a b; simpl.
  - reflexivity.
  - unfold pair_step at 2. simpl. apply IH.
Qed.

(** The loop with its two accumulators computes the two sums over the
    graded units. *)
Lemma calculate_weighted_average_eq modules :
  calculate_weighted_average modules =
    if 0 <? sum_Z (weights modules) then
      do average <- truediv (sum_num (weighted_grades modules))
                            (of_int (sum_Z (weights modules)));
      Ok (Some average)
    else Ok None.
Proof.
  unfold calculate_weighted_average.
  rewrite fold_average_graded, fold_pair_step. reflexivity.
Qed.

Lemma average_positive modules :
  0 < sum_Z (weights modules) ->
  calculate_weighted_average modules =
    Ok (Some (num_quot (sum_num (weighted_grades modules))
                       (of_int (sum_Z (weights modules))))).
Proof.
  intros Hpos. rewrite calculate_weighted_average_eq.
  destruct (Z.ltb_spec 0 (sum_Z (weights modules))) as [ _ | Hle ]; [ | lia ].
  unfold truediv. rewrite of_int_nonzero by lia. reflexivity.
Qed.

Lemma average_absent modules :
  sum_Z (weights modules) <= 0 ->
  calculate_weighted_average modules = Ok None.
Proof.
  intros Hle. rewrite calculate_weighted_average_eq.
  destruct (Z.ltb_spec 0 (sum_Z (weights modules))); [ lia | reflexivity ].
Qed.

(** [calculate_weighted_average] raises nothing. *)
Lemma average_returns modules :
  exists average : option num, calculate_weighted_average modules = Ok average.
Proof.
  destruct (Z.lt_ge_cases 0 (sum_Z (weights modules))) as [ Hpos | Hle ].
  - eexists. apply average_positive. exact Hpos.
  - exists None. apply average_absent. exact Hle.
Qed.

End Average.

(** C5.  When some unit is graded and the credit weights of the graded
    units sum to a positive total, [calculate_weighted_average] returns
    the sum of grade times weight divided by the sum of the weights, both
    sums over the graded units in their order, in the arithmetic of the
    grades; in binary64 the units (credits 6, grade 1.7) and (credits 6,
    grade 2.3) yield the double 2.0 exactly. *)
Theorem weighted_average_is_quotient :
  (forall (N : PyNumber) (modules : list (Module_ N)),
      graded modules <> [] ->
      0 < sum_Z (weights modules) ->
      calculate_weighted_average modules =
        Ok (Some (num_quot (sum_num (weighted_grades modules))
                           (of_int (sum_Z (weights modules))))))
  /\ calculate_weighted_average [unit64 6 17 1; unit64 6 23 1]
     = Ok (Some (F64.of_Z 2)).
Proof.
  split.
  - intros N modules _ Hpos. apply average_positive. exact Hpos.
  - vm_compute. reflexivity.
Qed.

Lemma weighted_average_is_quotient_witness :
  graded [unit64 6 17 1; unit64 6 23 1] <> []
  /\ 0 < sum_Z (weights [unit64 6 17 1; unit64 6 23 1])
  /\ calculate_weighted_average [unit64 6 17 1; unit64 6 23 1]
     = Ok (Some (num_quot
                   (sum_num (weighted_grades [unit64 6 17 1; unit64 6 23 1]))
                   (of_int (sum_Z (weights [unit64 6 17 1; unit64 6 23 1]))))).
Proof.
  split; [ discriminate | ].
  split; [ reflexivity | ].
  apply (proj1 weighted_average_is_quotient binary64);
    [ discriminate | reflexivity ].
Defined.

(** C6.  When no unit has a grade, or the credit weights of the graded
    units sum to zero (a single graded unit with zero credits included),
    [calculate_weighted_average] returns [None]: it returns normally, so
    there is no division by zero and no other exception. *)
Theorem weighted_average_absent (N : PyNumber) (modules : list (Module_ N)) :
  graded modules = [] \/ sum_Z (weights modules) = 0 ->
  calculate_weighted_average modules = Ok None.
Proof.
  intros [Hnone | Hzero]; apply average_absent.
  - unfold sum_Z, weights. rewrite Hnone. simpl. lia.
  - lia.
Qed.

Lemma weighted_average_absent_witness :
  calculate_weighted_average [unit64 0 27 1] = Ok None
  /\ calculate_weighted_average [ungraded64 6] = Ok None.
Proof.
  split.
  - apply (weighted_average_absent binary64 [unit64 0 27 1]).
    right. reflexivity.
  - apply (weighted_average_absent binary64 [ungraded64 6]).
    left. reflexivity.
Defined.

(** C9.  Appending a unit without a grade, whatever its credit weight,
    does not change the result of [calculate_weighted_average]. *)
Theorem ungraded_unit_ignored (N : PyNumber) (modules : list (Module_ N))
    (module : Module_ N) :
  grade module = None ->
  calculate_weighted_average (modules ++ [module])
  = calculate_weighted_average modules.
Proof.
  intros Hnone. unfold calculate_weighted_average.
  rewrite fold_left_app. simpl. unfold average_step at 1.
  rewrite Hnone. reflexivity.
Qed.

Lemma ungraded_unit_ignored_witness :
  calculate_weighted_average ([unit64 6 17 1] ++ [ungraded64 5])
  = calculate_weighted_average [unit64 6 17 1].
Proof.
  apply (ungraded_unit_ignored binary64 [unit64 6 17 1] (ungraded64 5)).
  reflexivity.
Defined.

(** ** Boundedness of the average *)

Module ExactBounds.

Local Open Scope Q_scope.

Lemma weighted_sum_lower (lo : Q) (l : list (Q * Z)) (a : Q) (b : Z) :
  Forall (fun gw => (0 <= snd gw)%Z /\ lo <= fst gw) l ->
  lo * inject_Z b <= a ->
  lo * inject_Z (fold_left Z.add (map snd l) b)
  <= fold_left Qplus (map weighted l) a.
Proof.
  intros Hall. revert a b.
  induction Hall as [ | [g w] l [Hw Hg] _ IH ]; intros a b Hab; simpl.
  - exact Hab.
  - apply IH. unfold weighted. simpl in *.
    rewrite inject_Z_plus.
    assert (Hw' : 0 <= inject_Z w)
      by (change 0 with (inject_Z 0); rewrite <- Zle_Qle; exact Hw).
    nra.
Qed.

Lemma weighted_sum_upper (hi : Q) (l : list (Q * Z)) (a : Q) (b : Z) :
  Forall (fun gw => (0 <= snd gw)%Z /\ fst gw <= hi) l ->
  a <= hi * inject_Z b ->
  fold_left Qplus (map weighted l) a
  <= hi * inject_Z (fold_left Z.add (map snd l) b).
Proof.
  intros Hall. revert a b.
  induction Hall as [ | [g w] l [Hw Hg] _ IH ]; intros a b Hab; simpl.
  - exact Hab.
  - apply IH. unfold weighted. simpl in *.
    rewrite inject_Z_plus.
    assert (Hw' : 0 <= inject_Z w)
      by (change 0 with (inject_Z 0); rewrite <- Zle_Qle; exact Hw).
    nra.
Qed.

Lemma qmin_le (x y : Q) : qmin x y <= x /\ qmin x y <= y.
Proof.
  unfold qmin, num_min. simpl.
  destruct (Qle_bool x y) eqn:Hxy.
  - apply Qle_bool_iff in Hxy. split; [ apply Qle_refl | exact Hxy ].
  - assert (~ x <= y) by (rewrite <- Qle_bool_iff; congruence).
    split; [ apply Qlt_le_weak, Qnot_le_lt; assumption | apply Qle_refl ].
Qed.

Lemma qmax_ge (x y : Q) : x <= qmax x y /\ y <= qmax x y.
Proof.
  unfold qmax, num_max. simpl.
  destruct (Qle_bool x y) eqn:Hxy.
  - apply Qle_bool_iff in Hxy. split; [ exact Hxy | apply Qle_refl ].
  - assert (~ x <= y) by (rewrite <- Qle_bool_iff; congruence).
    split; [ apply Qle_refl | apply Qlt_le_weak, Qnot_le_lt; assumption ].
Qed.

Lemma fold_qmin_lower (l : list Q) (x : Q) :
  fold_left qmin l x <= x /\ Forall (fun y => fold_left qmin l x <= y) l.
Proof.
  revert x. induction l as [ | y l IH ]; intros x; simpl.
  - split; [ apply Qle_refl | constructor ].
  - destruct (IH (qmin x y)) as [H1 H2].
    destruct (qmin_le x y) as [Hx Hy].
    split; [ eapply Qle_trans; eassumption | ].
    constructor; [ eapply Qle_trans; eassumption | exact H2 ].
Qed.

Lemma fold_qmax_upper (l : list Q) (x : Q) :
  x <= fold_left qmax l x /\ Forall (fun y => y <= fold_left qmax l x) l.
Proof.
  revert x. induction l as [ | y l IH ]; intros x; simpl.
  - split; [ apply Qle_refl | constructor ].
  - destruct (IH (qmax x y)) as [H1 H2].
    destruct (qmax_ge x y) as [Hx Hy].
    split; [ eapply Qle_trans; eassumption | ].
    constructor; [ eapply Qle_trans; eassumption | exact H2 ].
Qed.

(** Every element of a non-empty list lies between its least and its
    greatest element. *)
Lemma least_greatest (gs : list Q) :
  gs <> [] ->
  exists lo hi : Q,
    @least exact gs = Some lo /\ @greatest exact gs = Some hi /\
    Forall (fun g => lo <= g /\ g <= hi) gs.
Proof.
  destruct gs as [ | g gs ]; [ congruence | intros _ ].
  exists (fold_left qmin gs g), (fold_left qmax gs g).
  split; [ reflexivity | ]. split; [ reflexivity | ].
  destruct (fold_qmin_lower gs g) as [L1 L2].
  destruct (fold_qmax_upper gs g) as [U1 U2].
  constructor; [ split; assumption | ].
  rewrite List.Forall_forall in L2. rewrite List.Forall_forall in U2.
  apply List.Forall_forall.
  intros y Hy. split; [ apply L2 | apply U2 ]; exact Hy.
Qed.

Lemma graded_nonempty (modules : list (Module_ exact)) :
  (0 < sum_Z (weights modules))%Z -> graded modules <> [].
Proof.
  intros Hpos Hnil. unfold sum_Z, weights in Hpos.
  rewrite Hnil in Hpos. simpl in Hpos. lia.
Qed.

End ExactBounds.

(** The formula of the average is bounded: in unrounded arithmetic, when
    the credit weights of the graded units are not negative and sum to a
    positive total, the average lies between the least and the greatest
    grade of the graded units. *)
Lemma exact_average_between_grades (modules : list (Module_ exact)) :
  Forall (fun gw => 0 <= snd gw) (graded modules) ->
  0 < sum_Z (weights modules) ->
  exists avg : Q,
    calculate_weighted_average modules = Ok (Some avg)
    /\ between_grades modules avg.
Proof.
  intros Hw Hpos.
  exists (sum_num (weighted_grades modules) / inject_Z (sum_Z (weights modules)))%Q.
  split; [ apply (average_positive modules Hpos) | ].
  pose proof (ExactBounds.graded_nonempty modules Hpos) as Hne.
  destruct (ExactBounds.least_greatest (map fst (graded modules)))
    as (lo & hi & Hlo & Hhi & Hall).
  { destruct (graded modules); [ congruence | discriminate ]. }
  exists lo, hi. split; [ exact Hlo | ]. split; [ exact Hhi | ].
  assert (HW : (0 < inject_Z (sum_Z (weights modules)))%Q)
    by (change 0%Q with (inject_Z 0); rewrite <- Zlt_Qlt; exact Hpos).
  rewrite List.Forall_forall in Hall. rewrite List.Forall_forall in Hw.
  split; apply Qle_bool_iff.
  - apply Qle_shift_div_l; [ exact HW | ].
    apply (ExactBounds.weighted_sum_lower lo (graded modules) (inject_Z 0) 0).
    + apply List.Forall_forall. intros gw Hgw. split; [ apply Hw; exact Hgw | ].
      apply Hall. apply in_map. exact Hgw.
    + change (inject_Z 0) with 0%Q. lra.
  - apply Qle_shift_div_r; [ exact HW | ].
    apply (ExactBounds.weighted_sum_upper hi (graded modules) (inject_Z 0) 0).
    + apply List.Forall_forall. intros gw Hgw. split; [ apply Hw; exact Hgw | ].
      apply Hall. apply in_map. exact Hgw.
    + change (inject_Z 0) with 0%Q. lra.
Qed.

(** In binary64, for whole numbers [0 < L <= H] and [0 <= k <= 1074]
    with [H] times the sum of the credits of the graded units below
    2^53: when the credits of the graded units are not negative and sum
    to a positive total, and every grade of a graded unit is a valid
    double whose value lies between [L / 2^k] and [H / 2^k], then
    [calculate_weighted_average] returns a finite positive double whose
    value lies between [L / 2^k] and [H / 2^k]. *)
Lemma average_between_dyadic (modules : list (Module_ binary64))
    (L H k : Z) :
  0 < L <= H -> 0 <= k <= 1074 ->
  H * sum_Z (weights modules) < 2 ^ 53 ->
  Forall (fun gw =>
            0 <= snd gw
            /\ valid_binary F64.prec F64.emax (fst gw) = true
            /\ (F64.dyadic L k <= F64.value (fst gw)
                <= F64.dyadic H k)%Q)
         (graded modules) ->
  0 < sum_Z (weights modules) ->
  exists (avg : F64.float) (m : positive) (e : Z),
    calculate_weighted_average modules = Ok (Some avg)
    /\ avg = S754_finite false m e
    /\ valid_binary F64.prec F64.emax avg = true
    /\ (F64.dyadic L k <= F64.value avg <= F64.dyadic H k)%Q.
Proof.
  intros HLH Hk Hsum Hgrades Hpos.
  rewrite (average_positive modules Hpos).
  assert (HH : H < 2 ^ 53) by nia.
  pose proof (F64Bounds.sum_within L H k (graded modules) (F64.of_Z 0) 0
                Hk ltac:(lia)) as Hfold.
  destruct Hfold as [ [H0 _] | [HW Hacc] ].
  - eapply List.Forall_impl; [ | exact Hgrades ].
    intros gw (Hw & Hv & Hq). split; [ exact Hw | ].
    apply F64Bounds.value_within; try assumption; lia.
  - exact Hsum.
  - lia.
  - left. split; reflexivity.
  - assert (Hzero : sum_Z (weights modules) = 0) by exact H0. lia.
  - pose proof (F64Bounds.div_within _ _ L H k Hk ltac:(lia) HW Hsum Hacc)
      as Havg.
    pose proof (F64Bounds.within_value L H k _ ltac:(lia) Havg) as Hq.
    destruct Havg as (m & e & Heq & Hvalid & _).
    eexists. exists m, e. split; [ reflexivity | ].
    split; [ exact Heq | ]. split; [ exact Hvalid | exact Hq ].
Qed.


(** C8, as amended.  In binary64, when the credits of the graded units
    are not negative and sum to a positive total, and every grade of a
    graded unit is a valid double whose value lies between the rational
    numbers [lo] and [hi]: for every [k] from 0 to 1074 such that [lo]
    is at least [2^-k] and [hi], rounded up to a multiple of [2^-k] and
    counted in such multiples, times the sum of the credits of the
    graded units is below 2^53, [calculate_weighted_average] returns a
    finite positive double whose value lies between [lo] rounded down
    and [hi] rounded up to a multiple of [2^-k].  So the average leaves
    the interval from [lo] to [hi], and with them the interval from the
    least to the greatest grade, by less than [2^-k]; and it does not
    leave it when [lo] and [hi] are multiples of [2^-k]. *)
Theorem binary64_average_between_bounds (modules : list (Module_ binary64))
    (lo hi : Q) (k : Z) :
  0 <= k <= 1074 ->
  0 < Qfloor (lo * inject_Z (2 ^ k)) ->
  Qceiling (hi * inject_Z (2 ^ k)) * sum_Z (weights modules) < 2 ^ 53 ->
  Forall (fun gw =>
            0 <= snd gw
            /\ valid_binary F64.prec F64.emax (fst gw) = true
            /\ (lo <= F64.value (fst gw) <= hi)%Q)
         (graded modules) ->
  0 < sum_Z (weights modules) ->
  exists (avg : F64.float) (m : positive) (e : Z),
    calculate_weighted_average modules = Ok (Some avg)
    /\ avg = S754_finite false m e
    /\ valid_binary F64.prec F64.emax avg = true
    /\ (F64.dyadic (Qfloor (lo * inject_Z (2 ^ k))) k <= F64.value avg
        <= F64.dyadic (Qceiling (hi * inject_Z (2 ^ k))) k)%Q
    /\ (lo - F64.dyadic 1 k < F64.value avg < hi + F64.dyadic 1 k)%Q.
Proof.
  intros Hk HL Hsum Hgrades Hpos.
  destruct (F64Bounds.dyadic_floor lo k ltac:(lia)) as [Hfl1 Hfl2].
  destruct (F64Bounds.dyadic_ceiling hi k ltac:(lia)) as [Hce1 Hce2].
  set (L := Qfloor (lo * inject_Z (2 ^ k))) in *.
  set (H := Qceiling (hi * inject_Z (2 ^ k))) in *.
  assert (Horder : L <= H).
  { destruct (graded modules) as [ | [g w] rest ] eqn:Hgraded.
    - unfold sum_Z, weights in Hpos. rewrite Hgraded in Hpos.
      simpl in Hpos. lia.
    - apply List.Forall_cons_iff in Hgrades.
      destruct Hgrades as [ (_ & _ & Hg1 & Hg2) _ ]. simpl in Hg1, Hg2.
      assert (Hq : (F64.dyadic L k <= F64.dyadic H k)%Q) by lra.
      unfold F64.dyadic, Qle in Hq. simpl in Hq.
      rewrite F64Bounds.to_pos_pow in Hq by lia.
      pose proof (F64Bounds.pow_pos k ltac:(lia)). nia. }
  destruct (average_between_dyadic modules L H k)
    as (avg & m & e & Havg & Heq & Hvalid & Hlo & Hhi);
    try assumption; try lia.
  { eapply List.Forall_impl; [ | exact Hgrades ].
    intros gw (Hw & Hv & Hg1 & Hg2). split; [ exact Hw | ].
    split; [ exact Hv | ]. split; lra. }
  exists avg, m, e. split; [ exact Havg | ]. split; [ exact Heq | ].
  split; [ exact Hvalid | ]. split; [ split; assumption | ]. split; lra.
Qed.

Lemma binary64_average_between_bounds_witness :
  exists (avg : F64.float) (m : positive) (e : Z),
    calculate_weighted_average [unit64 3 27 1] = Ok (Some avg)
    /\ avg = S754_finite false m e
    /\ valid_binary F64.prec F64.emax avg = true
    /\ (F64.dyadic
          (Qfloor (F64.value (F64.lit 27 1) * inject_Z (2 ^ 40))) 40
        <= F64.value avg
        <= F64.dyadic
             (Qceiling (F64.value (F64.lit 27 1) * inject_Z (2 ^ 40))) 40)%Q
    /\ (F64.value (F64.lit 27 1) - F64.dyadic 1 40 < F64.value avg
        < F64.value (F64.lit 27 1) + F64.dyadic 1 40)%Q.
Proof.
  apply (binary64_average_between_bounds [unit64 3 27 1]
           (F64.value (F64.lit 27 1)) (F64.value (F64.lit 27 1)) 40).
  - lia.
  - vm_compute. reflexivity.
  - vm_compute. reflexivity.
  - apply List.Forall_cons; [ | apply List.Forall_nil ].
    split; [ vm_compute; discriminate | ].
    split; [ vm_compute; reflexivity | ].
    split; vm_compute; discriminate.
  - vm_compute. reflexivity.
Defined.

(** C8 fails in binary64: the one unit of 3 credits graded 2.7 has the
    average 2.7000000000000006, one unit in the last place above its
    only grade. *)
Lemma binary64_average_above_grade :
  graded [unit64 3 27 1] <> []
  /\ 0 < sum_Z (weights [unit64 3 27 1])
  /\ calculate_weighted_average [unit64 3 27 1]
     = Ok (Some (S754_finite false 6079859496950171 (-51)))
  /\ greatest (map fst (graded [unit64 3 27 1]))
     = Some (S754_finite false 6079859496950170 (-51))
  /\ ~ average_between_grades binary64.
Proof.
  split; [ discriminate | ].
  split; [ reflexivity | ].
  split; [ vm_compute; reflexivity | ].
  split; [ vm_compute; reflexivity | ].
  intros Hbound.
  destruct (Hbound [unit64 3 27 1]) as (avg & Havg & lo & hi & _ & Hhi & _ & Hle).
  - discriminate.
  - reflexivity.
  - vm_compute in Havg. vm_compute in Hhi.
    injection Havg as <-. injection Hhi as <-.
    vm_compute in Hle. discriminate.
Qed.

(** ** The percentage of the overall goal *)

Section Percent.

Context {N : PyNumber}.

Lemma fortschritt_prozent_positive (target avg : num) :
  num_ltb (of_int 0) avg = true ->
  fortschritt_prozent target avg
  = num_to_int (num_mul (num_quot target avg) (of_int 100)).
Proof.
  intros Hpos. unfold fortschritt_prozent, truediv.
  rewrite Hpos, (positive_nonzero avg Hpos). reflexivity.
Qed.

Lemma fortschritt_prozent_nonpositive (target avg : num) :
  num_ltb (of_int 0) avg = false -> fortschritt_prozent target avg = Ok 0.
Proof. intros Hle. unfold fortschritt_prozent. rewrite Hle. reflexivity. Qed.

(** The percentage of a returned overall goal that was not achieved is
    the one that [fortschritt_prozent] computes. *)
Lemma overall_ziel_prozent (now : datetime) (date : option string)
    (target avg : num) (r : OverallZiel) :
  num_leb avg target = false ->
  overall_ziel now date target (Some avg) = Ok r ->
  fortschritt_prozent target avg = Ok (overall_fortschritt_prozent r).
Proof.
  unfold overall_ziel. intros Hgoal. rewrite Hgoal. simpl.
  destruct (fortschritt_prozent target avg) as [ prozent | e ]; simpl;
    [ | discriminate ].
  destruct (zeitfortschritt _ _ _ _ _ _) as [ nk | e ]; simpl;
    [ | discriminate ].
  intros [= <-]. reflexivity.
Qed.

End Percent.

Lemma exact_to_int_floor (x : Q) :
  (0 <= x)%Q -> Exact.to_int x = Ok (Qfloor x).
Proof.
  intros Hx. unfold Exact.to_int. f_equal.
  destruct x as [n d]. unfold Qle in Hx. simpl in *.
  apply Z.quot_div_nonneg; lia.
Qed.

Lemma exact_percent_floor (target avg : Q) :
  (0 <= target)%Q -> (0 < avg)%Q ->
  @fortschritt_prozent exact target avg = Ok (Qfloor (target / avg * 100)).
Proof.
  intros Ht Ha.
  rewrite fortschritt_prozent_positive.
  - apply (exact_to_int_floor (target / avg * 100)).
    apply Qmult_le_0_compat; [ | discriminate ].
    apply Qmult_le_0_compat; [ exact Ht | ].
    apply Qinv_le_0_compat. apply Qlt_le_weak. exact Ha.
  - simpl. unfold Exact.ltb. apply negb_true_iff.
    destruct (Qle_bool avg (inject_Z 0)) eqn:Hle; [ | reflexivity ].
    apply Qle_bool_iff in Hle. change (inject_Z 0) with 0%Q in Hle. lra.
Qed.

(** C7, as amended.  When the overall average is present and the goal is
    not achieved (the test [average <= target] fails), the percentage of
    a returned program evaluation is [int(target / average * 100)]
    evaluated in the arithmetic of the grades when the average is above
    zero - the truncation toward zero of the product, every operation
    rounded in binary64 - and 0 otherwise; neither the clock nor the
    target date enters it.  In unrounded arithmetic, for a target grade
    that is not negative, it is the floor of [target / average * 100]. *)
Theorem overall_percent_truncated_product :
  (forall (N : PyNumber) (now : datetime) (date : option string)
          (target avg : num) (r : OverallZiel),
      num_leb avg target = false ->
      overall_ziel now date target (Some avg) = Ok r ->
      (num_ltb (of_int 0) avg = true ->
       num_to_int (num_mul (num_quot target avg) (of_int 100))
       = Ok (overall_fortschritt_prozent r))
      /\ (num_ltb (of_int 0) avg = false -> overall_fortschritt_prozent r = 0))
  /\ (forall target avg : Q,
        (0 <= target)%Q -> (0 < avg)%Q ->
        @fortschritt_prozent exact target avg
        = Ok (Qfloor (target / avg * 100))).
Proof.
  split.
  - intros N now date target avg r Hgoal Hret.
    pose proof (overall_ziel_prozent now date target avg r Hgoal Hret) as Hp.
    split; intros Hsign.
    + rewrite <- Hp. symmetry. apply fortschritt_prozent_positive. exact Hsign.
    + rewrite fortschritt_prozent_nonpositive in Hp by exact Hsign.
      injection Hp as <-. reflexivity.
  - exact exact_percent_floor.
Qed.

Lemma overall_percent_truncated_product_witness :
  F64.to_int (F64.mul (F64.div (F64.lit 18125 4) (F64.lit 3125 3)) (F64.of_Z 100))
  = Ok 57.
Proof.
  apply (proj1 overall_percent_truncated_product binary64 neujahr2024 jahr2030
           (F64.lit 18125 4) (F64.lit 3125 3) ziel_1_8125).
  - vm_compute. reflexivity.
  - vm_compute. reflexivity.
  - vm_compute. reflexivity.
Defined.

(** C7 fails in binary64: for the target grade 1.8125 and the overall
    average 3.125, both exact doubles, [1.8125 / 3.125 * 100] is 58 and
    so is its floor; the evaluation returns 57.  For the target grade
    -1.0 and the overall average 3.0 the rounded product is
    -33.33333333333333, its floor is -34, and the evaluation returns
    -33. *)
Lemma binary64_percent_below_floor :
  let target := F64.lit 18125 4 in
  let avg := F64.lit 3125 3 in
  let product := F64.mul (F64.div (F64.of_Z (-1)) (F64.of_Z 3)) (F64.of_Z 100) in
  (F64.value target == 29 # 16)%Q /\ (F64.value avg == 25 # 8)%Q
  /\ F64.ltb target avg = true /\ F64.ltb (F64.of_Z 0) avg = true
  /\ Qfloor (F64.value target / F64.value avg * 100) = 58
  /\ (exists r : OverallZiel,
        overall_ziel neujahr2024 jahr2030 target (Some avg) = Ok r
        /\ overall_fortschritt_prozent r = 57)
  /\ Qfloor (F64.value product) = -34
  /\ (exists r : OverallZiel,
        overall_ziel neujahr2024 jahr2030 (F64.of_Z (-1)) (Some (F64.of_Z 3))
        = Ok r
        /\ overall_fortschritt_prozent r = -33).
Proof.
  cbv zeta. do 5 (split; [ vm_compute; reflexivity | ]).
  split; [ exists ziel_1_8125; split; vm_compute; reflexivity | ].
  split; [ vm_compute; reflexivity | ].
  eexists. split; vm_compute; reflexivity.
Qed.

(** ** The goal of a semester *)

(** A string either parses or raises [ValueError]. *)
Lemma strptime_string (s : string) (e : exn) :
  Datetime.strptime (Some s) = Raise e -> e = ValueError.
Proof.
  unfold Datetime.strptime.
  destruct (Datetime.regex_Ymd s) as [ [[[y m] d] rest] | ]; [ | congruence ].
  destruct rest; [ | congruence ].
  destruct ((y <? 1) || (Datetime.days_in_month y m <? d)); congruence.
Qed.

Lemma no_date_after (s : string) :
  Datetime.strptime (Some s) = Raise ValueError ->
  forall d : datetime, Datetime.strptime (Some s) <> Ok d.
Proof. intros H d. rewrite H. discriminate. Qed.

(** The time check at the target date: one microsecond before and at
    the target date the percentage is not above 100, one microsecond
    after it is. *)
Example zeit_prozent_boundary :
  let ziel := Datetime.of_ymd 2024 9 30 in
  (exists p, zeit_prozent (ziel - 1) ziel 180 = Ok p
             /\ F64.ltb (F64.of_Z 100) p = false)
  /\ zeit_prozent ziel ziel 180 = Ok (F64.of_Z 100)
  /\ (exists p, zeit_prozent (ziel + 1) ziel 180 = Ok p
                /\ F64.ltb (F64.of_Z 100) p = true).
Proof.
  cbv zeta. split; [ | split ].
  - eexists. split; vm_compute; reflexivity.
  - vm_compute. reflexivity.
  - eexists. split; vm_compute; reflexivity.
Qed.

Section SemesterZiel.

Context {N : PyNumber}.
Implicit Types (semester : Semester N) (avg : num) (now : datetime).

(** The goal of a semester with an average, by the outcome of the time
    check. *)
Lemma semester_ziel_graded now semester avg :
  semester_ziel now semester (Some avg) =
    match semester_zeit_prozent now semester with
    | Ok prozent =>
        if F64.ltb (F64.of_Z 100) prozent
        then Ok {| ziel_nachricht :=
                     noten_nachricht semester avg
                     +:+ " Achtung: Die Zeit für dieses Semester läuft ab!";
                   ziel_klasse := "ziel-verfehlt";
                   fortschritt_farbe := rot |}
        else Ok {| ziel_nachricht := noten_nachricht semester avg;
                   ziel_klasse := noten_klasse semester avg;
                   fortschritt_farbe :=
                     fortschritt_farbe_von (noten_klasse semester avg) |}
    | Raise ValueError =>
        Ok {| ziel_nachricht :=
                noten_nachricht semester avg
                +:+ " Fehler beim Berechnen des Zeitfortschritts.";
              ziel_klasse := "ziel-verfehlt";
              fortschritt_farbe := rot |}
    | Raise e => Raise e
    end.
Proof.
  unfold semester_ziel, zeitfortschritt, semester_zeit_prozent,
    noten_nachricht, noten_klasse.
  destruct (do target <- Datetime.strptime (target_date semester);
            zeit_prozent now target 180) as [ prozent | [ | | | ] ];
    try reflexivity.
  - destruct (F64.ltb (F64.of_Z 100) prozent);
      destruct (num_leb avg (target_grade semester)); reflexivity.
  - destruct (num_leb avg (target_grade semester)); reflexivity.
Qed.

End SemesterZiel.




(** The class of a returned goal, by cases. *)
Lemma semester_ziel_klasse (N : PyNumber) (now : datetime)
    (semester : Semester N) (average : option num) :
  ((exists z : Ziel,
       semester_ziel now semester average = Ok z
       /\ ziel_klasse z = "ziel-erreicht")
   <-> (exists (avg : num) (prozent : F64.float),
          average = Some avg
          /\ num_leb avg (target_grade semester) = true
          /\ semester_zeit_prozent now semester = Ok prozent
          /\ F64.ltb (F64.of_Z 100) prozent = false))
  /\ (forall z : Ziel,
        semester_ziel now semester average = Ok z ->
        (ziel_klasse z = "ziel-erreicht" /\ fortschritt_farbe z = gruen)
        \/ (ziel_klasse z = "ziel-gefaehrdet" /\ fortschritt_farbe z = orange)
        \/ (ziel_klasse z = "ziel-verfehlt" /\ fortschritt_farbe z = rot)).
Proof.
  destruct average as [ avg | ].
  - rewrite semester_ziel_graded. unfold noten_klasse.
    destruct (semester_zeit_prozent now semester) as [ prozent | e ].
    + destruct (F64.ltb (F64.of_Z 100) prozent) eqn:Hzeit;
        destruct (num_leb avg (target_grade semester)) eqn:Hnote.
      all: split;
        [ split;
          [ intros (z & [= <-] & Hk); simpl in Hk; try discriminate;
            exists avg, prozent; auto
          | intros (avg' & prozent' & [= <-] & Hn & [= <-] & Hz);
            try congruence; eexists; split; reflexivity ]
        | intros z [= <-]; simpl; auto ].
    + destruct e; split;
        try (split; [ intros (z & Hz & Hk); try discriminate;
                      injection Hz as <-; discriminate
                    | intros (avg' & prozent' & _ & _ & Hp & _); discriminate ]);
        try (intros z Hz; try discriminate; injection Hz as <-; simpl; auto).
  - split.
    + split.
      * intros (z & [= <-] & Hk). discriminate.
      * intros (avg & prozent & Habs & _). discriminate.
    + intros z [= <-]. simpl. auto.
Qed.

(** ** Rows and semesters *)

Section Rows.

Context {N : PyNumber}.
Implicit Types (row : Zeile.Semester N) (semester : Semester N)
  (now : datetime) (st : State).

(** With a target grade the goal of a row is the goal of the semester. *)
Lemma row_semester_ziel now row (target : num) (average : option num) :
  Zeile.target_grade row = Some target ->
  Zeile.semester_ziel now row average
  = semester_ziel now (with_target_grade row target) average.
Proof.
  intros Htarget. unfold Zeile.semester_ziel, semester_ziel, Zeile.le.
  rewrite Htarget. destruct average; reflexivity.
Qed.

(** Without a target grade the comparison of an average with it raises,
    before the target date is read. *)
Lemma row_semester_ziel_null now row (avg : num) :
  Zeile.target_grade row = None ->
  Zeile.semester_ziel now row (Some avg) = Raise TypeError.
Proof.
  intros Htarget. unfold Zeile.semester_ziel, Zeile.le. rewrite Htarget.
  reflexivity.
Qed.

Lemma row_semester_ziel_absent now row :
  Zeile.semester_ziel now row None
  = Ok {| ziel_nachricht := "Es gibt noch keine Noten in diesem Semester.";
          ziel_klasse := "ziel-gefaehrdet";
          fortschritt_farbe := orange |}.
Proof. reflexivity. Qed.

Lemma row_of_semester_ziel now semester (average : option num) :
  Zeile.semester_ziel now (row_of semester) average
  = semester_ziel now semester average.
Proof.
  unfold Zeile.semester_ziel, semester_ziel, Zeile.le.
  destruct average; reflexivity.
Qed.

(** The completion check of a row is the check of the semester, with
    whatever target grade. *)
Lemma row_semester_abschluss now row (target : num)
    (average : option num) st :
  Zeile.semester_abschluss now row average st
  = semester_abschluss now (with_target_grade row target) average st.
Proof. reflexivity. Qed.

Lemma row_abschluss_schleife now (target : Zeile.Semester N -> num)
    (rows : list (Zeile.Semester N * option num)) st :
  Zeile.abschluss_schleife now rows st
  = abschluss_schleife now
      (map (fun ra => (with_target_grade (fst ra) (target (fst ra)), snd ra))
           rows) st.
Proof.
  revert st. induction rows as [ | [row average] rows IH ]; intros st.
  - reflexivity.
  - cbn [Zeile.abschluss_schleife abschluss_schleife map fst snd].
    unfold bind. rewrite (row_semester_abschluss now row (target row)).
    destruct (semester_abschluss now (with_target_grade row (target row))
                average st) as [ [ [] | e ] st1 ].
    + apply IH.
    + reflexivity.
Qed.

End Rows.

(** ** The goal of a semester, decided by the dates *)

Lemma strptime_in_range (s : string) (t : datetime) :
  Datetime.strptime (Some s) = Ok t ->
  0 <= t <= Datetime.of_ymd 9999 12 31 /\ t mod Datetime.us_per_day = 0.
Proof.
  intros Hparse. apply DatetimeFacts.strptime_ymd in Hparse.
  destruct Hparse as (y & m & d & Hy & Hm & Hd & ->).
  apply DatetimeFacts.of_ymd_bounds; assumption.
Qed.

Lemma max_below_2_62 : Datetime.max < 2 ^ 62.
Proof. reflexivity. Qed.

(** The elapsed percentage exists when the start of the time span is a
    date, and it is above 100 exactly when the clock is past the target
    date. *)
Lemma zeit_prozent_abgelaufen (now target : datetime) (tage : Z) :
  0 <= now <= Datetime.max -> 0 < tage <= 50000 ->
  Datetime.days tage <= target <= Datetime.max ->
  exists prozent : F64.float,
    zeit_prozent now target tage = Ok prozent
    /\ F64.ltb (F64.of_Z 100) prozent = (target <? now).
Proof.
  intros Hnow Htage Htarget. unfold zeit_prozent, Datetime.sub.
  assert (Hrange : Datetime.in_range (target - Datetime.days tage) = true).
  { unfold Datetime.in_range. apply andb_true_iff.
    split; apply Z.leb_le; unfold Datetime.days, Datetime.us_per_day in *; lia. }
  rewrite Hrange. cbn [rbind]. eexists. split; [ reflexivity | ].
  pose proof max_below_2_62 as Hmax.
  unfold Datetime.days, Datetime.us_per_day in *.
  rewrite F64Rounding.percent_above_100.
  - destruct (Z.ltb_spec (tage * 86400000000)
                (now - (target - tage * 86400000000)));
      destruct (Z.ltb_spec target now); try reflexivity; lia.
  - lia.
  - change (2 ^ 52) with 4503599627370496. lia.
Qed.

(** The time check lets a goal stand exactly when the target date
    parses, the time span before it begins at a date, and no more than
    the time span has elapsed since then. *)
Lemma zeit_prozent_in_time (now : datetime) (date : option string)
    (tage : Z) :
  0 <= now <= Datetime.max -> 0 < tage <= 50000 ->
  (exists prozent : F64.float,
      (do target <- Datetime.strptime date; zeit_prozent now target tage)
      = Ok prozent
      /\ F64.ltb (F64.of_Z 100) prozent = false)
  <-> (exists ziel_datum : datetime,
         Datetime.strptime date = Ok ziel_datum
         /\ 0 <= ziel_datum - Datetime.days tage
         /\ now - (ziel_datum - Datetime.days tage) <= Datetime.days tage).
Proof.
  intros Hnow Htage.
  assert (Hmax : forall t, Datetime.strptime date = Ok t -> t <= Datetime.max).
  { intros t Hparse. destruct date as [ s | ]; [ | discriminate ].
    destruct (strptime_in_range s t Hparse) as [ [_ H] _ ].
    change (Datetime.of_ymd 9999 12 31) with 315537811200000000 in H.
    change Datetime.max with 315537897599999999. lia. }
  split.
  - intros (prozent & Hrun & Hzeit).
    destruct (Datetime.strptime date) as [ t | e ] eqn:Hparse;
      [ | discriminate ].
    cbn [rbind] in Hrun. exists t. split; [ reflexivity | ].
    assert (Hstart : 0 <= t - Datetime.days tage).
    { unfold zeit_prozent, Datetime.sub, Datetime.in_range in Hrun.
      destruct (Z.leb_spec 0 (t - Datetime.days tage)) as [ H | H ];
        [ exact H | discriminate ]. }
    split; [ exact Hstart | ].
    destruct (zeit_prozent_abgelaufen now t tage Hnow Htage)
      as (prozent' & Hrun' & Hzeit').
    { split; [ lia | apply Hmax; reflexivity ]. }
    rewrite Hrun in Hrun'. injection Hrun' as <-.
    rewrite Hzeit in Hzeit'. symmetry in Hzeit'. apply Z.ltb_ge in Hzeit'. lia.
  - intros (t & Hparse & Hstart & Helapsed). rewrite Hparse. cbn [rbind].
    destruct (zeit_prozent_abgelaufen now t tage Hnow Htage)
      as (prozent & Hrun & Hzeit).
    { split; [ lia | apply Hmax; exact Hparse ]. }
    exists prozent. split; [ exact Hrun | ].
    rewrite Hzeit. apply Z.ltb_ge. lia.
Qed.

(** C4.  The goal evaluation of a row of the table [semester], at a
    clock within the range of [datetime], returns the class
    "ziel-erreicht" if and only if the average is present, the target
    grade is there and the average is at most the target grade, the
    target date parses, the 180 days that end at the target date begin
    at a date, and the time elapsed since they began is at most 180
    days, that is at most 100 per cent of them.  Every returned class
    is one of "ziel-erreicht", "ziel-gefaehrdet" and "ziel-verfehlt",
    and the colour is green for the first, orange for the second and
    red for the third. *)
Theorem achieved_iff_on_target_in_time (N : PyNumber) (now : datetime)
    (semester : Zeile.Semester N) (average : option num) :
  0 <= now <= Datetime.max ->
  ((exists z : Ziel,
       Zeile.semester_ziel now semester average = Ok z
       /\ ziel_klasse z = "ziel-erreicht")
   <-> (exists (avg target : num) (ziel_datum : datetime),
          average = Some avg
          /\ Zeile.target_grade semester = Some target
          /\ num_leb avg target = true
          /\ Datetime.strptime (Zeile.target_date semester) = Ok ziel_datum
          /\ 0 <= ziel_datum - Datetime.days 180
          /\ now - (ziel_datum - Datetime.days 180) <= Datetime.days 180))
  /\ (forall z : Ziel,
        Zeile.semester_ziel now semester average = Ok z ->
        (ziel_klasse z = "ziel-erreicht" /\ fortschritt_farbe z = "#4CAF50")
        \/ (ziel_klasse z = "ziel-gefaehrdet"
            /\ fortschritt_farbe z = "#ff9800")
        \/ (ziel_klasse z = "ziel-verfehlt"
            /\ fortschritt_farbe z = "#f44336"))
  /\ fortschritt_farbe_von "ziel-erreicht" = "#4CAF50"
  /\ fortschritt_farbe_von "ziel-gefaehrdet" = "#ff9800"
  /\ fortschritt_farbe_von "ziel-verfehlt" = "#f44336".
Proof.
  intros Hnow.
  split; [ | split; [ | repeat split ] ].
  - destruct average as [ avg | ].
    2: { rewrite row_semester_ziel_absent. split.
         - intros (z & [= <-] & Hk). discriminate.
         - intros (avg & target & t & Habs & _). discriminate. }
    destruct (Zeile.target_grade semester) as [ target | ] eqn:Htarget.
    2: { rewrite (row_semester_ziel_null now semester avg Htarget). split.
         - intros (z & Hz & _). discriminate.
         - intros (avg' & target & t & _ & Habs & _). discriminate. }
    rewrite (row_semester_ziel now semester target (Some avg) Htarget).
    destruct (semester_ziel_klasse N now (with_target_grade semester target)
                (Some avg)) as [Hiff _].
    pose proof (zeit_prozent_in_time now (Zeile.target_date semester) 180
                  Hnow ltac:(lia)) as Hzeit.
    rewrite Hiff. unfold semester_zeit_prozent. simpl target_date.
    simpl target_grade. split.
    + intros (avg' & prozent & [= <-] & Hnote & Hrun & Hp).
      destruct (proj1 Hzeit) as (t & Ht); [ exists prozent; auto | ].
      exists avg, target, t. auto.
    + intros (avg' & target' & t & [= <-] & [= <-] & Hnote & Ht).
      destruct (proj2 Hzeit) as (prozent & Hrun & Hp); [ exists t; exact Ht | ].
      exists avg, prozent. auto.
  - intros z. destruct average as [ avg | ].
    2: { rewrite row_semester_ziel_absent. intros [= <-]. simpl. auto. }
    destruct (Zeile.target_grade semester) as [ target | ] eqn:Htarget.
    2: { rewrite (row_semester_ziel_null now semester avg Htarget).
         discriminate. }
    rewrite (row_semester_ziel now semester target (Some avg) Htarget).
    apply (semester_ziel_klasse N now (with_target_grade semester target)
             (Some avg)).
Qed.

Lemma achieved_iff_on_target_in_time_witness :
  exists z : Ziel,
    Zeile.semester_ziel neujahr2024 (row_of semester_ss2024)
      (Some (F64.of_Z 2)) = Ok z
    /\ ziel_klasse z = "ziel-erreicht".
Proof.
  apply (proj1 (achieved_iff_on_target_in_time binary64 neujahr2024
                  (row_of semester_ss2024) (Some (F64.of_Z 2))
                  ltac:(split; vm_compute; discriminate))).
  exists (F64.of_Z 2), (F64.of_Z 2), (Datetime.of_ymd 2024 9 30).
  split; [ reflexivity | ].
  split; [ reflexivity | ].
  split; [ vm_compute; reflexivity | ].
  split; [ vm_compute; reflexivity | ].
  split; vm_compute; discriminate.
Defined.

(** ** The completion check *)

Section Abschluss.

Context {N : PyNumber}.
Implicit Types (semester : Semester N) (avg : num) (now : datetime)
  (st : State).

Lemma abschluss_melden_eq semester avg st :
  abschluss_melden semester avg st
  = (Ok tt, if flagge st (id semester) then st else gemeldet semester avg st).
Proof.
  unfold abschluss_melden, bind, session_get, flagge.
  destruct (default false (session st !! id semester)); reflexivity.
Qed.

(** The completion check of a semester with an average, by the outcome
    of the transition condition. *)
Lemma semester_abschluss_graded now semester avg st :
  semester_abschluss now semester (Some avg) st =
    match uebergang now semester with
    | Ok true => abschluss_melden semester avg st
    | Ok false => session_set (id semester) false st
    | Raise ValueError => flash (zieldatum_nachricht semester) "danger" st
    | Raise e => (Raise e, st)
    end.
Proof.
  unfold semester_abschluss, uebergang.
  destruct (Datetime.strptime (target_date semester))
    as [ ziel_datum | [ | | | ] ]; simpl; try reflexivity.
  unfold bind, lift, Datetime.add.
  destruct (Datetime.in_range _); simpl; [ | reflexivity ].
  destruct (_ <? now); simpl; [ reflexivity | ].
  destruct (alle_benotet semester); reflexivity.
Qed.

(** The check of one semester leaves the flags of the other ids as they
    were. *)
Lemma semester_abschluss_other now semester (average : option num) st (key : Z) :
  key <> id semester ->
  session (snd (semester_abschluss now semester average st)) !! key
  = session st !! key.
Proof.
  intros Hkey. destruct average as [ avg | ]; [ | reflexivity ].
  rewrite semester_abschluss_graded.
  destruct (uebergang now semester) as [ [ | ] | [ | | | ] ];
    try reflexivity.
  - rewrite abschluss_melden_eq. simpl.
    destruct (flagge st (id semester)); [ reflexivity | ].
    simpl. apply lookup_insert_ne. congruence.
  - simpl. apply lookup_insert_ne. congruence.
Qed.

Lemma abschluss_schleife_cons now semester (average : option num)
    (rest : list (Semester N * option num)) st :
  abschluss_schleife now ((semester, average) :: rest) st =
    match semester_abschluss now semester average st with
    | (Ok _, st1) => abschluss_schleife now rest st1
    | (Raise e, st1) => (Raise e, st1)
    end.
Proof. reflexivity. Qed.

Lemma abschluss_schleife_other now
    (semesters : list (Semester N * option num)) st (key : Z) :
  ~ In key (ids semesters) ->
  session (snd (abschluss_schleife now semesters st)) !! key
  = session st !! key.
Proof.
  revert st. induction semesters as [ | [semester average] rest IH ];
    intros st Hkey.
  - reflexivity.
  - rewrite abschluss_schleife_cons. simpl in Hkey.
    pose proof (semester_abschluss_other now semester average st key) as Hstep.
    destruct (semester_abschluss now semester average st) as [ [ [] | e ] st1 ];
      simpl in *.
    + rewrite IH by tauto. apply Hstep. intros ->. tauto.
    + apply Hstep. intros ->. tauto.
Qed.

(** The loop over a list in two pieces. *)
Lemma abschluss_schleife_app now
    (pre rest : list (Semester N * option num)) st :
  abschluss_schleife now (pre ++ rest) st =
    match abschluss_schleife now pre st with
    | (Ok _, st1) => abschluss_schleife now rest st1
    | (Raise e, st1) => (Raise e, st1)
    end.
Proof.
  revert st. induction pre as [ | [semester average] pre IH ]; intros st.
  - reflexivity.
  - rewrite <- app_comm_cons, !abschluss_schleife_cons.
    destruct (semester_abschluss now semester average st) as [ [ [] | e ] st1 ].
    + apply IH.
    + reflexivity.
Qed.

Lemma zurueckgesetzt_iff now semester (average : option num) :
  zurueckgesetzt now semester average = true <->
  exists (avg : num) (ziel_datum grenze : datetime),
    average = Some avg
    /\ Datetime.strptime (target_date semester) = Ok ziel_datum
    /\ Datetime.add ziel_datum (Datetime.days 30) = Ok grenze
    /\ now <= grenze
    /\ alle_benotet semester = false.
Proof.
  unfold zurueckgesetzt, uebergang. split.
  - destruct average as [ avg | ]; [ | discriminate ].
    destruct (Datetime.strptime (target_date semester)) as [ ziel_datum | e ];
      simpl; [ | discriminate ].
    fold (Datetime.days 30).
    destruct (Datetime.add ziel_datum (Datetime.days toleranz_tage))
      as [ grenze | e ] eqn:Hadd; simpl; [ | discriminate ].
    destruct (Z.ltb_spec grenze now) as [ Hlt | Hge ]; simpl; [ discriminate | ].
    destruct (alle_benotet semester) eqn:Hall; [ discriminate | ].
    intros _. exists avg, ziel_datum, grenze. auto.
  - intros (avg & ziel_datum & grenze & -> & -> & Hadd & Hnow & ->). simpl.
    change (Datetime.days toleranz_tage) with (Datetime.days 30).
    rewrite Hadd. simpl.
    destruct (Z.ltb_spec grenze now); [ lia | reflexivity ].
Qed.

End Abschluss.

(** C10.  For a semester without an average, whatever its target date
    and whatever the clock, the goal evaluation returns the class
    "ziel-gefaehrdet", the colour orange and the message that there are
    no grades yet; the completion check returns with the session and
    the flashed messages as they were, for every state; and the
    completion loop over a list runs as if the semester were not in
    it. *)
Theorem absent_average_at_risk (N : PyNumber) (now : datetime)
    (semester : Semester N) :
  semester_ziel now semester None
  = Ok {| ziel_nachricht := "Es gibt noch keine Noten in diesem Semester.";
          ziel_klasse := "ziel-gefaehrdet";
          fortschritt_farbe := orange |}
  /\ (forall st : State, semester_abschluss now semester None st = (Ok tt, st))
  /\ (forall (pre post : list (Semester N * option num)) (st : State),
        abschluss_schleife now (pre ++ (semester, None) :: post) st
        = abschluss_schleife now (pre ++ post) st).
Proof.
  split; [ reflexivity | ]. split; [ reflexivity | ].
  intros pre post st. rewrite !abschluss_schleife_app.
  destruct (abschluss_schleife now pre st) as [ [ [] | e ] st1 ]; reflexivity.
Qed.

(** The transition condition holds when the target date parses, 30
    days later is still a date, and the clock is past that date or
    every unit has a grade. *)
Lemma uebergang_true {N : PyNumber} (now : datetime) (semester : Semester N) :
  uebergang now semester = Ok true
  <-> exists ziel_datum grenze : datetime,
        Datetime.strptime (target_date semester) = Ok ziel_datum
        /\ Datetime.add ziel_datum (Datetime.days 30) = Ok grenze
        /\ (grenze < now \/ alle_benotet semester = true).
Proof.
  unfold uebergang. change (Datetime.days toleranz_tage) with (Datetime.days 30).
  split.
  - destruct (Datetime.strptime (target_date semester)) as [ ziel_datum | e ];
      simpl; [ | discriminate ].
    destruct (Datetime.add ziel_datum (Datetime.days 30)) as [ grenze | e ]
      eqn:Hadd; simpl; [ | discriminate ].
    intros [= Hcond]. exists ziel_datum, grenze.
    split; [ reflexivity | ]. split; [ exact Hadd | ].
    apply orb_prop in Hcond. destruct Hcond as [ H | H ].
    + left. apply Z.ltb_lt. exact H.
    + right. exact H.
  - intros (ziel_datum & grenze & -> & Hadd & Hcond). simpl. rewrite Hadd.
    simpl. f_equal. apply orb_true_iff.
    destruct Hcond as [ H | H ]; [ left; apply Z.ltb_lt; exact H | right; exact H ].
Qed.

(** The transition condition is not evaluated for a target date that is
    a string and does not parse. *)
Lemma uebergang_unparsable {N : PyNumber} (now : datetime)
    (semester : Semester N) (s : string) :
  target_date semester = Some s ->
  (forall d : datetime, Datetime.strptime (Some s) <> Ok d) ->
  uebergang now semester = Raise ValueError.
Proof.
  intros Hdate Hfail. unfold uebergang. rewrite Hdate.
  destruct (Datetime.strptime (Some s)) as [ d | e ] eqn:Hparse.
  - exfalso. apply (Hfail d). reflexivity.
  - rewrite (strptime_string s e Hparse). reflexivity.
Qed.

(** C1, as amended.  For a semester with a present average whose
    transition condition is evaluated - the target date parses and 30
    days later is still a date - and holds, the clock being past that
    date or every unit being graded: when the stored flag is not set,
    the completion check flashes exactly one message, of category
    "success", with the name of the semester and the average to two
    decimals, and stores the flag as true.  When the stored flag is
    true, the check of that semester flashes no completion message: the
    flashed messages stay as they were, or gain the one report of a
    target date that does not parse.  In the loop over semesters with
    distinct ids the check of the semester that completes adds that one
    message to what the earlier semesters left, and its flag is true
    when the loop ends.  For a semester with a present average whose
    target date is a string that does not parse, whatever the clock,
    the grades and the stored flag are, the check flashes the one
    report of the date format, of category "danger", and nothing else,
    and leaves the session as it was; in the loop over semesters with
    distinct ids its flag is after the loop what it was before. *)
Theorem completion_notified_once :
  (forall (N : PyNumber) (now : datetime) (semester : Semester N)
          (avg : num) (st : State),
      uebergang now semester = Ok true ->
      flagge st (id semester) = false ->
      semester_abschluss now semester (Some avg) st
      = (Ok tt,
         {| session := <[id semester := true]> (session st);
            flashes := flashes st
                       ++ [("Das Semester '" +:+ name semester
                            +:+ "' ist abgeschlossen! Durchschnittsnote: "
                            +:+ num_format_2f avg, "success")] |}))
  /\ (forall (N : PyNumber) (now : datetime) (semester : Semester N)
            (average : option num) (st : State),
        flagge st (id semester) = true ->
        flashes (snd (semester_abschluss now semester average st)) = flashes st
        \/ (uebergang now semester = Raise ValueError
            /\ flashes (snd (semester_abschluss now semester average st))
               = flashes st ++ [(zieldatum_nachricht semester, "danger")]))
  /\ (forall (N : PyNumber) (now : datetime)
            (pre post : list (Semester N * option num))
            (semester : Semester N) (avg : num) (st st1 : State),
        abschluss_schleife now pre st = (Ok tt, st1) ->
        ~ In (id semester) (ids pre) ->
        ~ In (id semester) (ids post) ->
        uebergang now semester = Ok true ->
        flagge st (id semester) = false ->
        abschluss_schleife now (pre ++ (semester, Some avg) :: post) st
        = abschluss_schleife now post (gemeldet semester avg st1)
        /\ flagge (snd (abschluss_schleife now
                          (pre ++ (semester, Some avg) :: post) st))
             (id semester) = true)
  /\ (forall (N : PyNumber) (now : datetime) (semester : Semester N),
        uebergang now semester = Ok true
        <-> exists ziel_datum grenze : datetime,
              Datetime.strptime (target_date semester) = Ok ziel_datum
              /\ Datetime.add ziel_datum (Datetime.days 30) = Ok grenze
              /\ (grenze < now \/ alle_benotet semester = true))
  /\ (forall (N : PyNumber) (now : datetime) (semester : Semester N)
            (avg : num) (s : string) (st : State),
        target_date semester = Some s ->
        (forall d : datetime, Datetime.strptime (Some s) <> Ok d) ->
        semester_abschluss now semester (Some avg) st
        = (Ok tt,
           {| session := session st;
              flashes := flashes st
                         ++ [("Ungültiges Zieldatum Format für Semester "
                              +:+ name semester
                              +:+ ". Bitte verwenden Sie das Format JJJJ-MM-TT.",
                              "danger")] |}))
  /\ (forall (N : PyNumber) (now : datetime)
            (pre post : list (Semester N * option num))
            (semester : Semester N) (avg : num) (s : string) (st : State),
        target_date semester = Some s ->
        (forall d : datetime, Datetime.strptime (Some s) <> Ok d) ->
        ~ In (id semester) (ids pre) ->
        ~ In (id semester) (ids post) ->
        session (snd (abschluss_schleife now
                        (pre ++ (semester, Some avg) :: post) st))
          !! id semester
        = session st !! id semester).
Proof.
  split; [ | split; [ | split; [ | split; [ | split ] ] ] ].
  - intros N now semester avg st Hcond Hflag.
    rewrite semester_abschluss_graded, Hcond, abschluss_melden_eq, Hflag.
    reflexivity.
  - intros N now semester average st Hflag.
    destruct average as [ avg | ]; [ | left; reflexivity ].
    rewrite semester_abschluss_graded.
    destruct (uebergang now semester) as [ [ | ] | [ | | | ] ];
      try (left; reflexivity).
    + left. rewrite abschluss_melden_eq, Hflag. reflexivity.
    + right. split; reflexivity.
  - intros N now pre post semester avg st st1 Hpre Hnpre Hnpost Hcond Hflag.
    assert (Hflag1 : flagge st1 (id semester) = false).
    { unfold flagge in *.
      pose proof (abschluss_schleife_other now pre st (id semester) Hnpre) as H.
      rewrite Hpre in H. simpl in H. rewrite H. exact Hflag. }
    assert (Hrun : abschluss_schleife now (pre ++ (semester, Some avg) :: post) st
                   = abschluss_schleife now post (gemeldet semester avg st1)).
    { rewrite abschluss_schleife_app, Hpre, abschluss_schleife_cons.
      rewrite semester_abschluss_graded, Hcond, abschluss_melden_eq, Hflag1.
      reflexivity. }
    split; [ exact Hrun | ].
    rewrite Hrun. unfold flagge.
    rewrite (abschluss_schleife_other now post _ (id semester) Hnpost).
    simpl. rewrite lookup_insert_eq. reflexivity.
  - intros N now semester. apply uebergang_true.
  - intros N now semester avg s st Hdate Hfail.
    rewrite semester_abschluss_graded.
    rewrite (uebergang_unparsable now semester s Hdate Hfail). reflexivity.
  - intros N now pre post semester avg s st Hdate Hfail Hnpre Hnpost.
    rewrite abschluss_schleife_app.
    pose proof (abschluss_schleife_other now pre st (id semester) Hnpre) as Hpre.
    destruct (abschluss_schleife now pre st) as [ [ [] | e ] st1 ];
      simpl in Hpre; [ | exact Hpre ].
    rewrite abschluss_schleife_cons, semester_abschluss_graded.
    rewrite (uebergang_unparsable now semester s Hdate Hfail).
    unfold flash.
    rewrite (abschluss_schleife_other now post _ (id semester) Hnpost).
    exact Hpre.
Qed.

Lemma completion_notified_once_witness :
  semester_abschluss neujahr2024 semester_ss2024 (Some (F64.of_Z 2)) leer
  = (Ok tt,
     {| session := <[2 := true]> ∅;
        flashes := [("Das Semester 'SS 2024' ist abgeschlossen! Durchschnittsnote: 2.00",
                     "success")] |}).
Proof.
  apply (proj1 completion_notified_once binary64 neujahr2024 semester_ss2024
           (F64.of_Z 2) leer).
  - vm_compute. reflexivity.
  - reflexivity.
Defined.

(** C1 fails for a target date that does not parse: every unit is
    graded, the average is present and the flag is not set, and the
    completion check flashes the report of the date, of category
    "danger", and stores no flag. *)
Lemma completion_unparsable_date :
  let semester := semester_kein_datum [unit64 6 17 1; unit64 6 23 1] in
  calculate_weighted_average (modules semester) = Ok (Some (F64.of_Z 2))
  /\ alle_benotet semester = true
  /\ flagge leer (id semester) = false
  /\ semester_abschluss neujahr2024 semester (Some (F64.of_Z 2)) leer
     = (Ok tt,
        {| session := ∅;
           flashes := [("Ungültiges Zieldatum Format für Semester WS 2023. Bitte verwenden Sie das Format JJJJ-MM-TT.",
                        "danger")] |}).
Proof.
  cbv zeta. split; [ vm_compute; reflexivity | ].
  split; [ reflexivity | ]. split; [ reflexivity | ].
  apply (semester_abschluss_graded (N := binary64)).
Qed.

(** C2, as amended.  When the stored flag of a semester is true, the
    completion check of that semester leaves it true, except when the
    average is present, the target date parses, 30 days later is still a
    date, the clock is not past that date and some unit has no grade: in
    exactly that case it stores false.  The checks of semesters with
    other ids, and so the loop over them, do not change the flag. *)
Theorem completion_flag_after_check :
  (forall (N : PyNumber) (now : datetime) (semester : Semester N)
          (average : option num) (st : State),
      session st !! id semester = Some true ->
      session (snd (semester_abschluss now semester average st)) !! id semester
      = Some (negb (zurueckgesetzt now semester average)))
  /\ (forall (N : PyNumber) (now : datetime) (semester : Semester N)
            (average : option num),
        zurueckgesetzt now semester average = true <->
        exists (avg : num) (ziel_datum grenze : datetime),
          average = Some avg
          /\ Datetime.strptime (target_date semester) = Ok ziel_datum
          /\ Datetime.add ziel_datum (Datetime.days 30) = Ok grenze
          /\ now <= grenze
          /\ alle_benotet semester = false)
  /\ (forall (N : PyNumber) (now : datetime)
            (semesters : list (Semester N * option num)) (st : State) (key : Z),
        ~ In key (ids semesters) ->
        session (snd (abschluss_schleife now semesters st)) !! key
        = session st !! key).
Proof.
  split; [ | split ].
  - intros N now semester average st Hflag. unfold zurueckgesetzt.
    destruct average as [ avg | ]; [ | exact Hflag ].
    rewrite semester_abschluss_graded.
    destruct (uebergang now semester) as [ [ | ] | [ | | | ] ];
      try exact Hflag.
    + rewrite abschluss_melden_eq. unfold flagge. rewrite Hflag. exact Hflag.
    + simpl. apply lookup_insert_eq.
  - intros N now semester average. apply zurueckgesetzt_iff.
  - intros N now semesters st key. apply abschluss_schleife_other.
Qed.

Lemma completion_flag_after_check_witness :
  session (snd (semester_abschluss neujahr2024 semester_ss2024
                  (Some (F64.of_Z 2)) (gesetzt 2))) !! 2
  = Some true.
Proof.
  apply (proj1 completion_flag_after_check binary64 neujahr2024 semester_ss2024
           (Some (F64.of_Z 2)) (gesetzt 2)).
  apply lookup_singleton_eq.
Defined.

(** C2 fails on the code: a semester whose flag is stored as true, with
    one graded and one ungraded unit and a target date still ahead, has
    the flag false after the completion loop. *)
Lemma completion_flag_lowered :
  calculate_weighted_average (modules semester_offen) = Ok (Some (F64.lit 17 1))
  /\ session (gesetzt 3) !! id semester_offen = Some true
  /\ abschluss_schleife neujahr2024
       [(semester_offen, Some (F64.lit 17 1))] (gesetzt 3)
     = (Ok tt, {| session := <[3 := false]> {[ 3 := true ]}; flashes := [] |})
  /\ session (snd (abschluss_schleife neujahr2024
                     [(semester_offen, Some (F64.lit 17 1))] (gesetzt 3)))
       !! id semester_offen
     = Some false.
Proof.
  split; [ vm_compute; reflexivity | ].
  split; [ apply lookup_singleton_eq | ].
  assert (Hrun : abschluss_schleife neujahr2024
                   [(semester_offen, Some (F64.lit 17 1))] (gesetzt 3)
                 = (Ok tt, {| session := <[3 := false]> {[ 3 := true ]};
                              flashes := [] |})).
  { vm_compute. reflexivity. }
  split; [ exact Hrun | ].
  rewrite Hrun. simpl. apply lookup_insert_eq.
Qed.

(** ** The pass as a whole *)

Lemma for_each_Forall2 {A B : Type} (f : A -> result B) (l : list A)
    (bs : list B) :
  for_each f l = Ok bs -> Forall2 (fun a b => f a = Ok b) l bs.
Proof.
  revert bs. induction l as [ | a l IH ]; intros bs; simpl.
  - intros [= <-]. constructor.
  - destruct (f a) as [ b | e ] eqn:Hfa; simpl; [ | discriminate ].
    destruct (for_each f l) as [ bs' | e ]; simpl; [ | discriminate ].
    intros [= <-]. constructor; [ exact Hfa | apply IH; reflexivity ].
Qed.

(** A pass that returns has paired every semester with the result of
    [calculate_weighted_average] on its units, evaluated the goal of
    every semester and the overall goal on these averages, and run the
    completion loop over them: the state it leaves is the state the
    loop leaves. *)
Lemma dashboard_returns {N : PyNumber} (now : datetime)
    (semesters : list (Semester N)) (date : option string) (grade : num)
    (st st' : State) (a : Auswertung) :
  dashboard now semesters date grade st = (Ok a, st') ->
  Forall2 (fun semester sa =>
             calculate_weighted_average (modules semester) = Ok (snd sa)
             /\ fst sa = semester) semesters (averages a)
  /\ calculate_weighted_average (concat (map modules semesters))
     = Ok (total_average a)
  /\ Forall2 (fun sa z => semester_ziel now (fst sa) (snd sa) = Ok z)
       (averages a) (ziele a)
  /\ overall_ziel now date grade (total_average a) = Ok (overall a)
  /\ abschluss_schleife now (averages a) st = (Ok tt, st').
Proof.
  unfold dashboard, bind, lift, ret.
  destruct (for_each _ semesters) as [ avgs | e ] eqn:Havgs; [ | discriminate ].
  destruct (calculate_weighted_average _) as [ total | e ] eqn:Htotal;
    [ | discriminate ].
  destruct (for_each _ avgs) as [ zs | e ] eqn:Hzs; [ | discriminate ].
  destruct (overall_ziel _ _ _ _) as [ ov | e ] eqn:Hov; [ | discriminate ].
  destruct (abschluss_schleife now avgs st) as [ [ [] | e ] st1 ] eqn:Hloop;
    [ | discriminate ].
  intros [= <- <-]. simpl.
  split; [ | split; [ | split; [ | split ] ] ].
  - apply for_each_Forall2 in Havgs.
    eapply Forall2_impl; [ exact Havgs | ].
    intros semester sa Hsa. simpl in Hsa.
    destruct (calculate_weighted_average (modules semester)) as [ avg | e ];
      simpl in Hsa; [ | discriminate ].
    injection Hsa as <-. split; reflexivity.
  - reflexivity.
  - apply for_each_Forall2 in Hzs. exact Hzs.
  - exact Hov.
  - exact Hloop.
Qed.

(** * Part IV: further properties of the evaluation *)

(** ** When there is an average *)

(** X1.  [calculate_weighted_average] raises nothing, whatever the
    grades and the credits: it returns an average exactly when the
    credits of the graded units sum to more than zero, and [None]
    exactly when they sum to zero or less. *)
Theorem average_present_iff (N : PyNumber) (modules : list (Module_ N)) :
  ((exists avg : num, calculate_weighted_average modules = Ok (Some avg))
   <-> 0 < sum_Z (weights modules))
  /\ (calculate_weighted_average modules = Ok None
      <-> sum_Z (weights modules) <= 0).
Proof.
  destruct (Z.lt_ge_cases 0 (sum_Z (weights modules))) as [ Hpos | Hle ].
  - rewrite (average_positive modules Hpos). split; split.
    + intros _. exact Hpos.
    + intros _. eexists. reflexivity.
    + discriminate.
    + lia.
  - rewrite (average_absent modules Hle). split; split.
    + intros [avg Havg]. discriminate.
    + lia.
    + intros _. exact Hle.
    + reflexivity.
Qed.

Lemma graded_none {N : PyNumber} (modules : list (Module_ N)) :
  Forall (fun module => grade module = None) modules -> graded modules = [].
Proof.
  induction 1 as [ | module rest Hnone _ IH ]; simpl.
  - reflexivity.
  - rewrite Hnone. exact IH.
Qed.

Lemma average_none {N : PyNumber} (modules : list (Module_ N)) :
  Forall (fun module => grade module = None) modules ->
  calculate_weighted_average modules = Ok None.
Proof.
  intros Hnone. apply average_absent.
  unfold sum_Z, weights. rewrite (graded_none modules Hnone). simpl. lia.
Qed.

(** ** The overall goal *)

(** The message and the class that the grade test of the overall goal
    sets. *)
Definition overall_noten_nachricht {N : PyNumber} (target avg : num) : string :=
  if num_leb avg target
  then "Du bist auf einem guten Weg, dein Gesamtziel zu erreichen!"
  else "Du musst dich noch etwas anstrengen, um deine Gesamtzielnote zu erreichen.".

Definition overall_noten_klasse {N : PyNumber} (target avg : num) : string :=
  if num_leb avg target then "ziel-erreicht" else "ziel-gefaehrdet".

(** The percentage that the grade test of the overall goal sets. *)
Definition overall_noten_prozent {N : PyNumber} (target avg : num) : result Z :=
  if num_leb avg target then Ok 100 else fortschritt_prozent target avg.

(** The elapsed percentage of the three years before the overall target
    date, as the time check computes it. *)
Definition overall_zeit_prozent (now : datetime) (date : option string)
  : result F64.float :=
  do target <- Datetime.strptime date;
  zeit_prozent now target (3 * 365).

(** The overall goal with an average, by the outcome of the percentage
    and of the time check. *)
Lemma overall_ziel_graded {N : PyNumber} (now : datetime)
    (date : option string) (target avg : num) :
  overall_ziel now date target (Some avg) =
    do prozent <- overall_noten_prozent target avg;
    match overall_zeit_prozent now date with
    | Ok zeit =>
        if F64.ltb (F64.of_Z 100) zeit
        then Ok {| overall_ziel_nachricht :=
                     overall_noten_nachricht target avg
                     +:+ " Achtung: Die Zeit für dein Studium läuft ab!";
                   overall_ziel_klasse := "ziel-verfehlt";
                   overall_fortschritt_prozent := prozent;
                   overall_fortschritt_farbe := rot |}
        else Ok {| overall_ziel_nachricht := overall_noten_nachricht target avg;
                   overall_ziel_klasse := overall_noten_klasse target avg;
                   overall_fortschritt_prozent := prozent;
                   overall_fortschritt_farbe :=
                     fortschritt_farbe_von (overall_noten_klasse target avg) |}
    | Raise ValueError =>
        Ok {| overall_ziel_nachricht :=
                overall_noten_nachricht target avg
                +:+ " Fehler beim Berechnen des Zeitfortschritts.";
              overall_ziel_klasse := "ziel-verfehlt";
              overall_fortschritt_prozent := prozent;
              overall_fortschritt_farbe := rot |}
    | Raise e => Raise e
    end.
Proof.
  unfold overall_ziel, overall_noten_prozent, overall_noten_nachricht,
    overall_noten_klasse, overall_zeit_prozent, zeitfortschritt.
  destruct (num_leb avg target).
  - destruct (do target0 <- Datetime.strptime date;
              zeit_prozent now target0 (3 * 365)) as [ zeit | [ | | | ] ];
      try reflexivity.
    destruct (F64.ltb (F64.of_Z 100) zeit); reflexivity.
  - destruct (fortschritt_prozent target avg) as [ prozent | e ];
      [ | reflexivity ].
    destruct (do target0 <- Datetime.strptime date;
              zeit_prozent now target0 (3 * 365)) as [ zeit | [ | | | ] ];
      try reflexivity.
    destruct (F64.ltb (F64.of_Z 100) zeit); reflexivity.
Qed.

(** X2.  The overall goal is returned with the class "ziel-erreicht" if
    and only if the overall average is present, is at most the overall
    target grade, and the elapsed percentage of the three years that end
    at the overall target date, as the time check computes it, is not
    above 100.  The percentage of a returned overall goal is 100
    whenever the average is at most the target grade, also when the
    time check has turned the class into "ziel-verfehlt". *)
Theorem overall_achieved_iff (N : PyNumber) (now : datetime)
    (date : option string) (target : num) (total_average : option num) :
  ((exists r : OverallZiel,
       overall_ziel now date target total_average = Ok r
       /\ overall_ziel_klasse r = "ziel-erreicht")
   <-> (exists (avg : num) (zeit : F64.float),
          total_average = Some avg
          /\ num_leb avg target = true
          /\ overall_zeit_prozent now date = Ok zeit
          /\ F64.ltb (F64.of_Z 100) zeit = false))
  /\ (forall (avg : num) (r : OverallZiel),
        total_average = Some avg ->
        num_leb avg target = true ->
        overall_ziel now date target total_average = Ok r ->
        overall_fortschritt_prozent r = 100).
Proof.
  destruct total_average as [ avg | ].
  - rewrite overall_ziel_graded.
    unfold overall_noten_prozent, overall_noten_klasse.
    destruct (num_leb avg target) eqn:Hnote; cbn [rbind].
    + destruct (overall_zeit_prozent now date) as [ zeit | e ].
      * destruct (F64.ltb (F64.of_Z 100) zeit) eqn:Hzeit; split.
        -- split.
           ++ intros (r & [= <-] & Hk). discriminate.
           ++ intros (avg' & zeit' & _ & _ & [= <-] & Hz). congruence.
        -- intros avg' r _ _ [= <-]. reflexivity.
        -- split.
           ++ intros _. exists avg, zeit. auto.
           ++ intros _. eexists. split; reflexivity.
        -- intros avg' r _ _ [= <-]. reflexivity.
      * split.
        -- split.
           ++ intros (r & Hr & Hk). destruct e; try discriminate.
              injection Hr as <-. discriminate.
           ++ intros (avg' & zeit' & _ & _ & Hz & _). discriminate.
        -- intros avg' r _ _ Hr. destruct e; try discriminate.
           injection Hr as <-. reflexivity.
    + split.
      * split.
        -- intros (r & Hr & Hk).
           destruct (fortschritt_prozent target avg) as [ p | e ]; cbn [rbind] in Hr;
             [ | discriminate ].
           destruct (overall_zeit_prozent now date) as [ zeit | e ].
           ++ destruct (F64.ltb (F64.of_Z 100) zeit);
                injection Hr as <-; discriminate.
           ++ destruct e; try discriminate. injection Hr as <-. discriminate.
        -- intros (avg' & zeit' & [= <-] & Hn & _). congruence.
      * intros avg' r [= <-] Hn. congruence.
  - split.
    + split.
      * intros (r & [= <-] & Hk). discriminate.
      * intros (avg & zeit & Habs & _). discriminate.
    + intros avg r Habs. discriminate.
Qed.

Lemma overall_achieved_iff_witness :
  exists r : OverallZiel,
    overall_ziel neujahr2024 jahr2030 (F64.of_Z 2) (Some (F64.lit 17 1)) = Ok r
    /\ overall_ziel_klasse r = "ziel-erreicht".
Proof.
  apply (proj1 (overall_achieved_iff binary64 neujahr2024 jahr2030
                  (F64.of_Z 2) (Some (F64.lit 17 1)))).
  exists (F64.lit 17 1). eexists.
  split; [ reflexivity | ].
  split; [ vm_compute; reflexivity | ].
  split; [ vm_compute; reflexivity | ].
  vm_compute. reflexivity.
Defined.

(** X3.  For a present overall average and an overall target date that
    is a string which does not parse, the overall goal is returned with
    the class "ziel-verfehlt", the colour red and the message of the
    grade test followed by the sentence that reports the failed time
    computation; the percentage is the one the grade test has set, 100
    when the average is at most the target grade. *)
Theorem overall_malformed_date_missed (N : PyNumber) (now : datetime)
    (s : string) (target avg : num) (prozent : Z) :
  (forall d : datetime, Datetime.strptime (Some s) <> Ok d) ->
  overall_noten_prozent target avg = Ok prozent ->
  overall_ziel now (Some s) target (Some avg)
  = Ok {| overall_ziel_nachricht :=
            overall_noten_nachricht target avg
            +:+ " Fehler beim Berechnen des Zeitfortschritts.";
          overall_ziel_klasse := "ziel-verfehlt";
          overall_fortschritt_prozent := prozent;
          overall_fortschritt_farbe := rot |}.
Proof.
  intros Hfail Hprozent. rewrite overall_ziel_graded, Hprozent.
  unfold overall_zeit_prozent.
  destruct (Datetime.strptime (Some s)) as [ d | e ] eqn:Hparse.
  - exfalso. apply (Hfail d). reflexivity.
  - rewrite (strptime_string s e Hparse). reflexivity.
Qed.

Lemma overall_malformed_date_missed_witness :
  overall_ziel neujahr2024 (Some "31.12.2030") (F64.of_Z 2) (Some (F64.lit 17 1))
  = Ok {| overall_ziel_nachricht :=
            "Du bist auf einem guten Weg, dein Gesamtziel zu erreichen!"
            +:+ " Fehler beim Berechnen des Zeitfortschritts.";
          overall_ziel_klasse := "ziel-verfehlt";
          overall_fortschritt_prozent := 100;
          overall_fortschritt_farbe := rot |}.
Proof.
  apply (overall_malformed_date_missed binary64 neujahr2024 "31.12.2030"
           (F64.of_Z 2) (F64.lit 17 1) 100).
  - apply no_date_after. vm_compute. reflexivity.
  - vm_compute. reflexivity.
Defined.

(** X4.  In binary64, when the overall target grade is NaN (the form
    accepts the text "nan") and the overall average is above zero, the
    overall goal raises [ValueError] from [int(...)], whatever the clock
    and the target date: the conversion stands before the [try]. *)
Theorem overall_nan_target_raises (now : datetime) (date : option string)
    (avg : F64.float) :
  F64.ltb (F64.of_Z 0) avg = true ->
  overall_ziel now date S754_nan (Some avg) = Raise ValueError.
Proof.
  intros Hpos. rewrite (overall_ziel_graded (N := binary64)).
  unfold overall_noten_prozent.
  assert (Hleb : @num_leb binary64 avg S754_nan = false)
    by (destruct avg; reflexivity).
  rewrite Hleb.
  rewrite (fortschritt_prozent_positive (N := binary64) S754_nan avg Hpos).
  simpl. destruct avg as [ s | s | | s m e ]; try discriminate; reflexivity.
Qed.

Lemma overall_nan_target_raises_witness :
  overall_ziel neujahr2024 jahr2030 S754_nan (Some (F64.lit 23 1))
  = Raise ValueError.
Proof.
  apply (overall_nan_target_raises neujahr2024 jahr2030 (F64.lit 23 1)).
  vm_compute. reflexivity.
Defined.

(** ** A pass without grades *)

Definition keine_noten_ziel : Ziel :=
  {| ziel_nachricht := "Es gibt noch keine Noten in diesem Semester.";
     ziel_klasse := "ziel-gefaehrdet";
     fortschritt_farbe := orange |}.

Definition keine_noten_overall : OverallZiel :=
  {| overall_ziel_nachricht :=
       "Es gibt noch keine Noten, um den Fortschritt zu berechnen.";
     overall_ziel_klasse := "ziel-gefaehrdet";
     overall_fortschritt_prozent := 0;
     overall_fortschritt_farbe := orange |}.

Lemma for_each_map {A B : Type} (f : A -> result B) (g : A -> B) (l : list A) :
  Forall (fun a => f a = Ok (g a)) l -> for_each f l = Ok (map g l).
Proof.
  induction 1 as [ | a l Ha _ IH ]; simpl.
  - reflexivity.
  - rewrite Ha, IH. reflexivity.
Qed.

Lemma abschluss_schleife_ohne_noten {N : PyNumber} (now : datetime)
    (semesters : list (Semester N)) (st : State) :
  abschluss_schleife now (map (fun semester => (semester, None)) semesters) st
  = (Ok tt, st).
Proof.
  induction semesters as [ | semester rest IH ]; simpl.
  - reflexivity.
  - unfold bind. simpl. exact IH.
Qed.

(** X5.  When no unit of any semester has a grade, the pass returns
    normally whatever the target dates (missing, unparsable or out of
    range), the overall target and the clock are: every semester has no
    average and the class "ziel-gefaehrdet" with the message that there
    are no grades yet, the overall goal is "ziel-gefaehrdet" at 0
    percent, and the session and the flashed messages are left as they
    were. *)
Theorem dashboard_without_grades (N : PyNumber) (now : datetime)
    (semesters : list (Semester N)) (date : option string) (target : num)
    (st : State) :
  Forall (fun semester =>
            Forall (fun module => grade module = None) (modules semester))
         semesters ->
  dashboard now semesters date target st
  = (Ok {| averages := map (fun semester => (semester, None)) semesters;
           total_average := None;
           ziele := map (fun _ => keine_noten_ziel) semesters;
           overall := keine_noten_overall |},
     st).
Proof.
  intros Hnone. unfold dashboard, bind, lift, ret.
  rewrite (for_each_map _ (fun semester => (semester, None))).
  2: { eapply Forall_impl; [ exact Hnone | ].
       intros semester Hs. simpl in Hs. rewrite (average_none _ Hs). reflexivity. }
  rewrite average_none.
  2: { induction Hnone as [ | semester rest Hs _ IH ]; simpl.
       - constructor.
       - apply Forall_app. split; [ exact Hs | exact IH ]. }
  rewrite (for_each_map _ (fun _ => keine_noten_ziel)).
  2: { apply Forall_forall. intros [semester average] Hin.
       apply list_elem_of_In, in_map_iff in Hin.
       destruct Hin as (semester' & [= <- <-] & _). reflexivity. }
  rewrite map_map. simpl.
  rewrite abschluss_schleife_ohne_noten. reflexivity.
Qed.

Lemma dashboard_without_grades_witness :
  dashboard neujahr2024
    [semester_kein_datum [ungraded64 6; ungraded64 3]] None (F64.of_Z 2) leer
  = (Ok {| averages :=
             [(semester_kein_datum [ungraded64 6; ungraded64 3], None)];
           total_average := None;
           ziele := [keine_noten_ziel];
           overall := keine_noten_overall |},
     leer).
Proof.
  apply (dashboard_without_grades binary64 neujahr2024
           [semester_kein_datum [ungraded64 6; ungraded64 3]] None (F64.of_Z 2)
           leer).
  repeat constructor.
Defined.

(** ** When the evaluation of a semester raises *)

(** The time check raises [TypeError] for a missing date and
    [OverflowError] for a date less than [tage] days after 0001-01-01,
    and nothing else but the [ValueError] of a string that does not
    parse. *)
Lemma zeit_prozent_raises (now : datetime) (date : option string)
    (tage : Z) (e : exn) :
  0 <= tage ->
  (do target <- Datetime.strptime date; zeit_prozent now target tage) = Raise e
  <-> (date = None /\ e = TypeError)
      \/ (exists s : string, date = Some s
            /\ (forall t : datetime, Datetime.strptime date <> Ok t)
            /\ e = ValueError)
      \/ (exists t : datetime,
            Datetime.strptime date = Ok t
            /\ t < Datetime.days tage /\ e = OverflowError).
Proof.
  intros Htage. destruct date as [ s | ].
  - destruct (Datetime.strptime (Some s)) as [ t | e' ] eqn:Hparse.
    + pose proof (strptime_in_range s t Hparse) as [Ht _].
      cbn [rbind]. unfold zeit_prozent, Datetime.sub, Datetime.in_range.
      assert (Hmax : Datetime.of_ymd 9999 12 31 <= Datetime.max)
        by (vm_compute; discriminate).
      assert (Hdays : 0 <= Datetime.days tage)
        by (unfold Datetime.days, Datetime.us_per_day; lia).
      destruct (Z.leb_spec 0 (t - Datetime.days tage)) as [ Hge | Hlt ];
        destruct (Z.leb_spec (t - Datetime.days tage) Datetime.max)
          as [ Hle | Hgt ]; simpl; try lia.
      * split; [ discriminate | ].
        intros [ [Hd _] | [ (s' & _ & Hf & _) | (t' & [= <-] & Hlt & _) ] ].
        -- discriminate.
        -- exfalso. apply (Hf t). reflexivity.
        -- lia.
      * split.
        -- intros [= <-]. right. right. exists t. split; [ reflexivity | ].
           split; [ lia | reflexivity ].
        -- intros [ [Hd _] | [ (s' & _ & Hf & _) | (t' & _ & _ & ->) ] ].
           ++ discriminate.
           ++ exfalso. apply (Hf t). reflexivity.
           ++ reflexivity.
    + cbn [rbind]. pose proof (strptime_string s e' Hparse) as ->. split.
      * intros [= <-]. right. left. exists s. split; [ reflexivity | ].
        split; [ intros t; discriminate | reflexivity ].
      * intros [ [Hd _] | [ (s' & _ & _ & ->) | (t' & Ht' & _) ] ].
        -- discriminate.
        -- reflexivity.
        -- discriminate.
  - simpl. split.
    + intros [= <-]. left. split; reflexivity.
    + intros [ [_ ->] | [ (s' & Hd & _) | (t' & Ht' & _) ] ].
      * reflexivity.
      * discriminate.
      * discriminate.
Qed.

(** With a target grade, the goal evaluation of a semester with an
    average raises in two cases only: for a missing target date and for
    one before 0001-06-30. *)
Lemma semester_ziel_raises {N : PyNumber} (now : datetime)
    (semester : Semester N) (avg : num) (e : exn) :
  semester_ziel now semester (Some avg) = Raise e
  <-> (target_date semester = None /\ e = TypeError)
      \/ (exists t : datetime,
            Datetime.strptime (target_date semester) = Ok t
            /\ t < Datetime.of_ymd 1 6 30 /\ e = OverflowError).
Proof.
  rewrite semester_ziel_graded.
  pose proof (zeit_prozent_raises now (target_date semester) 180) as Hzeit.
  unfold semester_zeit_prozent.
  change (Datetime.of_ymd 1 6 30) with (Datetime.days 180).
  destruct (do target <- Datetime.strptime (target_date semester);
            zeit_prozent now target 180) as [ prozent | e' ] eqn:Hrun.
  - split.
    + destruct (F64.ltb (F64.of_Z 100) prozent); discriminate.
    + intros [ [Hd He] | (t & Ht & Hlt & He) ].
      * assert (H : @Ok F64.float prozent = Raise e)
          by (apply Hzeit; [ lia | left; split; assumption ]).
        discriminate.
      * assert (H : @Ok F64.float prozent = Raise e)
          by (apply Hzeit; [ lia | right; right; exists t; auto ]).
        discriminate.
  - assert (He' : (target_date semester = None /\ e' = TypeError)
                  \/ (exists s : string, target_date semester = Some s
                        /\ (forall t : datetime,
                              Datetime.strptime (target_date semester) <> Ok t)
                        /\ e' = ValueError)
                  \/ (exists t : datetime,
                        Datetime.strptime (target_date semester) = Ok t
                        /\ t < Datetime.days 180 /\ e' = OverflowError))
      by (apply (Hzeit e'); [ lia | reflexivity ]).
    destruct He' as [ [Hd ->] | [ (s & Hd & Hf & ->) | (t & Ht & Hlt & ->) ] ].
    + split.
      * intros [= <-]. left. split; [ exact Hd | reflexivity ].
      * intros [ [_ ->] | (t & Ht & _) ]; [ reflexivity | ].
        rewrite Hd in Ht. discriminate.
    + split; [ discriminate | ].
      intros [ [Hn _] | (t & Ht & _) ].
      * congruence.
      * exfalso. apply (Hf t). exact Ht.
    + split.
      * intros [= <-]. right. exists t. auto.
      * intros [ [Hn _] | (t' & _ & _ & ->) ]; [ | reflexivity ].
        rewrite Hn in Ht. discriminate.
Qed.

(** X6.  The goal evaluation of a row with an average raises in three
    cases only: [TypeError] when the target grade is missing, whatever
    the target date is; with a target grade, [TypeError] when the
    target date is missing, and [OverflowError] when the target date
    parses to a day before 0001-06-30, so that 180 days earlier is no
    date.  A target date that does not parse never makes it raise. *)
Theorem semester_ziel_raises_iff (N : PyNumber) (now : datetime)
    (semester : Zeile.Semester N) (avg : num) (e : exn) :
  Zeile.semester_ziel now semester (Some avg) = Raise e
  <-> (Zeile.target_grade semester = None /\ e = TypeError)
      \/ (Zeile.target_grade semester <> None
          /\ Zeile.target_date semester = None /\ e = TypeError)
      \/ (Zeile.target_grade semester <> None
          /\ exists t : datetime,
               Datetime.strptime (Zeile.target_date semester) = Ok t
               /\ t < Datetime.of_ymd 1 6 30 /\ e = OverflowError).
Proof.
  destruct (Zeile.target_grade semester) as [ target | ] eqn:Htarget.
  - rewrite (row_semester_ziel now semester target (Some avg) Htarget).
    rewrite semester_ziel_raises. simpl target_date. split.
    + intros [ H | H ]; [ right; left | right; right ];
        (split; [ discriminate | exact H ]).
    + intros [ [H _] | [ [_ H] | [_ H] ] ];
        [ discriminate | left; exact H | right; exact H ].
  - rewrite (row_semester_ziel_null now semester avg Htarget). split.
    + intros [= <-]. left. split; reflexivity.
    + intros [ [_ ->] | [ [H _] | [H _] ] ];
        [ reflexivity | congruence | congruence ].
Qed.

Lemma uebergang_raises {N : PyNumber} (now : datetime) (semester : Semester N)
    (e : exn) :
  uebergang now semester = Raise e
  <-> (target_date semester = None /\ e = TypeError)
      \/ (exists s : string, target_date semester = Some s
            /\ (forall t : datetime,
                  Datetime.strptime (target_date semester) <> Ok t)
            /\ e = ValueError)
      \/ (exists t : datetime,
            Datetime.strptime (target_date semester) = Ok t
            /\ Datetime.of_ymd 9999 12 1 < t /\ e = OverflowError).
Proof.
  unfold uebergang. destruct (target_date semester) as [ s | ].
  - destruct (Datetime.strptime (Some s)) as [ t | e' ] eqn:Hparse.
    + pose proof (strptime_in_range s t Hparse) as [Ht Hmod].
      cbn [rbind]. unfold Datetime.add, Datetime.in_range.
      apply Z.mod_divide in Hmod; [ | discriminate ].
      destruct Hmod as [k Hk].
      assert (Hmax : Datetime.max
                     = Datetime.of_ymd 9999 12 1
                       + Datetime.days toleranz_tage + Datetime.us_per_day - 1)
        by (vm_compute; reflexivity).
      assert (Hfirst : Datetime.of_ymd 9999 12 1 = 3652028 * Datetime.us_per_day)
        by (vm_compute; reflexivity).
      assert (Hdays : 0 <= Datetime.days toleranz_tage)
        by (vm_compute; discriminate).
      assert (Hus : Datetime.us_per_day = 86400000000) by reflexivity.
      destruct (Z.leb_spec 0 (t + Datetime.days toleranz_tage)) as [ Hge | Hlt ];
        destruct (Z.leb_spec (t + Datetime.days toleranz_tage) Datetime.max)
          as [ Hle | Hgt ]; simpl; try lia.
      * split; [ discriminate | ].
        intros [ [Hd _] | [ (s' & _ & Hf & _) | (t' & [= <-] & Hlt & _) ] ].
        -- discriminate.
        -- exfalso. apply (Hf t). reflexivity.
        -- lia.
      * split.
        -- intros [= <-]. right. right. exists t. split; [ reflexivity | ].
           split; [ lia | reflexivity ].
        -- intros [ [Hd _] | [ (s' & _ & Hf & _) | (t' & _ & _ & ->) ] ].
           ++ discriminate.
           ++ exfalso. apply (Hf t). reflexivity.
           ++ reflexivity.
    + cbn [rbind]. pose proof (strptime_string s e' Hparse) as ->. split.
      * intros [= <-]. right. left. exists s. split; [ reflexivity | ].
        split; [ intros t; discriminate | reflexivity ].
      * intros [ [Hd _] | [ (s' & _ & _ & ->) | (t' & Ht' & _) ] ].
        -- discriminate.
        -- reflexivity.
        -- discriminate.
  - simpl. split.
    + intros [= <-]. left. split; reflexivity.
    + intros [ [_ ->] | [ (s' & Hd & _) | (t' & Ht' & _) ] ].
      * reflexivity.
      * discriminate.
      * discriminate.
Qed.

(** X7.  The completion check of a semester with an average raises in
    two cases only: [TypeError] when the target date is missing, and
    [OverflowError] when the target date parses to a day after
    9999-12-01, so that 30 days later is no date.  When it raises it
    has changed neither the session nor the flashed messages. *)
Theorem semester_abschluss_raises_iff (N : PyNumber) (now : datetime)
    (semester : Semester N) (avg : num) (st st' : State) (e : exn) :
  semester_abschluss now semester (Some avg) st = (Raise e, st')
  <-> st' = st
      /\ ((target_date semester = None /\ e = TypeError)
          \/ (exists t : datetime,
                Datetime.strptime (target_date semester) = Ok t
                /\ Datetime.of_ymd 9999 12 1 < t /\ e = OverflowError)).
Proof.
  rewrite semester_abschluss_graded.
  pose proof (uebergang_raises now semester) as Hraise.
  destruct (uebergang now semester) as [ [ | ] | e' ] eqn:Hrun.
  - rewrite abschluss_melden_eq. split; [ discriminate | ].
    intros [_ [ [Hd He] | (t & Ht & Hlt & He) ] ].
    + assert (H : @Ok bool true = Raise e)
        by (apply Hraise; left; split; assumption).
      discriminate.
    + assert (H : @Ok bool true = Raise e)
        by (apply Hraise; right; right; exists t; auto).
      discriminate.
  - split; [ discriminate | ].
    intros [_ [ [Hd He] | (t & Ht & Hlt & He) ] ].
    + assert (H : @Ok bool false = Raise e)
        by (apply Hraise; left; split; assumption).
      discriminate.
    + assert (H : @Ok bool false = Raise e)
        by (apply Hraise; right; right; exists t; auto).
      discriminate.
  - assert (He' : (target_date semester = None /\ e' = TypeError)
                  \/ (exists s : string, target_date semester = Some s
                        /\ (forall t : datetime,
                              Datetime.strptime (target_date semester) <> Ok t)
                        /\ e' = ValueError)
                  \/ (exists t : datetime,
                        Datetime.strptime (target_date semester) = Ok t
                        /\ Datetime.of_ymd 9999 12 1 < t /\ e' = OverflowError))
      by (apply (Hraise e'); reflexivity).
    destruct He' as [ [Hd ->] | [ (s & Hd & Hf & ->) | (t & Ht & Hlt & ->) ] ].
    + split.
      * intros [= <- <-]. split; [ reflexivity | ].
        left. split; [ exact Hd | reflexivity ].
      * intros [-> [ [_ ->] | (t & Ht & _) ] ]; [ reflexivity | ].
        rewrite Hd in Ht. discriminate.
    + split; [ discriminate | ].
      intros [_ [ [Hn _] | (t & Ht & _) ] ].
      * congruence.
      * exfalso. apply (Hf t). exact Ht.
    + split.
      * intros [= <- <-]. split; [ reflexivity | ]. right. exists t. auto.
      * intros [-> [ [Hn _] | (t' & _ & _ & ->) ] ]; [ | reflexivity ].
        rewrite Hn in Ht. discriminate.
Qed.

(** ** The completion loop as a whole *)

(** The report of a target date that does not parse, for a semester with
    an average. *)
Definition datumsbericht {N : PyNumber} (sa : Semester N * option num)
  : list (string * string) :=
  match snd sa, Datetime.strptime (target_date (fst sa)) with
  | Some _, Raise ValueError => [(zieldatum_nachricht (fst sa), "danger")]
  | _, _ => []
  end.

Definition datumsberichte {N : PyNumber}
    (semesters : list (Semester N * option num)) : list (string * string) :=
  flat_map datumsbericht semesters.

Lemma uebergang_ValueError {N : PyNumber} (now : datetime)
    (semester : Semester N) :
  uebergang now semester = Raise ValueError
  <-> Datetime.strptime (target_date semester) = Raise ValueError.
Proof.
  unfold uebergang.
  destruct (Datetime.strptime (target_date semester)) as [ t | e ]; cbn [rbind].
  - unfold Datetime.add. destruct (Datetime.in_range _); simpl;
      split; discriminate.
  - split; intros [= ->]; reflexivity.
Qed.

Lemma uebergang_Ok {N : PyNumber} (now : datetime) (semester : Semester N)
    (b : bool) :
  uebergang now semester = Ok b ->
  exists t : datetime, Datetime.strptime (target_date semester) = Ok t.
Proof.
  unfold uebergang.
  destruct (Datetime.strptime (target_date semester)) as [ t | e ]; cbn [rbind].
  - intros _. exists t. reflexivity.
  - discriminate.
Qed.

(** What one check adds to the flashed messages. *)
Lemma semester_abschluss_flashes {N : PyNumber} (now : datetime)
    (semester : Semester N) (average : option num) (st : State) :
  exists extra : list (string * string),
    flashes (snd (semester_abschluss now semester average st))
    = flashes st ++ extra
    /\ (length extra <= 1)%nat
    /\ Forall (fun mc => snd mc = "success" \/ snd mc = "danger") extra.
Proof.
  destruct average as [ avg | ].
  - rewrite semester_abschluss_graded.
    destruct (uebergang now semester) as [ [ | ] | [ | | | ] ].
    + rewrite abschluss_melden_eq. simpl.
      destruct (flagge st (id semester)).
      * exists []. rewrite app_nil_r. repeat split; [ simpl; lia | constructor ].
      * eexists. split; [ reflexivity | ].
        split; [ simpl; lia | repeat constructor ].
    + exists []. simpl. rewrite app_nil_r.
      repeat split; [ simpl; lia | constructor ].
    + eexists. split; [ reflexivity | ].
      split; [ simpl; lia | ]. constructor; [ right; reflexivity | constructor ].
    + exists []. simpl. rewrite app_nil_r.
      repeat split; [ simpl; lia | constructor ].
    + exists []. simpl. rewrite app_nil_r.
      repeat split; [ simpl; lia | constructor ].
    + exists []. simpl. rewrite app_nil_r.
      repeat split; [ simpl; lia | constructor ].
  - exists []. simpl. rewrite app_nil_r.
    repeat split; [ simpl; lia | constructor ].
Qed.

(** X8.  The completion loop keeps every message flashed before it, in
    place, and adds at most one message for each semester, each of
    category "success" or "danger"; this also holds for a loop that
    ends in an exception. *)
Theorem abschluss_schleife_flashes (N : PyNumber) (now : datetime)
    (semesters : list (Semester N * option num)) (st : State) :
  exists extra : list (string * string),
    flashes (snd (abschluss_schleife now semesters st)) = flashes st ++ extra
    /\ (length extra <= length semesters)%nat
    /\ Forall (fun mc => snd mc = "success" \/ snd mc = "danger") extra.
Proof.
  revert st. induction semesters as [ | [semester average] rest IH ]; intros st.
  - exists []. simpl. rewrite app_nil_r.
    repeat split; [ simpl; lia | constructor ].
  - rewrite abschluss_schleife_cons.
    destruct (semester_abschluss_flashes now semester average st)
      as (extra1 & H1 & Hlen1 & Hcat1).
    destruct (semester_abschluss now semester average st) as [ [ [] | e ] st1 ];
      simpl in H1.
    + destruct (IH st1) as (extra2 & H2 & Hlen2 & Hcat2).
      exists (extra1 ++ extra2). rewrite H2, H1, app_assoc.
      split; [ reflexivity | ].
      split; [ rewrite length_app; simpl; lia | ].
      apply Forall_app. split; assumption.
    + exists extra1. simpl. split; [ exact H1 | ].
      split; [ simpl; lia | exact Hcat1 ].
Qed.

(** One check, run again on a state whose flag is the one the first run
    left: it keeps the session and adds nothing but the report of the
    date. *)
Lemma semester_abschluss_again {N : PyNumber} (now : datetime)
    (semester : Semester N) (average : option num) (st st1 st2 : State) :
  semester_abschluss now semester average st = (Ok tt, st1) ->
  session st2 !! id semester = session st1 !! id semester ->
  semester_abschluss now semester average st2
  = (Ok tt, {| session := session st2;
               flashes := flashes st2 ++ datumsbericht (semester, average) |}).
Proof.
  unfold datumsbericht. simpl fst. simpl snd.
  destruct average as [ avg | ].
  - rewrite !semester_abschluss_graded.
    destruct (uebergang now semester) as [ [ | ] | e ] eqn:Hrun.
    + destruct (uebergang_Ok now semester true Hrun) as [t ->].
      rewrite !abschluss_melden_eq. intros [= <-] Hflag.
      assert (Hset : flagge st2 (id semester) = true).
      { unfold flagge in *. rewrite Hflag.
        destruct (default false (session st !! id semester)) eqn:Hold.
        - exact Hold.
        - simpl. rewrite lookup_insert_eq. reflexivity. }
      rewrite Hset, app_nil_r. destruct st2; reflexivity.
    + destruct (uebergang_Ok now semester false Hrun) as [t ->].
      intros [= <-] Hflag. simpl in Hflag. rewrite lookup_insert_eq in Hflag.
      unfold session_set. rewrite (insert_id _ _ _ Hflag), app_nil_r.
      destruct st2; reflexivity.
    + destruct e; try discriminate.
      apply uebergang_ValueError in Hrun. rewrite Hrun.
      intros _ _. reflexivity.
  - intros _ _. simpl. rewrite app_nil_r. destruct st2; reflexivity.
Qed.

Lemma abschluss_schleife_again {N : PyNumber} (now : datetime)
    (semesters : list (Semester N * option num)) (st st1 st2 : State) :
  NoDup (ids semesters) ->
  abschluss_schleife now semesters st = (Ok tt, st1) ->
  (forall key : Z, In key (ids semesters) ->
                   session st2 !! key = session st1 !! key) ->
  abschluss_schleife now semesters st2
  = (Ok tt, {| session := session st2;
               flashes := flashes st2 ++ datumsberichte semesters |}).
Proof.
  revert st st2. induction semesters as [ | [semester average] rest IH ];
    intros st st2 Hids Hrun Hflags.
  - simpl. unfold ret, datumsberichte. simpl. rewrite app_nil_r.
    destruct st2; reflexivity.
  - rewrite abschluss_schleife_cons in Hrun. rewrite abschluss_schleife_cons.
    simpl in Hids. apply NoDup_cons in Hids. destruct Hids as [Hnotin Hids].
    destruct (semester_abschluss now semester average st)
      as [ [ [] | e ] sta ] eqn:Hstep; [ | discriminate ].
    assert (Hrest : session st1 !! id semester = session sta !! id semester).
    { pose proof (abschluss_schleife_other now rest sta (id semester)) as H.
      rewrite Hrun in H. apply H. intros Hin. apply Hnotin.
      apply list_elem_of_In. exact Hin. }
    rewrite (semester_abschluss_again now semester average st sta st2 Hstep).
    2: { rewrite <- Hrest. apply Hflags. simpl. left. reflexivity. }
    rewrite (IH sta _ Hids Hrun).
    2: { intros key Hkey. simpl. apply Hflags. simpl. right. exact Hkey. }
    simpl. unfold datumsberichte. simpl. rewrite app_assoc. reflexivity.
Qed.

(** X9.  When the completion loop over semesters with distinct ids has
    returned, running it again at once on the state it left stores
    nothing and flashes no completion message: the session stays as it
    is, and the only messages added are the reports of the target dates
    that do not parse, one for each such semester with an average. *)
Theorem abschluss_schleife_twice (N : PyNumber) (now : datetime)
    (semesters : list (Semester N * option num)) (st st1 : State) :
  NoDup (ids semesters) ->
  abschluss_schleife now semesters st = (Ok tt, st1) ->
  abschluss_schleife now semesters st1
  = (Ok tt, {| session := session st1;
               flashes := flashes st1 ++ datumsberichte semesters |}).
Proof.
  intros Hids Hrun.
  apply (abschluss_schleife_again now semesters st st1 st1 Hids Hrun).
  reflexivity.
Qed.

Lemma abschluss_schleife_twice_witness :
  abschluss_schleife neujahr2024
    [(semester_ss2024, Some (F64.of_Z 2));
     (semester_offen, Some (F64.lit 17 1))]
    {| session := <[3 := false]> (<[2 := true]> ∅);
       flashes := [("Das Semester 'SS 2024' ist abgeschlossen! Durchschnittsnote: 2.00",
                    "success")] |}
  = (Ok tt,
     {| session := <[3 := false]> (<[2 := true]> ∅);
        flashes := [("Das Semester 'SS 2024' ist abgeschlossen! Durchschnittsnote: 2.00",
                     "success")] ++ [] |}).
Proof.
  apply (abschluss_schleife_twice binary64 neujahr2024
           [(semester_ss2024, Some (F64.of_Z 2));
            (semester_offen, Some (F64.lit 17 1))] leer).
  - apply (bool_decide_unpack _). vm_compute. exact I.
  - vm_compute. reflexivity.
Defined.

(** ** The time check, decided by the dates *)



(** X11.  For a present overall average and an overall target date
    that parses to a day from 0004-01-01 on, the time check of the
    overall goal is decided by the dates alone: when the clock is past
    midnight at the start of the target date the class is
    "ziel-verfehlt" with the warning, otherwise message, class and
    colour are those of the grade test; the percentage is the one of
    the grade test in both cases. *)
Theorem overall_time_expired (N : PyNumber) (now : datetime)
    (date : option string) (target avg : num) (t : datetime) (prozent : Z) :
  Datetime.strptime date = Ok t ->
  Datetime.of_ymd 4 1 1 <= t ->
  0 <= now <= Datetime.max ->
  overall_noten_prozent target avg = Ok prozent ->
  overall_ziel now date target (Some avg)
  = Ok (if t <? now
        then {| overall_ziel_nachricht :=
                  overall_noten_nachricht target avg
                  +:+ " Achtung: Die Zeit für dein Studium läuft ab!";
                overall_ziel_klasse := "ziel-verfehlt";
                overall_fortschritt_prozent := prozent;
                overall_fortschritt_farbe := rot |}
        else {| overall_ziel_nachricht := overall_noten_nachricht target avg;
                overall_ziel_klasse := overall_noten_klasse target avg;
                overall_fortschritt_prozent := prozent;
                overall_fortschritt_farbe :=
                  fortschritt_farbe_von (overall_noten_klasse target avg) |}).
Proof.
  intros Hparse Hlo Hnow Hprozent. rewrite overall_ziel_graded, Hprozent.
  cbn [rbind]. unfold overall_zeit_prozent. rewrite Hparse. cbn [rbind].
  assert (Hhi : t <= Datetime.max).
  { destruct date as [ s | ]; [ | discriminate ].
    destruct (strptime_in_range s t Hparse) as [ [_ H] _ ].
    change (Datetime.of_ymd 9999 12 31) with 315537811200000000 in H.
    change Datetime.max with 315537897599999999. lia. }
  destruct (zeit_prozent_abgelaufen now t (3 * 365) Hnow ltac:(lia))
    as (zeit & -> & ->).
  - change (Datetime.days (3 * 365)) with (Datetime.of_ymd 4 1 1). lia.
  - destruct (t <? now); reflexivity.
Qed.

Lemma overall_time_expired_witness :
  overall_ziel (Datetime.of_ymd 2030 1 1 + 1) jahr2030 (F64.of_Z 2)
    (Some (F64.lit 23 1))
  = Ok {| overall_ziel_nachricht :=
            "Du musst dich noch etwas anstrengen, um deine Gesamtzielnote zu erreichen. Achtung: Die Zeit für dein Studium läuft ab!";
          overall_ziel_klasse := "ziel-verfehlt";
          overall_fortschritt_prozent := 86;
          overall_fortschritt_farbe := rot |}.
Proof.
  apply (overall_time_expired binary64 (Datetime.of_ymd 2030 1 1 + 1) jahr2030
           (F64.of_Z 2) (F64.lit 23 1) (Datetime.of_ymd 2030 1 1) 86).
  - vm_compute. reflexivity.
  - vm_compute. discriminate.
  - split; vm_compute; discriminate.
  - vm_compute. reflexivity.
Defined.

(** ** When the pass returns *)

(** A date field the evaluation can work with: a string, and when it
    parses, a day between [lo] and [hi]. *)
Definition datum_tragbar (lo hi : datetime) (date : option string) : Prop :=
  exists s : string,
    date = Some s
    /\ forall t : datetime, Datetime.strptime (Some s) = Ok t -> lo <= t <= hi.

(** [semester.average] as a value: what [calculate_weighted_average]
    returns for the units of the semester. *)
Definition average_of {N : PyNumber} (semester : Semester N) : option num :=
  match calculate_weighted_average (modules semester) with
  | Ok average => average
  | Raise _ => None
  end.

Lemma averages_eq {N : PyNumber} (semesters : list (Semester N)) :
  for_each (fun semester =>
              do average <- calculate_weighted_average (modules semester);
              Ok (semester, average)) semesters
  = Ok (map (fun semester => (semester, average_of semester)) semesters).
Proof.
  apply for_each_map. apply List.Forall_forall. intros semester _.
  unfold average_of.
  destruct (average_returns (modules semester)) as [average ->]. reflexivity.
Qed.

Lemma for_each_returns {A B : Type} (f : A -> result B) (l : list A) :
  Forall (fun a => exists b, f a = Ok b) l -> exists bs, for_each f l = Ok bs.
Proof.
  induction l as [ | a l IH ]; intros Hall.
  - exists []. reflexivity.
  - apply List.Forall_cons_iff in Hall. destruct Hall as [ [b Hb] Hall].
    destruct (IH Hall) as [bs Hbs]. exists (b :: bs).
    simpl. rewrite Hb. cbn [rbind]. rewrite Hbs. reflexivity.
Qed.

Lemma semester_ziel_returns {N : PyNumber} (now : datetime)
    (semester : Semester N) (average : option num) (hi : datetime) :
  datum_tragbar (Datetime.of_ymd 1 6 30) hi (target_date semester) ->
  exists z : Ziel, semester_ziel now semester average = Ok z.
Proof.
  intros (s & Hs & Hrange). destruct average as [ avg | ].
  - rewrite semester_ziel_graded. unfold semester_zeit_prozent.
    pose proof (zeit_prozent_raises now (target_date semester) 180) as Hraise.
    destruct (do target <- Datetime.strptime (target_date semester);
              zeit_prozent now target 180) as [ prozent | e ].
    + destruct (F64.ltb (F64.of_Z 100) prozent); eexists; reflexivity.
    + destruct (proj1 (Hraise e ltac:(lia)) eq_refl)
        as [ [Hnone _] | [ (_ & _ & _ & ->) | (t & Ht & Hlt & _) ] ].
      * congruence.
      * eexists. reflexivity.
      * rewrite Hs in Ht. apply Hrange in Ht.
        change (Datetime.days 180) with (Datetime.of_ymd 1 6 30) in Hlt. lia.
  - eexists. reflexivity.
Qed.

Lemma semester_abschluss_returns {N : PyNumber} (now : datetime)
    (semester : Semester N) (average : option num) (lo : datetime)
    (st : State) :
  datum_tragbar lo (Datetime.of_ymd 9999 12 1) (target_date semester) ->
  exists st' : State,
    semester_abschluss now semester average st = (Ok tt, st').
Proof.
  intros (s & Hs & Hrange). destruct average as [ avg | ].
  - rewrite semester_abschluss_graded.
    pose proof (uebergang_raises now semester) as Hraise.
    destruct (uebergang now semester) as [ [ | ] | e ].
    + rewrite abschluss_melden_eq. eexists. reflexivity.
    + eexists. reflexivity.
    + destruct (proj1 (Hraise e) eq_refl)
        as [ [Hnone _] | [ (_ & _ & _ & ->) | (t & Ht & Hlt & _) ] ].
      * congruence.
      * eexists. reflexivity.
      * rewrite Hs in Ht. apply Hrange in Ht. lia.
  - eexists. reflexivity.
Qed.

Lemma abschluss_schleife_returns {N : PyNumber} (now : datetime)
    (semesters : list (Semester N * option num)) (lo : datetime) (st : State) :
  Forall (fun sa => datum_tragbar lo (Datetime.of_ymd 9999 12 1)
                      (target_date (fst sa))) semesters ->
  exists st' : State, abschluss_schleife now semesters st = (Ok tt, st').
Proof.
  revert st. induction semesters as [ | [semester average] rest IH ];
    intros st Hall.
  - eexists. reflexivity.
  - apply List.Forall_cons_iff in Hall. destruct Hall as [Hdate Hall].
    rewrite abschluss_schleife_cons.
    destruct (semester_abschluss_returns now semester average lo st Hdate)
      as [st1 ->].
    apply IH. exact Hall.
Qed.

Lemma overall_ziel_returns {N : PyNumber} (now : datetime)
    (date : option string) (target : num) (total : option num) :
  datum_tragbar (Datetime.of_ymd 4 1 1) Datetime.max date ->
  (forall avg : num,
      total = Some avg ->
      exists prozent : Z, overall_noten_prozent target avg = Ok prozent) ->
  exists ov : OverallZiel, overall_ziel now date target total = Ok ov.
Proof.
  intros (s & Hs & Hrange) Hprozent.
  destruct total as [ avg | ]; [ | eexists; reflexivity ].
  destruct (Hprozent avg eq_refl) as [prozent Hp].
  rewrite overall_ziel_graded, Hp. cbn [rbind].
  pose proof (zeit_prozent_raises now date (3 * 365)) as Hraise.
  unfold overall_zeit_prozent.
  destruct (do target0 <- Datetime.strptime date;
            zeit_prozent now target0 (3 * 365)) as [ zeit | e ].
  - destruct (F64.ltb (F64.of_Z 100) zeit); eexists; reflexivity.
  - destruct (proj1 (Hraise e ltac:(lia)) eq_refl)
      as [ [Hnone _] | [ (_ & _ & _ & ->) | (t & Ht & Hlt & _) ] ].
    + congruence.
    + eexists. reflexivity.
    + rewrite Hs in Ht. apply Hrange in Ht.
      change (Datetime.days (3 * 365)) with (Datetime.of_ymd 4 1 1) in Hlt.
      lia.
Qed.

(** The evaluation pass returns, whatever the clock, the grades and the
    stored flags are, when every semester has a target date that is a
    string and, where it parses, a day from 0001-06-30 to 9999-12-01,
    the overall target date is a string and, where it parses, a day
    from 0004-01-01 on, and the percentage of the overall grade test
    can be computed when there is an overall average. *)
Lemma dashboard_returns_when {N : PyNumber} (now : datetime)
    (semesters : list (Semester N)) (date : option string) (target : num)
    (st : State) :
  Forall (fun semester =>
            datum_tragbar (Datetime.of_ymd 1 6 30) (Datetime.of_ymd 9999 12 1)
              (target_date semester)) semesters ->
  datum_tragbar (Datetime.of_ymd 4 1 1) Datetime.max date ->
  (forall avg : num,
      calculate_weighted_average (concat (map modules semesters))
      = Ok (Some avg) ->
      exists prozent : Z, overall_noten_prozent target avg = Ok prozent) ->
  exists (a : Auswertung) (st' : State),
    dashboard now semesters date target st = (Ok a, st')
    /\ averages a = map (fun semester => (semester, average_of semester))
                      semesters.
Proof.
  intros Hdates Hdate Hprozent.
  unfold dashboard, bind, lift, ret. rewrite averages_eq.
  destruct (average_returns (concat (map modules semesters)))
    as [total Htotal].
  rewrite Htotal.
  set (avgs := map (fun semester => (semester, average_of semester)) semesters).
  assert (Havgs : Forall (fun sa =>
                    datum_tragbar (Datetime.of_ymd 1 6 30)
                      (Datetime.of_ymd 9999 12 1) (target_date (fst sa)))
                    avgs).
  { unfold avgs. apply List.Forall_map. exact Hdates. }
  destruct (for_each_returns
              (fun sa => semester_ziel now (fst sa) (snd sa)) avgs)
    as [zs ->].
  { eapply List.Forall_impl; [ | exact Havgs ]. intros [semester average] H.
    exact (semester_ziel_returns now semester average _ H). }
  destruct (overall_ziel_returns now date target total Hdate) as [ov ->].
  { intros avg ->. apply Hprozent. exact Htotal. }
  destruct (abschluss_schleife_returns now avgs _ st Havgs) as [st' ->].
  eexists. eexists. split; reflexivity.
Qed.

Lemma for_each_In {A B : Type} (f : A -> result B) (l : list A)
    (bs : list B) (a : A) :
  for_each f l = Ok bs -> In a l -> exists b : B, f a = Ok b.
Proof.
  revert bs. induction l as [ | a' l IH ]; intros bs; simpl.
  - intros _ [].
  - destruct (f a') as [ b | e ] eqn:Hfa; simpl; [ | discriminate ].
    destruct (for_each f l) as [ bs' | e ]; simpl; [ | discriminate ].
    intros _ [ <- | Hin ]; [ exists b; exact Hfa | ].
    apply (IH bs' eq_refl Hin).
Qed.

(** The pass on rows: it returns under the same conditions on the
    dates when every row that has an average has a target grade. *)
Lemma row_averages_eq {N : PyNumber} (rows : list (Zeile.Semester N)) :
  for_each (fun row =>
              do average <- calculate_weighted_average (Zeile.modules row);
              Ok (row, average)) rows
  = Ok (map (fun row => (row, Zeile.average_of row)) rows).
Proof.
  apply for_each_map. apply List.Forall_forall. intros row _.
  unfold Zeile.average_of.
  destruct (average_returns (Zeile.modules row)) as [average ->]. reflexivity.
Qed.

Lemma row_semester_ziel_returns {N : PyNumber} (now : datetime)
    (row : Zeile.Semester N) (average : option num) (hi : datetime) :
  datum_tragbar (Datetime.of_ymd 1 6 30) hi (Zeile.target_date row) ->
  (average <> None -> Zeile.target_grade row <> None) ->
  exists z : Ziel, Zeile.semester_ziel now row average = Ok z.
Proof.
  intros Hdate Htarget. destruct average as [ avg | ].
  - destruct (Zeile.target_grade row) as [ target | ] eqn:Hrow.
    + rewrite (row_semester_ziel now row target (Some avg) Hrow).
      apply (semester_ziel_returns now (with_target_grade row target)
               (Some avg) hi).
      exact Hdate.
    + exfalso. apply Htarget; [ discriminate | reflexivity ].
  - eexists. apply row_semester_ziel_absent.
Qed.

Lemma row_dashboard_returns_when {N : PyNumber} (now : datetime)
    (rows : list (Zeile.Semester N)) (date : option string) (target : num)
    (st : State) :
  Forall (fun row =>
            datum_tragbar (Datetime.of_ymd 1 6 30) (Datetime.of_ymd 9999 12 1)
              (Zeile.target_date row)) rows ->
  Forall (fun row =>
            Zeile.average_of row <> None -> Zeile.target_grade row <> None) rows ->
  datum_tragbar (Datetime.of_ymd 4 1 1) Datetime.max date ->
  (forall avg : num,
      calculate_weighted_average (concat (map Zeile.modules rows))
      = Ok (Some avg) ->
      exists prozent : Z, overall_noten_prozent target avg = Ok prozent) ->
  exists (a : Zeile.Auswertung N) (st' : State),
    Zeile.dashboard now rows date target st = (Ok a, st')
    /\ Zeile.averages a = map (fun row => (row, Zeile.average_of row)) rows.
Proof.
  intros Hdates Htargets Hdate Hprozent.
  unfold Zeile.dashboard, bind, lift, ret. rewrite row_averages_eq.
  destruct (average_returns (concat (map Zeile.modules rows)))
    as [total Htotal].
  rewrite Htotal.
  set (avgs := map (fun row => (row, Zeile.average_of row)) rows).
  destruct (for_each_returns
              (fun ra => Zeile.semester_ziel now (fst ra) (snd ra)) avgs)
    as [zs ->].
  { unfold avgs. apply List.Forall_map. apply List.Forall_forall.
    intros row Hin. simpl.
    rewrite List.Forall_forall in Hdates, Htargets.
    apply (row_semester_ziel_returns now row _ (Datetime.of_ymd 9999 12 1)).
    - apply Hdates. exact Hin.
    - apply Htargets. exact Hin. }
  destruct (overall_ziel_returns now date target total Hdate) as [ov ->].
  { intros avg ->. apply Hprozent. exact Htotal. }
  rewrite (row_abschluss_schleife now (fun _ => of_int 0) avgs st).
  destruct (abschluss_schleife_returns now
              (map (fun ra => (with_target_grade (fst ra) (of_int 0), snd ra))
                   avgs)
              (Datetime.of_ymd 1 6 30) st) as [st' ->].
  { unfold avgs. rewrite List.map_map. apply List.Forall_map.
    eapply List.Forall_impl; [ | exact Hdates ]. intros row H. exact H. }
  eexists. eexists. split; reflexivity.
Qed.

(** A row with an average and without a target grade stops the pass:
    the session and the flashed messages are as they were. *)
Lemma row_dashboard_raises {N : PyNumber} (now : datetime)
    (rows : list (Zeile.Semester N)) (date : option string) (target : num)
    (st : State) (row : Zeile.Semester N) :
  In row rows ->
  Zeile.average_of row <> None ->
  Zeile.target_grade row = None ->
  exists e : exn, Zeile.dashboard now rows date target st = (Raise e, st).
Proof.
  intros Hin Havg Htarget.
  unfold Zeile.dashboard, bind, lift, ret. rewrite row_averages_eq.
  destruct (average_returns (concat (map Zeile.modules rows)))
    as [total ->].
  destruct (for_each (fun ra => Zeile.semester_ziel now (fst ra) (snd ra))
              (map (fun row0 => (row0, Zeile.average_of row0)) rows))
    as [ zs | e ] eqn:Hzs.
  - exfalso.
    destruct (for_each_In _ _ _ (row, Zeile.average_of row) Hzs) as [z Hz].
    { apply in_map_iff. exists row. split; [ reflexivity | exact Hin ]. }
    simpl in Hz. destruct (Zeile.average_of row) as [ avg | ];
      [ | congruence ].
    rewrite (row_semester_ziel_null now row avg Htarget) in Hz.
    discriminate.
  - exists e. reflexivity.
Qed.

(** ** The overall average and the averages of the semesters *)

Lemma sum_Z_from (l : list Z) (a : Z) : fold_left Z.add l a = a + sum_Z l.
Proof.
  unfold sum_Z. revert a. induction l as [ | x l IH ]; intros a; simpl.
  - lia.
  - rewrite (IH (a + x)), (IH (0 + x)). lia.
Qed.

Lemma sum_Z_app (l1 l2 : list Z) : sum_Z (l1 ++ l2) = sum_Z l1 + sum_Z l2.
Proof.
  unfold sum_Z at 1. rewrite fold_left_app, sum_Z_from. reflexivity.
Qed.

Lemma weights_app {N : PyNumber} (l1 l2 : list (Module_ N)) :
  weights (l1 ++ l2) = weights l1 ++ weights l2.
Proof.
  unfold weights. induction l1 as [ | module l1 IH ]; simpl.
  - reflexivity.
  - destruct (grade module); simpl; rewrite IH; reflexivity.
Qed.

Lemma weights_nonneg {N : PyNumber} (modules : list (Module_ N)) :
  Forall (fun module => 0 <= ects module) modules ->
  0 <= sum_Z (weights modules).
Proof.
  induction 1 as [ | module rest Hects _ IH ].
  - unfold sum_Z. simpl. lia.
  - change (module :: rest) with ([module] ++ rest).
    rewrite weights_app, sum_Z_app. unfold weights at 1. simpl.
    destruct (grade module); unfold sum_Z at 1; simpl; lia.
Qed.

Lemma all_weights_nonneg {N : PyNumber} (semesters : list (Semester N)) :
  Forall (fun semester =>
            Forall (fun module => 0 <= ects module) (modules semester))
         semesters ->
  0 <= sum_Z (weights (concat (map modules semesters))).
Proof.
  induction 1 as [ | semester rest Hsem _ IH ]; simpl.
  - unfold sum_Z. simpl. lia.
  - rewrite weights_app, sum_Z_app.
    pose proof (weights_nonneg (modules semester) Hsem). lia.
Qed.

Lemma average_present {N : PyNumber} (modules : list (Module_ N)) :
  (exists avg : num, calculate_weighted_average modules = Ok (Some avg))
  <-> 0 < sum_Z (weights modules).
Proof.
  destruct (Z.lt_ge_cases 0 (sum_Z (weights modules))) as [ Hpos | Hle ].
  - rewrite (average_positive modules Hpos).
    split; [ intros _; exact Hpos | intros _; eexists; reflexivity ].
  - rewrite (average_absent modules Hle).
    split; [ intros [avg H]; discriminate | lia ].
Qed.

(** X12.  With credits that are not negative, the overall average over
    the units of all semesters is present exactly when at least one
    semester has an average. *)
Theorem total_average_present_iff (N : PyNumber)
    (semesters : list (Semester N)) :
  Forall (fun semester =>
            Forall (fun module => 0 <= ects module) (modules semester))
         semesters ->
  (exists avg : num,
      calculate_weighted_average (concat (map modules semesters))
      = Ok (Some avg))
  <-> Exists (fun semester =>
                exists avg : num,
                  calculate_weighted_average (modules semester)
                  = Ok (Some avg)) semesters.
Proof.
  intros Hects. rewrite average_present.
  induction Hects as [ | semester rest Hsem Hrest IH ].
  - simpl. unfold sum_Z. simpl. split; [ lia | ].
    intros H. apply List.Exists_nil in H. contradiction.
  - simpl. rewrite weights_app, sum_Z_app, List.Exists_cons, average_present.
    pose proof (weights_nonneg (modules semester) Hsem) as H1.
    pose proof (all_weights_nonneg rest Hrest) as H2.
    rewrite <- IH. lia.
Qed.

Lemma total_average_present_iff_witness :
  (exists avg : F64.float,
      calculate_weighted_average
        (concat (map modules [semester_offen; semester_ss2024]))
      = Ok (Some avg))
  <-> Exists (fun semester : Semester binary64 =>
                exists avg : F64.float,
                  calculate_weighted_average (modules semester)
                  = Ok (Some avg)) [semester_offen; semester_ss2024].
Proof.
  apply (total_average_present_iff binary64 [semester_offen; semester_ss2024]).
  repeat (apply List.Forall_cons || apply List.Forall_nil); simpl; lia.
Defined.

(** ** The deadline of the completion check against the time check *)



(** ** The template filter [date_format] *)

(** The values the templates hand to the filter, and what it returns:
    [None], a [str] or a [datetime]. *)
Inductive wert : Type :=
| WNone
| WStr (s : string)
| WDatetime (t : datetime).

Section DateFormat.

(** [value.strftime(format)]: the formatting is the C library's. *)
Variable strftime : datetime -> string -> result string.

(** [return value.strftime(format)] inside the [try]; [except
    ValueError: return value] returns the value as it is bound by then. *)
Definition formatiert (t : datetime) (format : string) : result wert :=
  match strftime t format with
  | Ok text => Ok (WStr text)
  | Raise ValueError => Ok (WDatetime t)
  | Raise e => Raise e
  end.

(** The template gives [format], or it is ['%d.%m.%Y']. *)
Definition date_format (value : wert) (format : string) : result wert :=
  match value with
  | WNone => Ok (WStr EmptyString)
  | WStr s =>
      match Datetime.strptime (Some s) with
      | Ok t => formatiert t format
      | Raise ValueError => Ok (WStr s)
      | Raise e => Raise e
      end
  | WDatetime t => formatiert t format
  end.

End DateFormat.

Module StrptimeLength.

Import Datetime.

Lemma len_byte (b : ascii) (s : string) : (len (String b s) <= 1 + len s)%nat.
Proof. simpl. destruct ((128 <=? code b) && (code b <? 192)); lia. Qed.

Lemma continued_len (n : nat) (bits cp : Z) (s rest : string) :
  continued n bits s = Some (cp, rest) -> len s = len rest.
Proof.
  revert bits s. induction n as [ | n IH ]; intros bits s; simpl.
  - intros [= _ <-]. reflexivity.
  - destruct s as [ | b s ]; [ discriminate | ].
    destruct ((128 <=? code b) && (code b <? 192)) eqn:Hb; [ | discriminate ].
    intros H. apply IH in H. simpl. rewrite Hb. exact H.
Qed.

Lemma at_least_some (least cp : Z) (r : option (Z * string)) (rest : string) :
  at_least least r = Some (cp, rest) -> r = Some (cp, rest).
Proof.
  unfold at_least. destruct r as [ [cp' rest'] | ]; [ | discriminate ].
  destruct (least <=? cp'); [ | discriminate ]. intros [= <- <-]. reflexivity.
Qed.

(** A character is read from one byte and the bytes that continue it. *)
Lemma code_point_len (s rest : string) (cp : Z) :
  code_point s = Some (cp, rest) -> (len s <= 1 + len rest)%nat.
Proof.
  destruct s as [ | a s ]; [ discriminate | ]. unfold code_point.
  pose proof (len_byte a s) as Hbyte.
  destruct (code a <? 128); [ intros [= _ <-]; exact Hbyte | ].
  destruct (code a <? 192); [ discriminate | ].
  destruct (code a <? 224);
    [ intros H; apply at_least_some, continued_len in H; lia | ].
  destruct (code a <? 240);
    [ intros H; apply at_least_some, continued_len in H; lia | ].
  destruct (code a <? 248);
    [ intros H; apply at_least_some, continued_len in H; lia | ].
  discriminate.
Qed.

Lemma alt_d_len (s rest : string) (v : Z) :
  alt_d s = Some (v, rest) -> (len s <= 1 + len rest)%nat.
Proof.
  unfold alt_d. destruct (code_point s) as [ [cp rest'] | ] eqn:Hcp;
    [ | discriminate ].
  destruct (decimal cp); [ | discriminate ]. intros [= _ <-].
  exact (code_point_len s rest' cp Hcp).
Qed.

(** An alternative of a group reads one or two characters. *)
Definition reads_two (alt : alternative) : Prop :=
  forall (s rest : string) (v : Z),
    alt s = Some (v, rest) -> (len s <= 2 + len rest)%nat.

Lemma alt2_reads_two (p1 p2 : ascii -> bool) : reads_two (alt2 p1 p2).
Proof.
  intros [ | a [ | b s ] ] rest v; unfold alt2; try discriminate.
  destruct (p1 a && p2 b); [ | discriminate ]. intros [= _ <-].
  pose proof (len_byte a (String b s)). pose proof (len_byte b s). lia.
Qed.

Lemma alt1_reads_two (p : ascii -> bool) : reads_two (alt1 p).
Proof.
  intros [ | a s ] rest v; unfold alt1; try discriminate.
  destruct (p a); [ | discriminate ]. intros [= _ <-].
  pose proof (len_byte a s). lia.
Qed.

Lemma alt1_d_reads_two (p : ascii -> bool) : reads_two (alt1_d p).
Proof.
  intros [ | a s ] rest v; unfold alt1_d; try discriminate.
  destruct (p a); [ | discriminate ].
  destruct (alt_d s) as [ [b s'] | ] eqn:Hb; [ | discriminate ].
  intros [= _ <-]. apply alt_d_len in Hb.
  pose proof (len_byte a s). lia.
Qed.

Lemma alt_blank_reads_two (p : ascii -> bool) : reads_two (alt_blank p).
Proof.
  intros [ | a [ | b s ] ] rest v; unfold alt_blank; try discriminate.
  destruct (is_char " " a && p b); [ | discriminate ]. intros [= _ <-].
  pose proof (len_byte a (String b s)). pose proof (len_byte b s). lia.
Qed.

Lemma group_reads_two {A : Type} (alts : list alternative)
    (k : Z -> string -> option A) (s : string) (r : A) :
  Forall reads_two alts ->
  group alts k s = Some r ->
  exists (v : Z) (rest : string),
    (len s <= 2 + len rest)%nat /\ k v rest = Some r.
Proof.
  induction 1 as [ | alt alts Halt _ IH ]; simpl; [ discriminate | ].
  destruct (alt s) as [ [v rest] | ] eqn:Hs; [ | exact IH ].
  destruct (k v rest) as [ r' | ] eqn:Hk; [ | exact IH ].
  intros [= <-]. exists v, rest. split; [ | exact Hk ].
  apply (Halt s rest v Hs).
Qed.

Lemma regex_Ymd_length (s rest : string) (y m d : Z) :
  regex_Ymd s = Some (y, m, d, rest) -> (len s <= 10 + len rest)%nat.
Proof.
  unfold regex_Ymd, year_group.
  destruct (alt_d s) as [ [a s1] | ] eqn:Ha; [ | discriminate ].
  destruct (alt_d s1) as [ [b s2] | ] eqn:Hb; [ | discriminate ].
  destruct (alt_d s2) as [ [c s3] | ] eqn:Hc; [ | discriminate ].
  destruct (alt_d s3) as [ [e s4] | ] eqn:He; [ | discriminate ].
  apply alt_d_len in Ha, Hb, Hc, He.
  unfold dash at 1. destruct s4 as [ | x s4 ]; [ discriminate | ].
  pose proof (len_byte x s4) as Hx.
  destruct (is_char "-" x); [ | discriminate ].
  intros Hm. apply group_reads_two in Hm.
  2: { unfold month_group.
       repeat (apply List.Forall_cons || apply List.Forall_nil);
         auto using alt2_reads_two, alt1_reads_two. }
  destruct Hm as (m' & rest1 & Hlen1 & Hm).
  unfold dash in Hm. destruct rest1 as [ | x1 rest1 ]; [ discriminate | ].
  pose proof (len_byte x1 rest1) as Hx1.
  destruct (is_char "-" x1); [ | discriminate ].
  apply group_reads_two in Hm.
  2: { unfold day_group.
       repeat (apply List.Forall_cons || apply List.Forall_nil);
         auto using alt2_reads_two, alt1_reads_two, alt1_d_reads_two,
           alt_blank_reads_two. }
  destruct Hm as (d' & rest2 & Hlen2 & [= _ _ _ <-]).
  lia.
Qed.

(** A string that parses has at most ten characters. *)
Lemma strptime_length (s : string) (t : datetime) :
  strptime (Some s) = Ok t -> (len s <= 10)%nat.
Proof.
  unfold strptime.
  destruct (regex_Ymd s) as [ [[[y m] d] rest] | ] eqn:Hs; [ | discriminate ].
  destruct rest; [ | discriminate ]. intros _.
  apply regex_Ymd_length in Hs. simpl in Hs. lia.
Qed.

End StrptimeLength.

(** Decimal digits of other scripts are read in the year and as the
    second digit of the day, and not in the month: these strings of
    ten characters, of 18, 11 and 11 bytes, parse or do not parse as in
    CPython. *)
Example strptime_other_digits :
  Datetime.strptime (Some "２０２４-01-01") = Ok (Datetime.of_ymd 2024 1 1)
  /\ Datetime.strptime (Some "2024-01-1٥") = Ok (Datetime.of_ymd 2024 1 15)
  /\ Datetime.strptime (Some "2024-0١-15") = Raise ValueError
  /\ Datetime.strptime (Some "2024-01-3١") = Raise ValueError
  /\ Datetime.len "２０２４-01-01" = 10%nat
  /\ String.length "２０２４-01-01" = 18%nat
  /\ Datetime.len "2024-01-1٥" = 10%nat.
Proof. repeat split; vm_compute; reflexivity. Qed.

(** X14.  The filter [date_format], whatever the formatting of the C
    library does: it never raises [ValueError]; [None] gives the empty
    string; a string that does not parse as YYYY-MM-DD, and so every
    string of more than ten characters (characters, not bytes: a digit
    of another script is one character) such as a date with a time,
    comes back unchanged; a string that parses is treated as the
    [datetime] it parses to; and when the formatting raises
    [ValueError], the filter returns the [datetime] itself, also where
    it was given a string. *)
Theorem date_format_errors
    (strftime : datetime -> string -> result string) :
  (forall (value : wert) (format : string),
      date_format strftime value format <> Raise ValueError)
  /\ (forall format : string,
        date_format strftime WNone format = Ok (WStr EmptyString))
  /\ (forall (s format : string),
        (forall t : datetime, Datetime.strptime (Some s) <> Ok t) ->
        date_format strftime (WStr s) format = Ok (WStr s))
  /\ (forall (s format : string),
        (10 < Datetime.len s)%nat ->
        date_format strftime (WStr s) format = Ok (WStr s))
  /\ (forall (s format : string) (t : datetime),
        Datetime.strptime (Some s) = Ok t ->
        date_format strftime (WStr s) format
        = date_format strftime (WDatetime t) format)
  /\ (forall (s format : string) (t : datetime),
        Datetime.strptime (Some s) = Ok t ->
        strftime t format = Raise ValueError ->
        date_format strftime (WStr s) format = Ok (WDatetime t)).
Proof.
  assert (Hformat : forall t format,
             formatiert strftime t format <> Raise ValueError).
  { intros t format. unfold formatiert.
    destruct (strftime t format) as [ text | [ | | | ] ]; discriminate. }
  assert (Hfail : forall s format,
             (forall t : datetime, Datetime.strptime (Some s) <> Ok t) ->
             date_format strftime (WStr s) format = Ok (WStr s)).
  { intros s format Hno. unfold date_format.
    destruct (Datetime.strptime (Some s)) as [ t | e ] eqn:Hparse.
    - exfalso. apply (Hno t). reflexivity.
    - rewrite (strptime_string s e Hparse). reflexivity. }
  split; [ | split; [ | split; [ | split; [ | split ] ] ] ].
  - intros [ | s | t ] format; unfold date_format.
    + discriminate.
    + destruct (Datetime.strptime (Some s)) as [ t | e ] eqn:Hparse.
      * apply Hformat.
      * rewrite (strptime_string s e Hparse). discriminate.
    + apply Hformat.
  - reflexivity.
  - exact Hfail.
  - intros s format Hlong. apply Hfail. intros t Ht.
    apply StrptimeLength.strptime_length in Ht. lia.
  - intros s format t Hparse. unfold date_format. rewrite Hparse. reflexivity.
  - intros s format t Hparse Hraise. unfold date_format. rewrite Hparse.
    unfold formatiert. rewrite Hraise. reflexivity.
Qed.

(** ** The semester index of a request *)

(** [l[i]] for a Python list: the indices run from [-len(l)] to
    [len(l) - 1], and [None] stands for [IndexError]. *)
Definition list_item {A : Type} (l : list A) (i : Z) : option A :=
  let n := Z.of_nat (length l) in
  if (0 <=? i) && (i <? n) then l !! Z.to_nat i
  else if (- n <=? i) && (i <? 0) then l !! Z.to_nat (n + i)
  else None.

(** How the handling of the request goes on after the index is read:
    with the index, or with the redirect to the dashboard. *)
Inductive Fortgang : Type :=
| Weiter (semester_index : Z)
| Umleitung.

Section SemesterIndex.

Context {N : PyNumber}.

(** [int(text)] for a [str]: the parser is Python's. *)
Variable int_of_str : string -> result Z.

(** [semester_index = -1], then the [if 'semester_index' in
    request.form] with its [try].  The lookup
    [semester = semesters[semester_index]] that ends the [try] stands
    behind the test of the range, so it finds a semester; the branches
    bind [semester] again before they read it. *)
Definition semester_index_lesen (form : gmap string string)
    (semesters : list (Semester N)) : M Fortgang :=
  match form !! "semester_index" with
  | Some text =>
      match int_of_str text with
      | Ok semester_index =>
          if (semester_index <? 0)
             || (Z.of_nat (length semesters) <=? semester_index)
          then
            doM _ <- flash "Ungültiger Semesterindex." "danger";
            ret Umleitung
          else ret (Weiter semester_index)
      | Raise ValueError =>
          doM _ <- flash "Ungültiger Semesterindex." "danger";
          ret Umleitung
      | Raise e => raise e
      end
  | None => ret (Weiter (-1))
  end.

End SemesterIndex.

Lemma list_item_last {A : Type} (l : list A) (x : A) :
  list_item (l ++ [x]) (-1) = Some x.
Proof.
  unfold list_item. rewrite length_app. simpl length.
  replace ((0 <=? -1) && (-1 <? Z.of_nat (length l + 1))) with false
    by reflexivity.
  replace ((- Z.of_nat (length l + 1) <=? -1) && (-1 <? 0)) with true
    by (symmetry; apply andb_true_iff; split;
        [ apply Z.leb_le; lia | reflexivity ]).
  replace (Z.to_nat (Z.of_nat (length l + 1) + -1)) with (length l) by lia.
  apply list_lookup_middle. reflexivity.
Qed.

(** X15.  Reading the semester index of a request, with at least one
    semester: when the form has no field [semester_index] the index is
    -1, which the lookups [semesters[semester_index]] of the branches
    read as the last semester; when it has one, the handling goes on
    only with an index from 0 to [len(semesters) - 1], and otherwise
    flashes "Ungültiger Semesterindex." and redirects.  The lookup of
    the semester therefore never fails, and nothing but the one message
    is changed. *)
Theorem semester_index_in_range (N : PyNumber)
    (int_of_str : string -> result Z) (form : gmap string string)
    (semesters : list (Semester N)) (st : State) :
  semesters <> [] ->
  match semester_index_lesen int_of_str form semesters st with
  | (Ok (Weiter i), st') =>
      st' = st
      /\ (exists semester : Semester N, list_item semesters i = Some semester)
      /\ match form !! "semester_index" with
         | Some text => int_of_str text = Ok i
                        /\ 0 <= i < Z.of_nat (length semesters)
         | None => i = -1 /\ list_item semesters i = last semesters
         end
  | (Ok Umleitung, st') =>
      session st' = session st
      /\ flashes st' = flashes st ++ [("Ungültiger Semesterindex.", "danger")]
      /\ form !! "semester_index" <> None
  | (Raise e, st') =>
      st' = st /\ e <> ValueError
      /\ exists text : string,
           form !! "semester_index" = Some text /\ int_of_str text = Raise e
  end.
Proof.
  intros Hsome. unfold semester_index_lesen.
  destruct (form !! "semester_index") as [ text | ].
  - destruct (int_of_str text) as [ i | e ] eqn:Hint.
    + destruct ((i <? 0) || (Z.of_nat (length semesters) <=? i)) eqn:Hrange.
      * simpl. repeat split; congruence.
      * apply orb_false_iff in Hrange. destruct Hrange as [H1 H2].
        apply Z.ltb_ge in H1. apply Z.leb_gt in H2.
        simpl. split; [ reflexivity | ]. split; [ | split; [ reflexivity | lia ] ].
        unfold list_item.
        replace ((0 <=? i) && (i <? Z.of_nat (length semesters))) with true
          by (symmetry; apply andb_true_iff; split;
              [ apply Z.leb_le | apply Z.ltb_lt ]; lia).
        apply lookup_lt_is_Some. lia.
    + destruct e; simpl; repeat split; try congruence;
        (exists text; split; [ reflexivity | exact Hint ]).
  - simpl. split; [ reflexivity | ].
    destruct (exists_last Hsome) as (front & semester & ->).
    rewrite list_item_last, last_snoc. eauto.
Qed.

Lemma semester_index_in_range_witness :
  match semester_index_lesen (fun _ : string => Ok 1)
          {[ "semester_index" := "1" ]} [semester_ss2024; semester_offen] leer
  with
  | (Ok (Weiter i), st') =>
      st' = leer
      /\ (exists semester : Semester binary64,
            list_item [semester_ss2024; semester_offen] i = Some semester)
      /\ match ({[ "semester_index" := "1" ]} : gmap string string)
                 !! "semester_index" with
         | Some text => (fun _ : string => Ok 1) text = @Ok Z i
                        /\ 0 <= i < Z.of_nat (length [semester_ss2024; semester_offen])
         | None => i = -1
                   /\ list_item [semester_ss2024; semester_offen] i
                      = last [semester_ss2024; semester_offen]
         end
  | (Ok Umleitung, st') =>
      session st' = session leer
      /\ flashes st' = flashes leer ++ [("Ungültiger Semesterindex.", "danger")]
      /\ ({[ "semester_index" := "1" ]} : gmap string string)
           !! "semester_index" <> None
  | (Raise e, st') =>
      st' = leer /\ e <> ValueError
      /\ exists text : string,
           ({[ "semester_index" := "1" ]} : gmap string string)
             !! "semester_index" = Some text
           /\ (fun _ : string => Ok 1) text = @Raise Z e
  end.
Proof.
  apply (semester_index_in_range binary64 (fun _ : string => Ok 1)
           {[ "semester_index" := "1" ]} [semester_ss2024; semester_offen] leer).
  discriminate.
Defined.

(** ** A grade that is not a number *)

Lemma add_nan_l (x : F64.float) : F64.add S754_nan x = S754_nan.
Proof. reflexivity. Qed.

Lemma add_nan_r (x : F64.float) : F64.add x S754_nan = S754_nan.
Proof. destruct x; reflexivity. Qed.

Lemma sum_from_nan (l : list F64.float) :
  fold_left F64.add l S754_nan = S754_nan.
Proof.
  induction l as [ | x l IH ]; cbn [fold_left]; [ reflexivity | ].
  rewrite add_nan_l. exact IH.
Qed.

Lemma sum_with_nan (l : list F64.float) (a : F64.float) :
  In S754_nan l -> fold_left F64.add l a = S754_nan.
Proof.
  revert a. induction l as [ | x l IH ]; intros a; cbn [fold_left In];
    [ tauto | ].
  intros [ -> | Hin ].
  - rewrite add_nan_r. apply sum_from_nan.
  - apply IH. exact Hin.
Qed.

Lemma weighted_grades_nan (modules : list (Module_ binary64)) :
  Exists (fun module => grade module = Some S754_nan) modules ->
  In S754_nan (weighted_grades modules).
Proof.
  unfold weighted_grades.
  induction 1 as [ module rest Hnan | module rest _ IH ]; simpl.
  - rewrite Hnan. simpl. left. reflexivity.
  - destruct (grade module); simpl; auto.
Qed.

(** X16.  In binary64, a unit whose grade is NaN (the form accepts the
    text "nan") makes the average of its semester NaN as soon as the
    credits of the graded units sum to more than zero.  A semester with
    that average is never "ziel-erreicht", whatever its target grade and
    date are, and an overall average that is NaN gives the overall goal
    0 percent and never "ziel-erreicht". *)
Theorem nan_grade_never_achieved (now : datetime)
    (semester : Semester binary64) :
  Exists (fun module => grade module = Some S754_nan) (modules semester) ->
  0 < sum_Z (weights (modules semester)) ->
  calculate_weighted_average (modules semester) = Ok (Some S754_nan)
  /\ (forall z : Ziel,
        semester_ziel now semester (Some S754_nan) = Ok z ->
        ziel_klasse z = "ziel-gefaehrdet" \/ ziel_klasse z = "ziel-verfehlt")
  /\ (forall (date : option string) (target : F64.float) (r : OverallZiel),
        overall_ziel now date target (Some S754_nan) = Ok r ->
        overall_fortschritt_prozent r = 0
        /\ (overall_ziel_klasse r = "ziel-gefaehrdet"
            \/ overall_ziel_klasse r = "ziel-verfehlt")).
Proof.
  intros Hnan Hpos. split; [ | split ].
  - rewrite (average_positive (modules semester) Hpos). unfold sum_num.
    rewrite (sum_with_nan _ _ (weighted_grades_nan _ Hnan)). reflexivity.
  - intros z. rewrite (semester_ziel_graded (N := binary64)).
    assert (Hklasse : noten_klasse semester (S754_nan : @num binary64)
                      = "ziel-gefaehrdet") by reflexivity.
    destruct (semester_zeit_prozent now semester) as [ prozent | [ | | | ] ];
      try discriminate.
    + destruct (F64.ltb (F64.of_Z 100) prozent); intros [= <-]; simpl; auto.
    + intros [= <-]. simpl. auto.
  - intros date target r. rewrite (overall_ziel_graded (N := binary64)).
    assert (Hprozent : overall_noten_prozent target (S754_nan : @num binary64)
                       = Ok 0) by reflexivity.
    rewrite Hprozent. cbn [rbind].
    assert (Hklasse : overall_noten_klasse target (S754_nan : @num binary64)
                      = "ziel-gefaehrdet") by reflexivity.
    destruct (overall_zeit_prozent now date) as [ zeit | [ | | | ] ];
      try discriminate.
    + destruct (F64.ltb (F64.of_Z 100) zeit); intros [= <-]; simpl; auto.
    + intros [= <-]. simpl. auto.
Qed.

Lemma nan_grade_never_achieved_witness :
  let semester : Semester binary64 :=
    {| id := 4; name := "SS 2025"; target_date := Some "2025-09-30";
       target_grade := F64.of_Z 2;
       modules := [unit64 6 17 1;
                   {| ects := 6; grade := Some (S754_nan : @num binary64) |}] |} in
  calculate_weighted_average (modules semester) = Ok (Some S754_nan)
  /\ (forall z : Ziel,
        semester_ziel neujahr2024 semester (Some S754_nan) = Ok z ->
        ziel_klasse z = "ziel-gefaehrdet" \/ ziel_klasse z = "ziel-verfehlt")
  /\ (forall (date : option string) (target : F64.float) (r : OverallZiel),
        overall_ziel neujahr2024 date target (Some S754_nan) = Ok r ->
        overall_fortschritt_prozent r = 0
        /\ (overall_ziel_klasse r = "ziel-gefaehrdet"
            \/ overall_ziel_klasse r = "ziel-verfehlt")).
Proof.
  apply (nan_grade_never_achieved neujahr2024).
  - apply List.Exists_cons_tl. apply List.Exists_cons_hd. reflexivity.
  - reflexivity.
Defined.

(** ** The range of the overall percentage *)

(** The percentage that the grade test of the overall goal sets, for a
    target grade that is zero or above: it is computed, and it lies
    between 0 and 100.  The quotient of the target by a greater average
    rounds to at most 1, its product with 100 to at most 100, and [int]
    truncates. *)
Lemma percent_in_range (target avg : F64.float) :
  valid_binary F64.prec F64.emax target = true ->
  valid_binary F64.prec F64.emax avg = true ->
  F64.leb (F64.of_Z 0) target = true ->
  exists prozent : Z,
    overall_noten_prozent (N := binary64) target avg = Ok prozent
    /\ 0 <= prozent <= 100.
Proof.
  intros Hvt Hva Htarget. unfold overall_noten_prozent.
  change (@num_leb binary64) with F64.leb.
  destruct (F64.leb avg target) eqn:Hle;
    [ exists 100; split; [ reflexivity | lia ] | ].
  unfold fortschritt_prozent.
  change (@num_ltb binary64) with F64.ltb.
  change (@of_int binary64) with F64.of_Z.
  destruct (F64.ltb (F64.of_Z 0) avg) eqn:Hpos;
    [ | exists 0; split; [ reflexivity | lia ] ].
  unfold truediv. change (@num_is_zero binary64) with F64.is_zero.
  rewrite (F64.positive_is_nonzero avg Hpos). cbn [rbind].
  change (@num_quot binary64) with F64.div.
  change (@num_mul binary64) with F64.mul.
  change (@num_to_int binary64) with F64.to_int.
  assert (Hzero : forall s : bool,
             exists p : Z,
               F64.to_int (F64.mul (S754_zero s) (F64.of_Z 100)) = Ok p
               /\ 0 <= p <= 100).
  { intros s. exists 0. split; [ reflexivity | lia ]. }
  destruct avg as [ sa | [ | ] | | [ | ] ma ea ]; try discriminate;
    destruct target as [ st | [ | ] | | [ | ] mt et ]; try discriminate;
    try apply Hzero.
  assert (Horder : et < ea \/ (et = ea /\ Z.pos mt < Z.pos ma)).
  { unfold F64.leb, SFleb, SFcompare in Hle.
    destruct (Z.compare_spec ea et) as [ Heq | Hlt | Hgt ];
      try discriminate; [ | left; lia ].
    right. split; [ lia | ].
    rewrite Pos.compare_cont_spec in Hle. simpl in Hle.
    destruct (Pos.compare_spec ma mt) as [ H | H | H ]; try discriminate.
    lia. }
  destruct (F64General.div_below_one mt ma et ea Hvt Hva Horder)
    as [ -> | (m & e & -> & Hm & Hone) ]; [ apply Hzero | ].
  destruct (F64General.mul_100_below m e Hm Hone)
    as [ -> | (m' & e' & -> & Hm' & Hhundred) ].
  - exists 0. split; [ reflexivity | lia ].
  - exact (F64General.to_int_below_100 m' e' Hm' Hhundred).
Qed.

(** X17.  In binary64, for an overall target grade that is zero or
    above (so not NaN) and an overall average that, when present, is
    any valid double (NaN and the infinities among them): whenever the
    overall goal is returned, its percentage lies between 0 and 100,
    and it is returned whenever the overall target date is a string
    that, where it parses, is a day from 0004-01-01 on. *)
Theorem overall_percent_range (now : datetime) (date : option string)
    (target : F64.float) (total_average : option F64.float) :
  valid_binary F64.prec F64.emax target = true ->
  F64.leb (F64.of_Z 0) target = true ->
  (forall avg : F64.float,
      total_average = Some avg ->
      valid_binary F64.prec F64.emax avg = true) ->
  (forall r : OverallZiel,
      overall_ziel (N := binary64) now date target total_average = Ok r ->
      0 <= overall_fortschritt_prozent r <= 100)
  /\ (datum_tragbar (Datetime.of_ymd 4 1 1) Datetime.max date ->
      exists r : OverallZiel,
        overall_ziel (N := binary64) now date target total_average = Ok r).
Proof.
  intros Hvt Htarget Hva.
  destruct total_average as [ avg | ].
  - destruct (percent_in_range target avg Hvt (Hva avg eq_refl) Htarget)
      as (prozent & Hprozent & Hrange).
    rewrite (overall_ziel_graded (N := binary64)), Hprozent. cbn [rbind].
    pose proof (zeit_prozent_raises now date (3 * 365)) as Hraise.
    unfold overall_zeit_prozent.
    destruct (do target0 <- Datetime.strptime date;
              zeit_prozent now target0 (3 * 365)) as [ zeit | e ].
    + split.
      * intros r. destruct (F64.ltb (F64.of_Z 100) zeit);
          intros [= <-]; exact Hrange.
      * intros _. destruct (F64.ltb (F64.of_Z 100) zeit); eexists; reflexivity.
    + split.
      * intros r. destruct e; try discriminate. intros [= <-]. exact Hrange.
      * intros (s & Hs & Hdate).
        destruct (proj1 (Hraise e ltac:(lia)) eq_refl)
          as [ [Hnone _] | [ (_ & _ & _ & ->) | (t & Ht & Hlt & _) ] ].
        -- congruence.
        -- eexists. reflexivity.
        -- rewrite Hs in Ht. apply Hdate in Ht.
           change (Datetime.days (3 * 365)) with (Datetime.of_ymd 4 1 1) in Hlt.
           lia.
  - split.
    + intros r [= <-]. simpl. lia.
    + intros _. eexists. reflexivity.
Qed.

Lemma overall_percent_range_witness :
  (forall r : OverallZiel,
      overall_ziel (N := binary64) neujahr2024 jahr2030 (F64.of_Z 2)
        (Some (F64.lit 23 1)) = Ok r ->
      0 <= overall_fortschritt_prozent r <= 100)
  /\ (datum_tragbar (Datetime.of_ymd 4 1 1) Datetime.max jahr2030 ->
      exists r : OverallZiel,
        overall_ziel (N := binary64) neujahr2024 jahr2030 (F64.of_Z 2)
          (Some (F64.lit 23 1)) = Ok r).
Proof.
  apply (overall_percent_range neujahr2024 jahr2030 (F64.of_Z 2)
           (Some (F64.lit 23 1))).
  - vm_compute. reflexivity.
  - vm_compute. reflexivity.
  - intros avg [= <-]. vm_compute. reflexivity.
Defined.

(** ** No grade makes the pass raise *)

Lemma sum_valid (l : list F64.float) (a : F64.float) :
  valid_binary F64.prec F64.emax a = true ->
  Forall (fun x => valid_binary F64.prec F64.emax x = true) l ->
  valid_binary F64.prec F64.emax (fold_left F64.add l a) = true.
Proof.
  intros Ha Hl. revert a Ha.
  induction Hl as [ | x l Hx _ IH ]; intros a Ha; cbn [fold_left].
  - exact Ha.
  - apply IH. apply F64General.add_valid; assumption.
Qed.

(** Every grade of the units is a valid double. *)
Definition grades_valid (modules : list (Module_ binary64)) : Prop :=
  Forall (fun module =>
            forall g : F64.float,
              grade module = Some g ->
              valid_binary F64.prec F64.emax g = true) modules.

Lemma weighted_grades_valid (modules : list (Module_ binary64)) :
  grades_valid modules ->
  Forall (fun x => valid_binary F64.prec F64.emax x = true)
         (weighted_grades modules).
Proof.
  unfold weighted_grades.
  induction 1 as [ | module rest Hg _ IH ]; simpl; [ constructor | ].
  destruct (grade module) as [ g | ]; [ | exact IH ].
  simpl. constructor; [ | exact IH ].
  apply F64General.mul_valid; [ apply Hg; reflexivity | ].
  apply F64General.of_Z_valid.
Qed.

Lemma average_valid (modules : list (Module_ binary64)) (avg : F64.float) :
  grades_valid modules ->
  calculate_weighted_average modules = Ok (Some avg) ->
  valid_binary F64.prec F64.emax avg = true.
Proof.
  intros Hg.
  destruct (Z.lt_ge_cases 0 (sum_Z (weights modules))) as [ Hpos | Hle ].
  - rewrite (average_positive modules Hpos). intros [= <-].
    apply F64General.div_valid; [ | apply F64General.of_Z_valid ].
    apply sum_valid; [ apply F64General.of_Z_valid | ].
    apply weighted_grades_valid. exact Hg.
  - rewrite (average_absent modules Hle). discriminate.
Qed.

Lemma all_grades_valid (semesters : list (Semester binary64)) :
  Forall (fun semester => grades_valid (modules semester)) semesters ->
  grades_valid (concat (map modules semesters)).
Proof.
  unfold grades_valid.
  induction 1 as [ | semester rest Hsem _ IH ]; simpl.
  - constructor.
  - apply Forall_app. split; assumption.
Qed.

Lemma all_row_grades_valid (rows : list (Zeile.Semester binary64)) :
  Forall (fun row => grades_valid (Zeile.modules row)) rows ->
  grades_valid (concat (map Zeile.modules rows)).
Proof.
  unfold grades_valid.
  induction 1 as [ | row rest Hrow _ IH ]; simpl.
  - constructor.
  - apply Forall_app. split; assumption.
Qed.

(** A row with an average and without a target grade. *)
Definition row_ohne_zielnote : Zeile.Semester binary64 :=
  {| Zeile.id := 4; Zeile.name := "SS 2025";
     Zeile.target_date := Some "2025-09-30";
     Zeile.target_grade := None;
     Zeile.modules := [unit64 6 17 1] |}.

(** X18.  In binary64, no grades make the evaluation pass over the rows
    raise: with grades that are any valid doubles, any credits and an
    overall target grade that is zero or above, whatever the clock and
    the stored flags are, it returns when every row has a target date
    that is a string and, where it parses, a day from 0001-06-30 to
    9999-12-01, every row that has an average has a target grade, and
    the overall target date is a string and, where it parses, a day
    from 0004-01-01 on.  Dates that do not parse do not stand in the
    way.  A row that has an average and no target grade makes the pass
    raise, with the session and the flashed messages as they were. *)
Theorem dashboard_never_raises (now : datetime)
    (semesters : list (Zeile.Semester binary64)) (date : option string)
    (target : F64.float) (st : State) :
  (Forall (fun semester =>
             datum_tragbar (Datetime.of_ymd 1 6 30) (Datetime.of_ymd 9999 12 1)
               (Zeile.target_date semester)) semesters ->
   Forall (fun semester =>
             Zeile.average_of semester <> None ->
             Zeile.target_grade semester <> None) semesters ->
   datum_tragbar (Datetime.of_ymd 4 1 1) Datetime.max date ->
   Forall (fun semester => grades_valid (Zeile.modules semester)) semesters ->
   valid_binary F64.prec F64.emax target = true ->
   F64.leb (F64.of_Z 0) target = true ->
   exists (a : Zeile.Auswertung binary64) (st' : State),
     Zeile.dashboard now semesters date target st = (Ok a, st')
     /\ Zeile.averages a
        = map (fun semester => (semester, Zeile.average_of semester)) semesters)
  /\ (forall semester : Zeile.Semester binary64,
        In semester semesters ->
        Zeile.average_of semester <> None ->
        Zeile.target_grade semester = None ->
        exists e : exn,
          Zeile.dashboard now semesters date target st = (Raise e, st)).
Proof.
  split.
  - intros Hdates Htargets Hdate Hgrades Hvt Htarget.
    apply row_dashboard_returns_when; try assumption.
    intros avg Havg.
    destruct (percent_in_range target avg Hvt) as (prozent & Hp & _);
      [ | exact Htarget | exists prozent; exact Hp ].
    apply (average_valid (concat (map Zeile.modules semesters)) avg);
      [ | exact Havg ].
    apply all_row_grades_valid. exact Hgrades.
  - intros semester. apply row_dashboard_raises.
Qed.

Lemma dashboard_never_raises_witness :
  exists (a : Zeile.Auswertung binary64) (st' : State),
    Zeile.dashboard neujahr2024
      [row_of semester_ss2024; row_of (semester_kein_datum [unit64 6 17 1])]
      jahr2030 (F64.of_Z 2) leer
    = (Ok a, st')
    /\ Zeile.averages a
       = map (fun semester => (semester, Zeile.average_of semester))
           [row_of semester_ss2024;
            row_of (semester_kein_datum [unit64 6 17 1])].
Proof.
  apply (proj1 (dashboard_never_raises neujahr2024
                  [row_of semester_ss2024;
                   row_of (semester_kein_datum [unit64 6 17 1])]
                  jahr2030 (F64.of_Z 2) leer)).
  - apply List.Forall_cons; [ | apply List.Forall_cons;
                                  [ | apply List.Forall_nil ] ].
    + exists "2024-09-30". split; [ reflexivity | ].
      intros t Ht. vm_compute in Ht. injection Ht as <-.
      split; vm_compute; discriminate.
    + exists "kein Datum". split; [ reflexivity | ].
      intros t Ht. vm_compute in Ht. discriminate.
  - repeat (apply List.Forall_cons || apply List.Forall_nil);
      intros _; discriminate.
  - exists "2030-01-01". split; [ reflexivity | ].
    intros t Ht. vm_compute in Ht. injection Ht as <-.
    split; vm_compute; discriminate.
  - repeat (apply List.Forall_cons || apply List.Forall_nil);
      intros g [= <-]; vm_compute; reflexivity.
  - vm_compute. reflexivity.
  - vm_compute. reflexivity.
Defined.

(** The pass over a row with an average and without a target grade
    raises [TypeError]. *)
Example dashboard_null_target_grade :
  Zeile.average_of row_ohne_zielnote = Some (F64.lit 17 1)
  /\ Zeile.dashboard neujahr2024 [row_of semester_ss2024; row_ohne_zielnote]
       jahr2030 (F64.of_Z 2) leer
     = (Raise TypeError, leer).
Proof.
  split; [ vm_compute; reflexivity | ].
  unfold Zeile.dashboard, bind, lift, ret. rewrite row_averages_eq.
  destruct (average_returns
              (concat (map Zeile.modules
                         [row_of semester_ss2024; row_ohne_zielnote])))
    as [total ->].
  cbn [map for_each fst snd].
  replace (Zeile.average_of row_ohne_zielnote) with (Some (F64.lit 17 1))
    by (vm_compute; reflexivity).
  rewrite (row_semester_ziel_null _ row_ohne_zielnote _ eq_refl).
  destruct (Zeile.semester_ziel neujahr2024 (row_of semester_ss2024)
              (Zeile.average_of (row_of semester_ss2024))) as [ z | e ] eqn:Hz;
    [ reflexivity | ].
  vm_compute in Hz. discriminate.
Qed.

(** ** Dates written YYYY-MM-DD *)

(** The decimal digit [k] as a character. *)
Definition ziffer (k : Z) : ascii := ascii_of_N (Z.to_N (48 + k)).

(** A date as the text YYYY-MM-DD, with leading zeros. *)
Definition iso_date (y m d : Z) : string :=
  String (ziffer (y / 1000))
    (String (ziffer (y / 100 mod 10))
       (String (ziffer (y / 10 mod 10))
          (String (ziffer (y mod 10))
             ("-" +:+ two_digits m +:+ "-" +:+ two_digits d)))).

Module IsoDate.

Import Datetime.

Lemma ziffer_read (k : Z) (s : string) :
  0 <= k <= 9 -> alt_d (String (ziffer k) s) = Some (k, s).
Proof.
  intros Hk.
  assert (H : k = 0 \/ k = 1 \/ k = 2 \/ k = 3 \/ k = 4 \/ k = 5 \/ k = 6
              \/ k = 7 \/ k = 8 \/ k = 9) by lia.
  repeat destruct H as [ -> | H ]; try subst k; reflexivity.
Qed.

(** The cases [n = 0], ..., [n = k - 1] and [n >= k]. *)
Ltac cases_below n k :=
  match k with
  | O => idtac
  | S ?k' => destruct n as [ | n ]; [ | cases_below n k' ]
  end.

(** The month and the day of the text, read by the two groups of the
    regular expression. *)
Lemma month_day_read (Y : Z) (m d : nat) :
  (1 <= m <= 12)%nat -> (1 <= d <= 31)%nat ->
  dash (group month_group (fun m' =>
    dash (group day_group (fun d' rest' => Some (Y, m', d', rest')))))
    ("-" +:+ two_digits (Z.of_nat m) +:+ "-" +:+ two_digits (Z.of_nat d))
  = Some (Y, Z.of_nat m, Z.of_nat d, EmptyString).
Proof.
  intros Hm Hd.
  cases_below m 13%nat; try lia;
    cases_below d 32%nat; try lia; vm_compute; reflexivity.
Qed.

End IsoDate.

(** X19.  Every day of the calendar from 0001-01-01 to 9999-12-31,
    written YYYY-MM-DD with leading zeros, is parsed by
    [strptime(..., '%Y-%m-%d')] to the midnight of that day: such a
    target date is never reported as a date that cannot be read. *)
Theorem strptime_iso_date (y m d : Z) :
  1 <= y <= 9999 -> 1 <= m <= 12 -> 1 <= d <= Datetime.days_in_month y m ->
  Datetime.strptime (Some (iso_date y m d)) = Ok (Datetime.of_ymd y m d).
Proof.
  intros Hy Hm Hd.
  unfold Datetime.strptime, Datetime.regex_Ymd, Datetime.year_group, iso_date.
  rewrite !IsoDate.ziffer_read by (Z.div_mod_to_equations; lia).
  replace (1000 * (y / 1000) + 100 * (y / 100 mod 10)
           + 10 * (y / 10 mod 10) + y mod 10) with y
    by (Z.div_mod_to_equations; lia).
  assert (Hd31 : d <= 31).
  { unfold Datetime.days_in_month in Hd.
    assert (H : m = 1 \/ m = 2 \/ m = 3 \/ m = 4 \/ m = 5 \/ m = 6 \/ m = 7
                \/ m = 8 \/ m = 9 \/ m = 10 \/ m = 11 \/ m = 12) by lia.
    repeat destruct H as [ -> | H ]; try subst m;
      try destruct (Datetime.is_leap y); lia. }
  pose proof (IsoDate.month_day_read y (Z.to_nat m) (Z.to_nat d)
                ltac:(lia) ltac:(lia)) as Hread.
  rewrite !Z2Nat.id in Hread by lia. rewrite Hread.
  replace (y <? 1) with false by (symmetry; apply Z.ltb_ge; lia).
  replace (Datetime.days_in_month y m <? d) with false
    by (symmetry; apply Z.ltb_ge; lia).
  reflexivity.
Qed.

Lemma strptime_iso_date_witness :
  Datetime.strptime (Some (iso_date 2024 2 29))
  = Ok (Datetime.of_ymd 2024 2 29).
Proof.
  apply (strptime_iso_date 2024 2 29).
  - lia.
  - lia.
  - vm_compute. split; discriminate.
Defined.
